(** * The trend data client of the music dashboard

    A shallow embedding of [frontend/src/services/apiService.js] (the class
    [MusicAPIService]), of the live-feed callbacks that the [Dashboard]
    component registers with it, of the loading of the Dashboard's data and
    of the helpers with which the track grid and the player print numbers,
    followed by the properties of the specification that concern them and
    by further properties of the code.

    Conventions of the embedding.
    - A JavaScript value is a [Value]; a number is a rational ([Q]):
      [NaN], the infinities and the rounding of doubles are not represented.
    - A string is a [string] whose characters stand for UTF-16 code units
      in the range U+0000..U+00FF.
    - The fields of [this] that the methods assign are the record
      [Service]; everything outside the service (sockets, timers, the clock,
      the network, the state of the component that registered callbacks) is
      the rest of [World].
    - A method is a computation in the monad [M]: it reads and writes the
      world and either returns or throws.  An [async] method is run to
      completion: what other tasks do between its [await] points is not
      modelled.
    - A number put into a template literal is an integer under 10^21 in
      absolute value, which JavaScript prints in decimal, as [pretty] does.
    - [console.log], [console.warn] and [console.error] have no effect on
      the state and are left out. *)

From Stdlib Require Import ZArith QArith Qround Lia Lqa Ascii String.
From stdpp Require Import base option list strings pretty gmap.

Local Open Scope string_scope.
Local Open Scope Z_scope.

(** ** JavaScript values *)

Local Unset Elimination Schemes.
Inductive Value : Type :=
| VUndefined
| VNull
| VBool (b : bool)
| VNum (q : Q)
| VStr (s : string)
| VArr (items : list Value)
| VObj (props : list (string * Value)).
Local Set Elimination Schemes.

Definition VInt (z : Z) : Value := VNum (inject_Z z).

(** An exception: the constructor's name and the [message] property. *)
Record Exn : Type := mkExn { exn_name : string; message : string }.

(** The completion of a call: a value, or an exception on its way up. *)
Inductive Result (A : Type) : Type :=
| Return (a : A)
| Throw (e : Exn).
Arguments Return {A} a.
Arguments Throw {A} e.

(** [ToBoolean]. *)
Definition truthy (v : Value) : bool :=
  match v with
  | VUndefined | VNull => false
  | VBool b => b
  | VNum q => negb (Qeq_bool q 0)
  | VStr s => negb (String.eqb s "")
  | VArr _ | VObj _ => true
  end.

(** [a || b] on values that are already evaluated. *)
Definition js_or (a b : Value) : Value := if truthy a then a else b.

(** [Array.isArray]. *)
Definition isArray (v : Value) : bool :=
  match v with VArr _ => true | _ => false end.

(** [v === VStr s]. *)
Definition strict_eq_str (v : Value) (s : string) : bool :=
  match v with VStr s' => String.eqb s' s | _ => false end.

Fixpoint lookup_prop (k : string) (props : list (string * Value)) : Value :=
  match props with
  | [] => VUndefined
  | (k', v) :: rest => if String.eqb k k' then v else lookup_prop k rest
  end.

(** [{ ...props, k: v }]: an existing key keeps its place and takes the new
    value, a new key goes last. *)
Fixpoint set_prop (k : string) (v : Value) (props : list (string * Value))
  : list (string * Value) :=
  match props with
  | [] => [(k, v)]
  | (k', v') :: rest =>
      if String.eqb k k' then (k', v) :: rest else (k', v') :: set_prop k v rest
  end.

(** The text of V8's TypeError for a property read on [null] or
    [undefined]; other engines word it differently. *)
Definition nullish_read (what k : string) : Exn :=
  mkExn "TypeError"
    ("Cannot read properties of " +:+ what +:+ " (reading '" +:+ k +:+ "')").

(** [v.k], for the keys this program reads: none of them is defined on a
    built-in prototype, so only an object's own properties answer. *)
Definition get (v : Value) (k : string) : Result Value :=
  match v with
  | VUndefined => Throw (nullish_read "undefined" k)
  | VNull => Throw (nullish_read "null" k)
  | VObj props => Return (lookup_prop k props)
  | _ => Return VUndefined
  end.

(** [v.k] once [v] is known to be neither [null] nor [undefined]. *)
Definition own (v : Value) (k : string) : Value :=
  match v with VObj props => lookup_prop k props | _ => VUndefined end.

(** [v?.k]. *)
Definition get_opt (v : Value) (k : string) : Value :=
  match get v k with Return x => x | Throw _ => VUndefined end.

(** Whether [ToPrimitive] yields a primitive for [v], with either hint.
    The values are made of JSON, so no property of theirs is callable.  An
    object answers through [Object.prototype.toString] unless a property of
    its own named [toString] hides it: then nothing callable is left
    ([Object.prototype.valueOf] returns the object itself) and the
    conversion throws a [TypeError].  An array answers through [join],
    which converts its elements other than [null] and [undefined] in turn. *)
Fixpoint coercible (v : Value) : bool :=
  match v with
  | VObj props => negb (existsb (fun kv => String.eqb (fst kv) "toString") props)
  | VArr items => forallb coercible items
  | _ => true
  end.

(** The own enumerable properties copied by [{ ...v }]. *)
Definition spread (v : Value) : list (string * Value) :=
  match v with
  | VObj props => props
  | VArr items => imap (fun i x => (pretty i, x)) items
  | VStr s =>
      imap (fun i c => (pretty i, VStr (String c EmptyString))) (list_ascii_of_string s)
  | _ => []
  end.

(** ** Strings *)

(** White space and line terminators among the code units modelled: TAB,
    LF, VT, FF, CR, SP and NBSP. *)
Definition is_space (c : ascii) : bool :=
  let n := nat_of_ascii c in
  ((9 <=? n)%nat && (n <=? 13)%nat) || (n =? 32)%nat || (n =? 160)%nat.

Fixpoint trim_start (s : string) : string :=
  match s with
  | String c rest => if is_space c then trim_start rest else s
  | EmptyString => EmptyString
  end.

(** [String.prototype.trim]. *)
Definition trim (s : string) : string :=
  String.rev (trim_start (String.rev (trim_start s))).

Definition drop_chars (n : nat) (s : string) : string :=
  substring n (String.length s - n) s.

(** [s.includes(pat)]. *)
Fixpoint includes (pat s : string) : bool :=
  String.prefix pat s ||
  match s with
  | String _ rest => includes pat rest
  | EmptyString => false
  end.

(** [s.replace(pat, rep)] for a string pattern and a replacement without
    [$]: the first occurrence only. *)
Fixpoint replace (pat rep s : string) : string :=
  if String.prefix pat s then rep +:+ drop_chars (String.length pat) s
  else match s with
       | String c rest => String c (replace pat rep rest)
       | EmptyString => EmptyString
       end.

(** [items[k]] on an array literal. *)
Definition index (items : list Value) (k : Z) : Value :=
  if k <? 0 then VUndefined else default VUndefined (items !! Z.to_nat k).

(** [ToLength]. *)
Definition ToLength (n : Z) : Z := Z.min (Z.max n 0) (2 ^ 53 - 1).

(** ** The service and its world *)

(** The configuration written once by the constructor and never assigned
    again. *)
Definition baseURL : string := "http://localhost:8000".
Definition wsURL : string := "ws://localhost:8000/ws/live".
Definition maxReconnectAttempts : Z := 5.
Definition cacheTimeout : Z := 30000.

Record CacheEntry : Type := mkEntry { data : Value; timestamp : Z }.

(** The fields of [this] that change: the socket handle (an index into the
    world's sockets, [None] for [null]), the two reconnect fields and the
    cache, a [Map] from request key to entry. *)
Record Service : Type := mkService {
  ws : option nat;
  wsConnected : bool;
  reconnectAttempts : Z;
  cache : gmap string CacheEntry
}.

(** The state the constructor leaves. *)
Definition constructor : Service :=
  {| ws := None; wsConnected := false; reconnectAttempts := 0; cache := ∅ |}.

(** A response as the methods see it: the status line and what
    [response.json()] settles to. *)
Record Response : Type := mkResponse {
  status : Z;
  json : Result Value
}.

(** [response.ok]. *)
Definition ok (r : Response) : bool := (200 <=? status r) && (status r <=? 299).

(** What lies outside the program.  The streams are indexed by the number of
    readings already taken; the built-ins listed are those whose result
    rests on number formatting, Unicode tables or the text and the number
    that a value is converted to, which the embedding does not define.
    [parseInt] and [greater_than] say what [parseInt(v)] and [v > n] give
    once [v] has been converted to a primitive; whether that conversion
    throws is decided by [coercible]. *)
Record Env : Type := mkEnv {
  Date_now : nat -> Z;
  Math_random : nat -> Q;
  network : nat -> Result Response;
  WebSocket_throws : option Exn;
  parseInt : Value -> option Z;
  greater_than : Value -> Z -> bool;
  toLowerCase : string -> string;
  Number_toString : Q -> string;
  toISOString : Z -> string;
  encodeURIComponent : string -> Result string
}.

Inductive ReadyState : Type := CONNECTING | OPEN | CLOSING | CLOSED.

#[global] Instance ReadyState_eq_dec : EqDecision ReadyState.
Proof. solve_decision. Defined.

(** The callbacks handed to [connectWebSocket]; [None] is an argument that
    is missing or falsy.  [App] is the state of whoever registered them.  A
    message callback that throws is cut short where it throws and the
    exception is swallowed by the service, so its effect is a function on
    [App]; the status callback is taken to return normally. *)
Record Callbacks (App : Type) : Type := mkCallbacks {
  onMessage : option (Value -> App -> App);
  onConnectionChange : option (bool -> App -> App)
}.
Arguments mkCallbacks {App} _ _.
Arguments onMessage {App} _.
Arguments onConnectionChange {App} _.

(** A [WebSocket] made by [connectWebSocket]: its state, and the callbacks
    its four handlers close over. *)
Record Socket (App : Type) : Type := mkSocket {
  readyState : ReadyState;
  handlers : Callbacks App
}.
Arguments mkSocket {App} _ _.
Arguments readyState {App} _.
Arguments handlers {App} _.

(** A pending [setTimeout] of the reconnect closure. *)
Record Timer (App : Type) : Type := mkTimer {
  delay : Z;
  closure : Callbacks App
}.
Arguments mkTimer {App} _ _.
Arguments delay {App} _.
Arguments closure {App} _.

Record World (App : Type) : Type := mkWorld {
  this : Service;
  sockets : list (Socket App);
  timers : list (Timer App);
  app : App;
  ticks : nat;
  draws : nat;
  sent : list string
}.
Arguments mkWorld {App} _ _ _ _ _ _ _.
Arguments this {App} _.
Arguments sockets {App} _.
Arguments timers {App} _.
Arguments app {App} _.
Arguments ticks {App} _.
Arguments draws {App} _.
Arguments sent {App} _.

Section Client.
Context {App : Type} (E : Env).

Abbreviation World := (World App).
Abbreviation Callbacks := (Callbacks App).

(** *** Field updates *)

Definition with_this (f : Service -> Service) (w : World) : World :=
  mkWorld (f (this w)) (sockets w) (timers w) (app w) (ticks w) (draws w) (sent w).
Definition with_sockets (f : list (Socket App) -> list (Socket App)) (w : World) : World :=
  mkWorld (this w) (f (sockets w)) (timers w) (app w) (ticks w) (draws w) (sent w).
Definition with_timers (f : list (Timer App) -> list (Timer App)) (w : World) : World :=
  mkWorld (this w) (sockets w) (f (timers w)) (app w) (ticks w) (draws w) (sent w).
Definition with_app (f : App -> App) (w : World) : World :=
  mkWorld (this w) (sockets w) (timers w) (f (app w)) (ticks w) (draws w) (sent w).

Definition set_ws (h : option nat) (s : Service) : Service :=
  mkService h (wsConnected s) (reconnectAttempts s) (cache s).
Definition set_wsConnected (b : bool) (s : Service) : Service :=
  mkService (ws s) b (reconnectAttempts s) (cache s).
Definition set_reconnectAttempts (n : Z) (s : Service) : Service :=
  mkService (ws s) (wsConnected s) n (cache s).
Definition set_cache (c : gmap string CacheEntry) (s : Service) : Service :=
  mkService (ws s) (wsConnected s) (reconnectAttempts s) c.

(** *** The monad of method bodies

    State survives a throw: what a body wrote before it threw stays
    written. *)
Definition M (A : Type) : Type := World -> Result A * World.

Definition ret {A} (a : A) : M A := fun w => (Return a, w).
Definition throw {A} (e : Exn) : M A := fun w => (Throw e, w).
Definition bind {A B} (m : M A) (k : A -> M B) : M B :=
  fun w => match m w with
           | (Return a, w') => k a w'
           | (Throw e, w') => (Throw e, w')
           end.
(** [try { body } catch (error) { handler }]. *)
Definition try_catch {A} (body : M A) (handler : Exn -> M A) : M A :=
  fun w => match body w with
           | (Return a, w') => (Return a, w')
           | (Throw e, w') => handler e w'
           end.
Definition lift {A} (r : Result A) : M A := fun w => (r, w).

Notation "'let*' x ':=' m 'in' k" := (bind m (fun x => k))
  (at level 10, x name, m at level 100, k at level 200).
Notation "m ';;' k" := (bind m (fun _ => k))
  (at level 100, k at level 200, right associativity).

(** [items.map(f)]: every element in order, stopping at the first throw. *)
Fixpoint map_M {A B} (f : A -> M B) (items : list A) : M (list B) :=
  match items with
  | [] => ret []
  | x :: rest => let* y := f x in let* ys := map_M f rest in ret (y :: ys)
  end.

(** *** Readings of the environment *)

Definition now : M Z :=
  fun w => (Return (Date_now E (ticks w)),
            mkWorld (this w) (sockets w) (timers w) (app w) (S (ticks w)) (draws w) (sent w)).

Definition random : M Q :=
  fun w => (Return (Math_random E (draws w)),
            mkWorld (this w) (sockets w) (timers w) (app w) (ticks w) (S (draws w)) (sent w)).

(** [Math.floor(Math.random() * n)]. *)
Definition random_below (n : Z) : M Z :=
  let* r := random in ret (Qfloor (r * inject_Z n)).

(** [await fetch(url, ...)]: the request goes out, and the outcome is the
    one the network has for the request of that rank.  [fetch] knows no
    [timeout] option, so the one the source passes changes nothing. *)
Definition fetch (url : string) : M Response :=
  fun w => (network E (length (sent w)),
            mkWorld (this w) (sockets w) (timers w) (app w) (ticks w) (draws w) (sent w ++ [url])%list).

Definition cache_get (key : string) : M (option CacheEntry) :=
  fun w => (Return (cache (this w) !! key), w).

Definition cache_set (key : string) (e : CacheEntry) : M unit :=
  fun w => (Return tt, with_this (fun s => set_cache (<[key := e]> (cache s)) s) w).

(** [Array.from({ length: n }, (_, i) => f(i))]: the length is [ToLength n],
    and the array constructor refuses a length above 2^32 - 1.  What the
    engine's memory allows below that is not modelled. *)
Definition Array_from_length (n : Z) (f : nat -> M Value) : M (list Value) :=
  let len := ToLength n in
  if 2 ^ 32 - 1 <? len then throw (mkExn "RangeError" "Invalid array length")
  else map_M f (seq 0 (Z.to_nat len)).

(** *** Helper methods *)

Definition placeholder_image : string :=
  "https://via.placeholder.com/500x500/1a1a1a/666666?text=Music".

(** [(v).toLowerCase()] on a value already put through [|| '']: a string
    is lowered, anything else has no such method. *)
Definition lower (v : Value) : Result string :=
  match v with
  | VStr s => Return (toLowerCase E s)
  | _ => Throw (mkExn "TypeError" "toLowerCase is not a function")
  end.

(** The [TypeError] of a conversion that finds nothing to call. *)
Definition not_primitive : Exn :=
  mkExn "TypeError" "Cannot convert object to primitive value".

(** [parseInt(v)]: [v] is converted to a string, which throws when [v]
    has no primitive value, and the string is parsed; [None] is [NaN]. *)
Definition js_parseInt (v : Value) : Result (option Z) :=
  if coercible v then Return (parseInt E v) else Throw not_primitive.

(** [v > n] for a number [n]: [v] is converted to a primitive, which
    throws when it has none, and the primitive is compared as a number. *)
Definition js_gt (v : Value) (n : Z) : Result bool :=
  if coercible v then Return (greater_than E v n) else Throw not_primitive.

(** [determineGenre(track)].  The popularity is compared only when the
    title does not hold "trending". *)
Definition determineGenre (track : Value) : M string :=
  let* lang := lift (get track "language") in
  let* language := lift (lower (js_or lang (VStr ""))) in
  let* title :=
    lift (lower (js_or (js_or (own track "song") (own track "track_name")) (VStr ""))) in
  let* album := lift (lower (js_or (own track "album") (VStr ""))) in
  if includes "remix" title || includes "remix" album then ret "remix"
  else
    let* trending :=
      (if includes "trending" title then ret true
       else lift (js_gt (own track "popularity") 90)) in
    if trending then ret "trending"
    else if String.eqb language "hindi" then ret "bollywood"
    else if bool_decide (language ∈ ["tamil"; "telugu"; "malayalam"; "kannada"])
    then ret "south_indian"
    else if String.eqb language "punjabi" then ret "punjabi"
    else ret "regional".

(** [n || alt] for a number [n]: [NaN] ([None]) and 0 give way to [alt]. *)
Definition or_else (n : option Z) (alt : M Z) : M Z :=
  match n with
  | Some z => if z =? 0 then alt else ret z
  | None => alt
  end.

(** [enhanceTrackData(track)].  The properties are computed in the order
    of the object literal; after the first read of [track] has succeeded
    no later read can throw, but the conversions of [parseInt] and [>] and
    the calls of [replace] and [toLowerCase] can. *)
Definition enhanceTrackData (track : Value) : M Value :=
  let* id := lift (get track "id") in
  let* track_id :=
    (if truthy (js_or id (own track "track_id"))
     then ret (js_or id (own track "track_id"))
     else let* t := now in
          let* r := random in
          ret (VStr ("track_" +:+ pretty t +:+ "_" +:+ Number_toString E r))) in
  let track_name :=
    js_or (js_or (js_or (own track "song") (own track "track_name")) (own track "name"))
          (VStr "Unknown Track") in
  let artist :=
    js_or (js_or (js_or (own track "primary_artists") (own track "artist"))
                 (own track "singers"))
          (VStr "Unknown Artist") in
  let album := js_or (own track "album") (VStr "Unknown Album") in
  let* parsed_popularity := lift (js_parseInt (own track "popularity")) in
  let* popularity := or_else parsed_popularity (random_below 100) in
  let* parsed_play_count := lift (js_parseInt (own track "play_count")) in
  let* play_count := or_else parsed_play_count (random_below 1000000) in
  let* parsed_duration := lift (js_parseInt (own track "duration")) in
  let* duration_ms := or_else (Z.mul 1000 <$> parsed_duration) (ret 180000) in
  let* image_url :=
    (if truthy (own track "image")
     then match own track "image" with
          | VStr s => ret (VStr (replace "150x150" "500x500" s))
          | _ => throw (mkExn "TypeError" "track.image.replace is not a function")
          end
     else ret (VStr placeholder_image)) in
  let preview_url :=
    js_or (js_or (js_or (own track "media_preview_url") (own track "preview_url"))
                 (own track "media_url"))
          VNull in
  let language := js_or (own track "language") (VStr "hindi") in
  let* genre := determineGenre track in
  let explicit :=
    js_or (js_or (VBool (strict_eq_str (own track "explicit_content") "1"))
                 (own track "explicit"))
          (VBool false) in
  let release_date :=
    js_or (js_or (own track "year") (own track "release_date")) (VStr "2024") in
  let label := js_or (own track "label") (VStr "Independent") in
  let* is_trending := lift (js_gt (own track "popularity") 80) in
  let* growth := random_below 20 in
  let* listeners := random_below 100000 in
  let* fetched := now in
  ret (VObj [
    ("track_id", track_id);
    ("track_name", track_name);
    ("artist", artist);
    ("album", album);
    ("popularity", VInt popularity);
    ("play_count", VInt play_count);
    ("duration_ms", VInt duration_ms);
    ("image_url", image_url);
    ("preview_url", preview_url);
    ("language", language);
    ("genre", VStr genre);
    ("explicit", explicit);
    ("release_date", release_date);
    ("label", label);
    ("is_trending", VBool is_trending);
    ("growth_rate", VStr ("+" +:+ pretty growth +:+ "%"));
    ("listeners", VInt (listeners + 10000));
    ("fetched_at", VStr (toISOString E fetched));
    ("source", VStr "jiosaavn_api")
  ]).

(** [isCacheValid(key)]. *)
Definition isCacheValid (key : string) : M bool :=
  let* cached := cache_get key in
  match cached with
  | None => ret false
  | Some cached =>
      let* t := now in
      ret (bool_decide (t - timestamp cached < cacheTimeout))
  end.

(** One element of the fallback list, [i] being its index. *)
Definition fallbackTrack (i : nat) : M Value :=
  let* popularity := random_below 100 in
  let* play_count := random_below 1000000 in
  let* language := random_below 4 in
  let* genre := random_below 4 in
  ret (VObj [
    ("track_id", VStr ("fallback_" +:+ pretty i));
    ("track_name", VStr ("Trending Song " +:+ pretty (i + 1)%nat));
    ("artist", VStr ("Popular Artist " +:+ pretty (i + 1)%nat));
    ("album", VStr ("Hit Album " +:+ pretty (i + 1)%nat));
    ("popularity", VInt popularity);
    ("play_count", VInt play_count);
    ("language",
      index [VStr "hindi"; VStr "punjabi"; VStr "tamil"; VStr "telugu"] language);
    ("genre",
      index [VStr "bollywood"; VStr "punjabi"; VStr "south_indian"; VStr "trending"] genre);
    ("image_url", VStr placeholder_image);
    ("preview_url", VNull);
    ("is_trending", VBool true);
    ("source", VStr "fallback")
  ]).

(** [getFallbackTrendingData(limit)]. *)
Definition getFallbackTrendingData (limit : Z) : M Value :=
  let* fallbackTracks := Array_from_length limit fallbackTrack in
  let* t := now in
  ret (VObj [
    ("success", VBool true);
    ("tracks", VArr fallbackTracks);
    ("metadata", VObj [
      ("total", VInt limit);
      ("source", VStr "fallback");
      ("timestamp", VInt t)
    ])
  ]).

(** [getFallbackAnalytics()]. *)
Definition getFallbackAnalytics : Value :=
  VObj [
    ("market_overview", VObj [
      ("total_tracks_analyzed", VInt 50);
      ("unique_artists", VInt 25);
      ("total_plays", VInt 15000000);
      ("avg_popularity_score", VNum (151 # 2))
    ]);
    ("content_distribution", VObj [
      ("by_language", VObj [
        ("hindi", VInt 25);
        ("punjabi", VInt 8);
        ("tamil", VInt 7);
        ("telugu", VInt 6);
        ("malayalam", VInt 4)
      ]);
      ("by_genre", VObj [
        ("bollywood", VInt 30);
        ("punjabi", VInt 8);
        ("south_indian", VInt 12);
        ("trending", VInt 10);
        ("regional", VInt 5)
      ])
    ]);
    ("source", VStr "fallback")
  ].

(** [clearCache()]. *)
Definition clearCache : M unit :=
  fun w => (Return tt, with_this (set_cache ∅) w).

(** *** Core API methods *)

(** [getTrendingTracks(limit)]; a call without argument is a call with 25.
    The two reads of [data] in the validation are taken together: once the
    first has not thrown neither can the second. *)
Definition getTrendingTracks (limit : Z) : M Value :=
  let cacheKey := "trending_" +:+ pretty limit in
  let* valid := isCacheValid cacheKey in
  if valid then
    let* cached := cache_get cacheKey in
    match cached with
    | Some entry => ret (data entry)
    | None => throw (nullish_read "undefined" "data")
    end
  else
    try_catch
      (let* response := fetch (baseURL +:+ "/trending?limit=" +:+ pretty limit) in
       if negb (ok response)
       then throw (mkExn "Error"
                     ("API responded with status: " +:+ pretty (status response)))
       else
         let* data := lift (json response) in
         let* success := lift (get data "success") in
         let tracks := own data "tracks" in
         if negb (truthy success) || negb (truthy tracks) || negb (isArray tracks)
         then throw (mkExn "Error" "Invalid trending data format")
         else
           let* enhancedTracks :=
             (match tracks with
              | VArr items => map_M enhanceTrackData items
              | _ => throw (mkExn "TypeError" "data.tracks.map is not a function")
              end) in
           let* t := now in
           let result :=
             VObj (set_prop "source" (VStr "api")
                    (set_prop "timestamp" (VInt t)
                      (set_prop "tracks" (VArr enhancedTracks) (spread data)))) in
           let* stored := now in
           cache_set cacheKey {| data := result; timestamp := stored |} ;;
           ret result)
      (fun error => getFallbackTrendingData limit).

(** [getAnalytics()]. *)
Definition getAnalytics : M Value :=
  let cacheKey := "analytics" in
  let* valid := isCacheValid cacheKey in
  if valid then
    let* cached := cache_get cacheKey in
    match cached with
    | Some entry => ret (data entry)
    | None => throw (nullish_read "undefined" "data")
    end
  else
    try_catch
      (let* response := fetch (baseURL +:+ "/analytics") in
       if negb (ok response)
       then throw (mkExn "Error" ("Analytics API error: " +:+ pretty (status response)))
       else
         let* data := lift (json response) in
         let* stored := now in
         cache_set cacheKey {| data := data; timestamp := stored |} ;;
         ret data)
      (fun error => ret getFallbackAnalytics).

(** [searchTracks(query, limit)] for a string [query]; a call without
    [limit] is a call with 20. *)
Definition searchTracks (query : string) (limit : Z) : M Value :=
  if negb (truthy (VStr query)) || (String.length (trim query) <? 2)%nat
  then ret (VObj [("tracks", VArr []); ("total", VInt 0)])
  else
    try_catch
      (let* encoded := lift (encodeURIComponent E query) in
       let* response :=
         fetch (baseURL +:+ "/search?query=" +:+ encoded +:+ "&limit=" +:+ pretty limit) in
       let* data := lift (json response) in
       let* success := lift (get data "success") in
       if truthy success && truthy (own data "tracks")
       then
         let* tracks :=
           (match own data "tracks" with
            | VArr items => map_M enhanceTrackData items
            | _ => throw (mkExn "TypeError" "data.tracks.map is not a function")
            end) in
         let total :=
           js_or (get_opt (own data "metadata") "total")
                 (match own data "tracks" with
                  | VArr items => VInt (Z.of_nat (length items))
                  | _ => VUndefined
                  end) in
         ret (VObj [("tracks", VArr tracks); ("total", total); ("query", VStr query)])
       else
         ret (VObj [("tracks", VArr []); ("total", VInt 0); ("query", VStr query)]))
      (fun error =>
         ret (VObj [("tracks", VArr []); ("total", VInt 0);
                    ("error", VStr (message error))])).

(** [testConnection()]. *)
Definition testConnection : M Value :=
  try_catch
    (let* response := fetch (baseURL +:+ "/health") in
     let* data := lift (json response) in
     let* api_status := lift (get data "api_status") in
     ret (VObj [("healthy", VBool (ok response));
                ("status", js_or api_status (VStr "unknown"));
                ("jiosaavn", js_or (own data "jiosaavn_api") (VStr "unknown"))]))
    (fun error =>
       ret (VObj [("healthy", VBool false); ("error", VStr (message error))])).

(** *** WebSocket methods *)

(** [this.ws && this.ws.readyState === WebSocket.OPEN]. *)
Definition ws_is_open (w : World) : bool :=
  match ws (this w) with
  | Some id =>
      match sockets w !! id with
      | Some s => bool_decide (readyState s = OPEN)
      | None => false
      end
  | None => false
  end.

(** [new WebSocket(this.wsURL)] stored in [this.ws]: a further socket,
    connecting, whose handlers close over the callbacks. *)
Definition new_WebSocket (cbs : Callbacks) : M unit :=
  match WebSocket_throws E with
  | Some e => throw e
  | None =>
      fun w =>
        (Return tt,
         with_this (set_ws (Some (length (sockets w))))
           (with_sockets (fun l => (l ++ [mkSocket CONNECTING cbs])%list) w))
  end.

(** [connectWebSocket(onMessage, onConnectionChange)]. *)
Definition connectWebSocket (cbs : Callbacks) : M unit :=
  fun w =>
    if ws_is_open w then (Return tt, w)
    else try_catch (new_WebSocket cbs) (fun error => ret tt) w.

(** Calling a callback that may be absent. *)
Definition call {A} (cb : option (A -> App -> App)) (a : A) : M unit :=
  fun w => (Return tt, match cb with Some f => with_app (f a) w | None => w end).

(** [this.ws.onopen]. *)
Definition ws_onopen (cbs : Callbacks) : M unit :=
  (fun w => (Return tt, with_this (set_wsConnected true) w)) ;;
  (fun w => (Return tt, with_this (set_reconnectAttempts 0) w)) ;;
  call (onConnectionChange cbs) true.

(** [this.ws.onmessage]; [parsed] is what [JSON.parse(event.data)] comes
    to.  The argument of the log line reads [data.type] before the callback
    is called. *)
Definition ws_onmessage (cbs : Callbacks) (parsed : Result Value) : M unit :=
  try_catch
    (let* data := lift parsed in
     let* type := lift (get data "type") in
     call (onMessage cbs) data)
    (fun error => ret tt).

(** The closure handed to [setTimeout] by [onclose]. *)
Definition reconnect (cbs : Callbacks) : M unit :=
  (fun w =>
     (Return tt,
      with_this (fun s => set_reconnectAttempts (reconnectAttempts s + 1) s) w)) ;;
  connectWebSocket cbs.

(** [setTimeout(reconnect, ms)]. *)
Definition setTimeout (cbs : Callbacks) (ms : Z) : M unit :=
  fun w => (Return tt, with_timers (fun l => (l ++ [mkTimer ms cbs])%list) w).

(** [this.ws.onclose]. *)
Definition ws_onclose (cbs : Callbacks) : M unit :=
  (fun w => (Return tt, with_this (set_wsConnected false) w)) ;;
  call (onConnectionChange cbs) false ;;
  fun w =>
    if bool_decide (reconnectAttempts (this w) < maxReconnectAttempts)
    then setTimeout cbs (3000 * reconnectAttempts (this w)) w
    else (Return tt, w).

(** [this.ws.onerror]. *)
Definition ws_onerror (cbs : Callbacks) : M unit := ret tt.

(** [socket.close()]: a socket that is connecting or open starts closing. *)
Definition close (s : Socket App) : Socket App :=
  match readyState s with
  | CONNECTING | OPEN => mkSocket CLOSING (handlers s)
  | CLOSING | CLOSED => s
  end.

(** [disconnectWebSocket()]. *)
Definition disconnectWebSocket : M unit :=
  fun w =>
    match ws (this w) with
    | Some id =>
        (Return tt,
         with_this (set_wsConnected false)
           (with_this (set_ws None)
             (with_sockets (alter close id) w)))
    | None => (Return tt, w)
    end.

(** *** The event loop

    What can happen to the client: the browser fires an event on one of
    the sockets or runs a pending timer, or the application calls one of
    the two methods or changes its own state.  An event that cannot occur
    in the world at hand (a message on a socket that is not open, say) has
    no successor.  Timers run in any order: the delay is recorded, time
    itself is not. *)
Inductive Event : Type :=
| SocketOpens (id : nat)
| SocketMessage (id : nat) (parsed : Result Value)
| SocketError (id : nat)
| SocketCloses (id : nat)
| TimerFires (k : nat)
| CallConnect (cbs : Callbacks)
| CallDisconnect
| AppDoes (f : App -> App).

Definition set_readyState (r : ReadyState) (s : Socket App) : Socket App :=
  mkSocket r (handlers s).

Definition after (m : M unit) (w : World) : World := snd (m w).

Definition step (ev : Event) (w : World) : option World :=
  match ev with
  | SocketOpens id =>
      s ← sockets w !! id;
      if bool_decide (readyState s = CONNECTING)
      then Some (after (ws_onopen (handlers s))
                   (with_sockets (alter (set_readyState OPEN) id) w))
      else None
  | SocketMessage id parsed =>
      s ← sockets w !! id;
      if bool_decide (readyState s = OPEN)
      then Some (after (ws_onmessage (handlers s) parsed) w)
      else None
  | SocketError id =>
      s ← sockets w !! id;
      if bool_decide (readyState s = CLOSED) then None
      else Some (after (ws_onerror (handlers s)) w)
  | SocketCloses id =>
      s ← sockets w !! id;
      if bool_decide (readyState s = CLOSED) then None
      else Some (after (ws_onclose (handlers s))
                   (with_sockets (alter (set_readyState CLOSED) id) w))
  | TimerFires k =>
      t ← timers w !! k;
      Some (after (reconnect (closure t)) (with_timers (delete k) w))
  | CallConnect cbs => Some (after (connectWebSocket cbs) w)
  | CallDisconnect => Some (after disconnectWebSocket w)
  | AppDoes f => Some (with_app f w)
  end.

Fixpoint run (evs : list Event) (w : World) : option World :=
  match evs with
  | [] => Some w
  | ev :: rest => w' ← step ev w; run rest w'
  end.

(** The connection held in [this.ws] drops and the reconnect which that
    close scheduled runs. *)
Definition drop_and_retry (w : World) : option World :=
  id ← ws (this w);
  w1 ← step (SocketCloses id) w;
  step (TimerFires (length (timers w))) w1.

End Client.

Arguments ret {App A} a w /.
Arguments throw {App A} e w /.
Arguments lift {App A} r w /.
Arguments bind {App A B} m k w /.
Arguments try_catch {App A} body handler w /.

Notation "'let*' x ':=' m 'in' k" := (bind m (fun x => k))
  (at level 10, x name, m at level 100, k at level 200).
Notation "m ';;' k" := (bind m (fun _ => k))
  (at level 100, k at level 200, right associativity).

(** ** The live-feed callbacks of the Dashboard component

    The state cells of a [Dashboard] that the two callbacks passed to
    [connectWebSocket] write and that the properties below read, with the
    [mounted] variable of the effect that registers them.  The message
    callback also recomputes [liveMetrics] and stamps [lastUpdate] and
    [debugInfo]; these cells (floating-point averages, a random rate) are
    not represented, and an exception raised while recomputing them comes
    after the track list has been replaced. *)
Module Dashboard.

Record State : Type := mkState {
  mounted : bool;
  trendingData : Value;
  wsConnected : bool;
  connectionStatus : string;
  (** what [new Date().toISOString()] yields at this moment *)
  isoNow : string
}.

(** The component as first rendered: [useState(null)], [useState(false)],
    [useState('connecting')]. *)
Definition initial (iso : string) : State :=
  {| mounted := true; trendingData := VNull; wsConnected := false;
     connectionStatus := "connecting"; isoNow := iso |}.

(** [setTrendingData(update)] with a function of the previous value. *)
Definition setTrendingData (update : Value -> Value) (d : State) : State :=
  mkState (mounted d) (update (trendingData d)) (wsConnected d)
          (connectionStatus d) (isoNow d).

(** The first callback: [(data) => { ... }]. *)
Definition on_message (data : Value) (d : State) : State :=
  if negb (mounted d) then d
  else
    match get data "type" with
    | Throw _ => d
    | Return type =>
        if strict_eq_str type "trending_update" && truthy (own data "data")
        then
          setTrendingData
            (fun prev =>
               VObj (set_prop "metadata"
                       (VObj (set_prop "source" (VStr "websocket")
                               (set_prop "last_update" (VStr (isoNow d))
                                 (spread (get_opt prev "metadata")))))
                       (set_prop "tracks" (own data "data") (spread prev))))
            d
        else d
    end.

(** The second callback: [(connected) => { ... }]. *)
Definition on_status (connected : bool) (d : State) : State :=
  if negb (mounted d) then d
  else
    mkState (mounted d) (trendingData d) connected
            (if connected then "connected" else "disconnected") (isoNow d).

(** Unmounting: the cleanup of the effect sets [mounted = false] before it
    calls [disconnectWebSocket]. *)
Definition unmount (d : State) : State :=
  mkState false (trendingData d) (wsConnected d) (connectionStatus d) (isoNow d).

(** The application is the list of the Dashboards rendered so far, in the
    order of their mounting: [App] renders the Dashboard under
    [key={activeSection}], so that a change of section unmounts the current
    Dashboard and mounts a new one, with state and callbacks of its own. *)
Definition mount (iso : string) (page : list State) : list State :=
  (page ++ [initial iso])%list.

(** The callbacks that the [i]-th Dashboard passes to [connectWebSocket]. *)
Definition callbacks (i : nat) : Callbacks (list State) :=
  mkCallbacks (Some (fun data => alter (on_message data) i))
              (Some (fun connected => alter (on_status connected) i)).

(** The track list the component holds: [trendingData?.tracks]. *)
Definition tracks (d : State) : Value := get_opt (trendingData d) "tracks".

(** The test [loadDashboardData] puts to what [getTrendingTracks] resolved
    to before keeping it; otherwise it generates a list of its own. *)
Definition keeps_trending (trendingResult : Value) : bool :=
  truthy trendingResult && truthy (own trendingResult "tracks")
  && match own trendingResult "tracks" with
     | VArr items => bool_decide (0 < length items)%nat
     | _ => false
     end.

(** The test it puts to what [getAnalytics] resolved to. *)
Definition keeps_analytics (analyticsResult : Value) : bool :=
  truthy analyticsResult && truthy (own analyticsResult "content_distribution").

End Dashboard.

(** ** The data the Dashboard component loads and derives

    [loadDashboardData] and the functions it calls, over the state cells
    they write.  The texts put into [debugInfo] begin with characters
    outside the range of the strings used here, so that cell holds a tag for
    each text. *)
Module DashboardLoad.

(** The value of the [liveMetrics] cell. *)
Record Metrics : Type := mkMetrics {
  liveTracks : Z;
  activeArtists : Z;
  avgPopularity : Q;
  activeLanguages : Z;
  totalListeners : Q;
  streamingRate : Z
}.

Inductive DebugInfo : Type :=
| Initializing                (** ['Initializing dashboard...'] *)
| LoadingData                 (** ['... Loading real-time music data...'] *)
| ConnectedToAPIs             (** ['... Connected to Music APIs'] *)
| UsingFallback               (** ['... Using cached/fallback data'] *)
| UpdatedIn (loadTime : Z)    (** [`... Dashboard updated in ${loadTime}ms`] *)
| ErrorText (msg : string).   (** [`... Error: ${err.message}`] *)

Record Cells : Type := mkCells {
  trendingData : Value;
  analytics : Value;
  loading : bool;
  error : Value;
  connectionStatus : string;
  debugInfo : DebugInfo;
  liveMetrics : Metrics;
  (** the time value of the [Date] in [lastUpdate], [None] for [null] *)
  lastUpdate : option Z
}.

(** The cells as [useState] initialises them. *)
Definition initial : Cells :=
  {| trendingData := VNull; analytics := VNull; loading := true; error := VNull;
     connectionStatus := "connecting"; debugInfo := Initializing;
     liveMetrics := mkMetrics 2 15 (446 # 5) 3 (inject_Z 245000) 1240;
     lastUpdate := None |}.

Definition setTrendingData (v : Value) (c : Cells) : Cells :=
  mkCells v (analytics c) (loading c) (error c) (connectionStatus c) (debugInfo c)
          (liveMetrics c) (lastUpdate c).
Definition setAnalytics (v : Value) (c : Cells) : Cells :=
  mkCells (trendingData c) v (loading c) (error c) (connectionStatus c) (debugInfo c)
          (liveMetrics c) (lastUpdate c).
Definition setLoading (b : bool) (c : Cells) : Cells :=
  mkCells (trendingData c) (analytics c) b (error c) (connectionStatus c) (debugInfo c)
          (liveMetrics c) (lastUpdate c).
Definition setError (v : Value) (c : Cells) : Cells :=
  mkCells (trendingData c) (analytics c) (loading c) v (connectionStatus c) (debugInfo c)
          (liveMetrics c) (lastUpdate c).
Definition setConnectionStatus (s : string) (c : Cells) : Cells :=
  mkCells (trendingData c) (analytics c) (loading c) (error c) s (debugInfo c)
          (liveMetrics c) (lastUpdate c).
Definition setDebugInfo (d : DebugInfo) (c : Cells) : Cells :=
  mkCells (trendingData c) (analytics c) (loading c) (error c) (connectionStatus c) d
          (liveMetrics c) (lastUpdate c).
Definition setLiveMetrics (m : Metrics) (c : Cells) : Cells :=
  mkCells (trendingData c) (analytics c) (loading c) (error c) (connectionStatus c)
          (debugInfo c) m (lastUpdate c).
Definition setLastUpdate (t : option Z) (c : Cells) : Cells :=
  mkCells (trendingData c) (analytics c) (loading c) (error c) (connectionStatus c)
          (debugInfo c) (liveMetrics c) t.

(** [s.split(',')]: the pieces between the commas, at least one. *)
Fixpoint split_commas (s : string) : list string :=
  match s with
  | EmptyString => [EmptyString]
  | String c rest =>
      if Ascii.eqb c "," then EmptyString :: split_commas rest
      else match split_commas rest with
           | piece :: pieces => String c piece :: pieces
           | [] => [String c EmptyString]
           end
  end.

(** [getFirstArtist(artistString)]. *)
Definition getFirstArtist (artistString : Value) : string :=
  match artistString with
  | VStr s =>
      if negb (truthy artistString) then "Unknown"
      else
        let first := trim (default "" (head (split_commas s))) in
        if String.eqb first "" then "Unknown" else first
  | _ => "Unknown"
  end.

(** [parseFloat(x.toFixed(1))] for a number [x]: the tenth nearest to [x],
    the one farther from 0 of two that are equally near; from 10^21 on,
    [toFixed] prints the number itself. *)
Definition to_tenth (x : Q) : Q :=
  let magnitude := if Qle_bool 0 x then x else (- x)%Q in
  if Qle_bool (inject_Z (10 ^ 21)) magnitude then x
  else
    let n := Qfloor (magnitude * 10 + (1 # 2)) in
    if Qle_bool 0 x then (n # 10) else (- n # 10).

Section Load.
Context (E : Env).

Abbreviation M := (M (App:=Cells)).

Definition set_cells (f : Cells -> Cells) : M unit :=
  fun w => (Return tt, with_app f w).

(** [new Date().toISOString()]. *)
Definition new_Date_toISOString : M string :=
  let* t := now E in ret (toISOString E t).

(** One element of the list [generateFallbackTrendingData] makes, [i]
    being its index. *)
Definition generatedTrack (i : nat) : M Value :=
  let* popularity := random_below E 40 in
  let* play_count := random_below E 5000000 in
  let* language := random_below E 5 in
  let* genre_category := random_below E 5 in
  let* listeners := random_below E 50000 in
  let* growth := random_below E 30 in
  let* duration := random_below E 120000 in
  let* fetched_at := new_Date_toISOString in
  let image :=
    "https://via.placeholder.com/500x500/1a1a1a/00d4ff?text=Song+"
      +:+ pretty (i + 1)%nat in
  ret (VObj [
    ("id", VStr ("fallback_" +:+ pretty i));
    ("track_id", VStr ("fallback_" +:+ pretty i));
    ("song", VStr ("Trending Song " +:+ pretty (i + 1)%nat));
    ("track_name", VStr ("Trending Song " +:+ pretty (i + 1)%nat));
    ("primary_artists", VStr ("Popular Artist " +:+ pretty (i + 1)%nat));
    ("artist", VStr ("Popular Artist " +:+ pretty (i + 1)%nat));
    ("album", VStr ("Hit Album " +:+ pretty (i + 1)%nat));
    ("popularity", VInt (popularity + 60));
    ("play_count", VInt (play_count + 500000));
    ("language",
      index [VStr "hindi"; VStr "punjabi"; VStr "tamil"; VStr "telugu"; VStr "malayalam"]
            language);
    ("genre_category",
      index [VStr "bollywood"; VStr "punjabi"; VStr "south_indian"; VStr "trending";
             VStr "regional"]
            genre_category);
    ("image", VStr image);
    ("image_url", VStr image);
    ("media_preview_url", VNull);
    ("preview_url", VNull);
    ("is_trending", VBool true);
    ("listeners", VInt (listeners + 5000));
    ("growth_rate", VStr ("+" +:+ pretty (growth + 5) +:+ "%"));
    ("duration_ms", VInt (duration + 180000));
    ("fetched_at", VStr fetched_at);
    ("source", VStr "fallback")
  ]).

(** [generateFallbackTrendingData()]. *)
Definition generateFallbackTrendingData : M Value :=
  let* fallbackTracks := Array_from_length 21 generatedTrack in
  let* timestamp := new_Date_toISOString in
  ret (VObj [
    ("success", VBool true);
    ("tracks", VArr fallbackTracks);
    ("metadata", VObj [
      ("total_tracks", VInt (Z.of_nat (length fallbackTracks)));
      ("source", VStr "fallback_generated");
      ("timestamp", VStr timestamp)
    ])
  ]).

(** [generateFallbackAnalytics()]. *)
Definition generateFallbackAnalytics : M Value :=
  let* data_freshness := new_Date_toISOString in
  let* timestamp := new_Date_toISOString in
  ret (VObj [
    ("market_overview", VObj [
      ("total_tracks_analyzed", VInt 100);
      ("unique_artists", VInt 45);
      ("avg_popularity_score", VNum (157 # 2));
      ("data_freshness", VStr data_freshness)
    ]);
    ("content_distribution", VObj [
      ("by_language", VObj [
        ("hindi", VInt 45);
        ("punjabi", VInt 15);
        ("tamil", VInt 12);
        ("telugu", VInt 10);
        ("malayalam", VInt 8);
        ("kannada", VInt 6);
        ("bengali", VInt 4)
      ]);
      ("by_genre", VObj [
        ("bollywood", VInt 40);
        ("punjabi", VInt 15);
        ("south_indian", VInt 20);
        ("trending", VInt 10);
        ("remix", VInt 8);
        ("regional", VInt 7)
      ])
    ]);
    ("timestamp", VStr timestamp);
    ("data_source", VStr "fallback_analytics")
  ]).

(** What [updateLiveMetrics] gathers while it goes through the tracks. *)
Record Tally : Type := mkTally {
  uniqueArtists : gset string;
  uniqueLanguages : gset string;
  totalPopularity : Q;
  totalListenersSoFar : Q
}.

(** The artists of one track added to the set: every piece between commas
    that is not blank, trimmed. *)
Definition add_artists (artistString : string) (artists : gset string) : gset string :=
  foldl (fun acc artist =>
           if negb (String.eqb artist "") && negb (String.eqb (trim artist) "")
           then {[ trim artist ]} ∪ acc else acc)
        artists (split_commas artistString).

(** The body of [tracks.forEach(track => ...)]. *)
Definition tally_track (t : Tally) (track : Value) : M Tally :=
  let* artist := lift (get track "artist") in
  let artistString :=
    js_or (js_or artist (own track "primary_artists")) (VStr "Unknown Artist") in
  let artists :=
    match artistString with
    | VStr s => add_artists s (uniqueArtists t)
    | _ => uniqueArtists t
    end in
  let languages :=
    match own track "language" with
    | VStr l => if truthy (VStr l) then {[ l ]} ∪ uniqueLanguages t else uniqueLanguages t
    | _ => uniqueLanguages t
    end in
  let popularity := match own track "popularity" with VNum q => q | _ => 0%Q end in
  let* listeners :=
    (match own track "listeners" with
     | VNum q => ret q
     | _ => let* n := random_below E 10000 in ret (inject_Z n)
     end) in
  ret (mkTally artists languages
               (totalPopularity t + popularity)%Q
               (totalListenersSoFar t + listeners)%Q).

Fixpoint forEach {A S} (f : S -> A -> M S) (items : list A) (s : S) : M S :=
  match items with
  | [] => ret s
  | x :: rest => let* s' := f s x in forEach f rest s'
  end.

(** [n || alt] for a size. *)
Definition size_or (n : nat) (alt : Z) : Z :=
  if (n =? 0)%nat then alt else Z.of_nat n.

(** [updateLiveMetrics(data)]. *)
Definition updateLiveMetrics (data : Value) : M unit :=
  if negb (truthy data) || negb (truthy (own data "tracks"))
     || negb (isArray (own data "tracks"))
  then ret tt
  else
    match own data "tracks" with
    | VArr tracks =>
        let* t := forEach tally_track tracks (mkTally ∅ ∅ 0 0) in
        let* rate := random_below E 2000 in
        set_cells (setLiveMetrics {|
          liveTracks := Z.of_nat (length tracks);
          activeArtists := size_or (size (uniqueArtists t)) 1;
          avgPopularity :=
            if bool_decide (0 < length tracks)%nat
            then to_tenth (totalPopularity t / inject_Z (Z.of_nat (length tracks)))
            else 0%Q;
          activeLanguages := size_or (size (uniqueLanguages t)) 1;
          totalListeners :=
            if Qeq_bool (totalListenersSoFar t) 0 then inject_Z 245000
            else totalListenersSoFar t;
          streamingRate := rate + 500
        |})
    | _ => ret tt
    end.

(** [try { body } finally { final }]. *)
Definition try_finally {A} (body : M A) (final : M unit) : M A :=
  fun w => match body w with
           | (r, w') =>
               match final w' with
               | (Return _, w'') => (r, w'')
               | (Throw e, w'') => (Throw e, w'')
               end
           end.

(** The three places where [loadDashboardData] falls back on
    [generateFallbackTrendingData]. *)
Definition use_generated_trending : M unit :=
  let* fallbackData := generateFallbackTrendingData in
  set_cells (setTrendingData fallbackData) ;;
  updateLiveMetrics fallbackData.

Definition use_generated_analytics : M unit :=
  let* fallback := generateFallbackAnalytics in
  set_cells (setAnalytics fallback).

(** [loadDashboardData(isInitialLoad)].  The three calls of the service
    that the function awaits appear as what they settle to:
    [connectionTest] for [await musicAPIService.testConnection()], and
    [trendingResponse], [analyticsResponse] for the two promises under
    [Promise.allSettled], which itself never rejects.  The callback is made
    once (its dependency list is empty), so that the [trendingData] and
    [analytics] its [catch] block tests are those of the first render,
    [null]. *)
Definition loadDashboardData (isInitialLoad : bool)
    (connectionTest trendingResponse analyticsResponse : Result Value) : M unit :=
  let* startTime := now E in
  try_finally
    (try_catch
       ((if isInitialLoad
         then set_cells (setLoading true) ;; set_cells (setDebugInfo LoadingData)
         else ret tt) ;;
        set_cells (setError VNull) ;;
        let* connectionTest := lift connectionTest in
        (if truthy connectionTest && truthy (own connectionTest "healthy")
         then set_cells (setConnectionStatus "connected") ;;
              set_cells (setDebugInfo ConnectedToAPIs)
         else set_cells (setConnectionStatus "degraded") ;;
              set_cells (setDebugInfo UsingFallback)) ;;
        (match trendingResponse with
         | Return trendingResult =>
             if truthy trendingResult
             then
               if Dashboard.keeps_trending trendingResult
               then set_cells (setTrendingData trendingResult) ;;
                    updateLiveMetrics trendingResult
               else use_generated_trending
             else use_generated_trending
         | Throw _ => use_generated_trending
         end) ;;
        (match analyticsResponse with
         | Return analyticsResult =>
             if truthy analyticsResult
             then
               if Dashboard.keeps_analytics analyticsResult
               then set_cells (setAnalytics analyticsResult)
               else use_generated_analytics
             else use_generated_analytics
         | Throw _ => use_generated_analytics
         end) ;;
        let* updated := now E in
        set_cells (setLastUpdate (Some updated)) ;;
        let* finished := now E in
        set_cells (setDebugInfo (UpdatedIn (finished - startTime))))
       (fun err =>
          set_cells (setError (VStr (message err))) ;;
          set_cells (setConnectionStatus "error") ;;
          set_cells (setDebugInfo (ErrorText (message err))) ;;
          (if negb (truthy VNull) then use_generated_trending else ret tt) ;;
          (if negb (truthy VNull) then use_generated_analytics else ret tt)))
    (if isInitialLoad then set_cells (setLoading false) else ret tt).

End Load.

(** [hasValidTrendingData] and [hasValidAnalytics] of
    [renderSectionContent]: without both the component shows its loading
    panel. *)
Definition hasValidTrendingData (c : Cells) : bool :=
  Dashboard.keeps_trending (trendingData c).

Definition hasValidAnalytics (c : Cells) : bool :=
  truthy (analytics c)
  && truthy (own (analytics c) "content_distribution")
  && truthy (js_or (own (own (analytics c) "content_distribution") "by_genre")
                   (own (own (analytics c) "content_distribution") "by_language")).

End DashboardLoad.

(** ** What the track grid and the player print

    The helpers of [components/SongGrid.js] and [components/MusicPlayer.js]
    that turn the numbers of a track into text, and the set of liked
    tracks.  Their argument is taken to be a number. *)

Module Display.

(** The integer part of a number, as [%] takes it. *)
Definition trunc (x : Q) : Z := if Qle_bool 0 x then Qfloor x else Qceiling x.

(** [x % m]: what is left of [x] after the whole multiples of [m]; it has
    the sign of [x]. *)
Definition js_rem (x m : Q) : Q := (x - m * inject_Z (trunc (x / m)))%Q.

(** [s.padStart(targetLength, fill)] with a filler of one character. *)
Definition padStart (targetLength : nat) (fill : ascii) (s : string) : string :=
  string_of_list_ascii (replicate (targetLength - String.length s) fill) +:+ s.

(** [formatDuration(ms)] of SongGrid. *)
Definition formatDuration (ms : Q) : string :=
  if Qeq_bool ms 0 then "3:00"
  else
    let minutes := Qfloor (ms / 60000) in
    let seconds := Qfloor (js_rem ms 60000 / 1000) in
    pretty minutes +:+ ":" +:+ padStart 2 "0" (pretty seconds).

(** [formatTime(timeInSeconds)] of MusicPlayer. *)
Definition formatTime (timeInSeconds : Q) : string :=
  if Qeq_bool timeInSeconds 0 then "0:00"
  else
    let minutes := Qfloor (timeInSeconds / 60) in
    let seconds := Qfloor (js_rem timeInSeconds 60) in
    pretty minutes +:+ ":" +:+ padStart 2 "0" (pretty seconds).

(** The update that [toggleLike(trackId)] applies to the set of liked
    tracks, for track ids that are strings. *)
Definition toggleLike (trackId : string) (prev : gset string) : gset string :=
  if decide (trackId ∈ prev) then prev ∖ {[trackId]} else prev ∪ {[trackId]}.

End Display.

(** ** Vocabulary of the statements *)

(** The two cached fetch operations, by request. *)
Inductive Endpoint : Type :=
| Trending (limit : Z)
| Analytics.

Definition request_key (ep : Endpoint) : string :=
  match ep with
  | Trending limit => "trending_" +:+ pretty limit
  | Analytics => "analytics"
  end.

Definition request_url (ep : Endpoint) : string :=
  match ep with
  | Trending limit => baseURL +:+ "/trending?limit=" +:+ pretty limit
  | Analytics => baseURL +:+ "/analytics"
  end.

(** The three results [searchTracks] builds without tracks. *)
Definition empty_result : Value :=
  VObj [("tracks", VArr []); ("total", VInt 0)].
Definition empty_result_for (query : string) : Value :=
  VObj [("tracks", VArr []); ("total", VInt 0); ("query", VStr query)].
Definition error_result (e : Exn) : Value :=
  VObj [("tracks", VArr []); ("total", VInt 0); ("error", VStr (message e))].

(** The text of [v || ''] when it is text. *)
Definition text_of (v : Value) : string :=
  match v with VStr s => s | _ => "" end.

(** A value that is a string, or falsy: what [(v || '').toLowerCase()] and
    [v ? v.replace(...) : ...] can work on. *)
Definition text_or_absent (v : Value) : bool :=
  match v with VStr _ => true | _ => negb (truthy v) end.

(** A record that [enhanceTrackData] can work on: anything but [null] and
    [undefined], with a popularity, a play count and a duration that have
    a primitive value and with text, if anything, for the language, the
    title, the album and the image. *)
Definition normalisable (track : Value) : bool :=
  match track with
  | VUndefined | VNull => false
  | _ =>
      coercible (own track "popularity")
      && coercible (own track "play_count")
      && coercible (own track "duration")
      && text_or_absent (own track "language")
      && text_or_absent (js_or (own track "song") (own track "track_name"))
      && text_or_absent (own track "album")
      && text_or_absent (own track "image")
  end.

(** The texts [determineGenre] lowers: the language, the title and the
    album hold text, if anything. *)
Definition texts_readable (track : Value) : bool :=
  text_or_absent (own track "language")
  && text_or_absent (js_or (own track "song") (own track "track_name"))
  && text_or_absent (own track "album").

(** The title or the album decides the genre: one of them holds "remix",
    or the title holds "trending"; the popularity is then not looked at. *)
Definition decided_by_text (E : Env) (track : Value) : bool :=
  let title :=
    toLowerCase E
      (text_of (js_or (js_or (own track "song") (own track "track_name")) (VStr ""))) in
  let album := toLowerCase E (text_of (js_or (own track "album") (VStr ""))) in
  includes "remix" title || includes "remix" album || includes "trending" title.

(** A record that [determineGenre] can work on: anything but [null] and
    [undefined] whose texts are readable and whose popularity, where the
    texts do not decide, has a primitive value. *)
Definition classifiable (E : Env) (track : Value) : bool :=
  match track with
  | VUndefined | VNull => false
  | _ =>
      texts_readable track
      && (decided_by_text E track || coercible (own track "popularity"))
  end.

(** The names under which [enhanceTrackData] files what it has read. *)
Definition track_fields : list string :=
  ["track_id"; "track_name"; "artist"; "album"; "popularity"; "play_count";
   "duration_ms"; "image_url"; "preview_url"; "language"; "genre"; "explicit";
   "release_date"; "label"; "is_trending"; "growth_rate"; "listeners";
   "fetched_at"; "source"].

(** The genres [determineGenre] tells apart. *)
Definition genres : list string :=
  ["remix"; "trending"; "bollywood"; "south_indian"; "punjabi"; "regional"].

Section Vocabulary.
Context {App : Type} (E : Env).
Implicit Types (w : World App) (cbs : Callbacks App).

(** [m] returns, from every world, a value that satisfies [P]. *)
Definition returns_with {A} (m : M (App:=App) A) (P : A → Prop) : Prop :=
  ∀ w, ∃ a w', m w = (Return a, w') ∧ P a.

(** [m] throws, from every world, an exception that satisfies [P]. *)
Definition fails_with {A} (m : M (App:=App) A) (P : Exn → Prop) : Prop :=
  ∀ w, ∃ e w', m w = (Throw e, w') ∧ P e.

(** From an application state that satisfies [P], [m] either returns a
    value and leaves a state that satisfy [Q], or throws an exception and
    leaves a state that satisfy [R]. *)
Definition triple {A} (P : App → Prop) (m : M (App:=App) A)
    (Q : A → App → Prop) (R : Exn → App → Prop) : Prop :=
  ∀ w, P (app w) →
    match m w with
    | (Return a, w') => Q a (app w')
    | (Throw e, w') => R e (app w')
    end.

(** [m] leaves the service, the sockets, the timers and the list of
    requests as they were. *)
Definition keeps_service {A} (m : M (App:=App) A) : Prop :=
  ∀ w,
    this (snd (m w)) = this w ∧ sockets (snd (m w)) = sockets w ∧
    timers (snd (m w)) = timers w ∧ sent (snd (m w)) = sent w.

(** [Math.random()] yields a number from 0 up to but not including 1. *)
Definition unit_interval : Prop :=
  ∀ n, (0 <= Math_random E n)%Q ∧ (Math_random E n < 1)%Q.

Definition fetch_op (ep : Endpoint) : M Value :=
  match ep with
  | Trending limit => getTrendingTracks (App:=App) E limit
  | Analytics => getAnalytics E
  end.

(** [m] leaves the service, the sockets, the timers, the application and
    the list of requests as they were: it touches nothing but the streams. *)
Definition reads_only {A} (m : M A) : Prop :=
  ∀ w,
    this (snd (m w)) = this w ∧ sockets (snd (m w)) = sockets w ∧
    timers (snd (m w)) = timers w ∧ app (snd (m w)) = app w ∧
    sent (snd (m w)) = sent w.

(** The world after one reading of the clock. *)
Definition tick w : World App := snd (now E w).

(** The world in which a fetch operation that found no fresh entry goes on. *)
Definition after_check (key : string) w : World App := snd (isCacheValid E key w).

(** The world in which the response to the request for [url] is handled. *)
Definition after_fetch (key url : string) w : World App :=
  snd (fetch E url (after_check key w)).

(** The application after the status callback, if there is one, was called
    with [connected]. *)
Definition notified cbs (connected : bool) (a : App) : App :=
  match onConnectionChange cbs with
  | Some f => f connected a
  | None => a
  end.

(** [this.ws] is the socket [id], made with the callbacks [cbs] and not yet
    closed. *)
Definition holds w (id : nat) cbs : Prop :=
  ws (this w) = Some id ∧
  ∃ s, sockets w !! id = Some s ∧ readyState s ≠ CLOSED ∧ handlers s = cbs.

(** [n] times in a row the connection drops and the reconnect runs. *)
Fixpoint failures (n : nat) w : option (World App) :=
  match n with
  | O => Some w
  | S n' => w' ← drop_and_retry E w; failures n' w'
  end.

(** No socket opens. *)
Definition no_open (ev : Event (App:=App)) : Prop :=
  match ev with SocketOpens _ => False | _ => True end.

(** A use of the request side of the service: one of its five methods,
    called and awaited; what it resolves to is dropped. *)
Inductive Call : Type :=
| Fetch (ep : Endpoint)
| Search (query : string) (limit : Z)
| Health
| Clear.

Definition perform (c : Call) w : World App :=
  match c with
  | Fetch ep => snd (fetch_op ep w)
  | Search query limit => snd (searchTracks E query limit w)
  | Health => snd (testConnection E w)
  | Clear => snd (clearCache w)
  end.

Definition perform_all (calls : list Call) w : World App :=
  foldl (fun w c => perform c w) w calls.

End Vocabulary.

Arguments reads_only App {A} m.

(** *** Example worlds *)

(** An environment with the given network and clock.  The random draws are
    all 0; the remaining built-ins are fixed in the simplest way and are
    reached by none of the runs below, whose track lists are empty. *)
Definition env_of (net : nat → Result Response) (clock : nat → Z) : Env :=
  {| Date_now := clock;
     Math_random := λ _, 0%Q;
     network := net;
     WebSocket_throws := None;
     parseInt := λ _, None;
     greater_than := λ _ _, false;
     toLowerCase := λ s, s;
     Number_toString := λ _, "0";
     toISOString := λ _, "1970-01-01T00:00:00.000Z";
     encodeURIComponent := Return |}.

(** Lower case for the letters A to Z. *)
Definition lower_ascii (c : ascii) : ascii :=
  let n := nat_of_ascii c in
  if (65 <=? n)%nat && (n <=? 90)%nat then ascii_of_nat (n + 32) else c.

Fixpoint lower_string (s : string) : string :=
  match s with
  | String c rest => String (lower_ascii c) (lower_string rest)
  | EmptyString => EmptyString
  end.

(** An environment for records whose numbers are integers and whose text
    is ASCII: on these [parseInt] is the number itself, [>] compares
    numbers and [toLowerCase] lowers the letters A to Z. *)
Definition integer_env (net : nat → Result Response) (clock : nat → Z) : Env :=
  {| Date_now := clock;
     Math_random := λ _, 0%Q;
     network := net;
     WebSocket_throws := None;
     parseInt := λ v, match v with
                      | VNum q => if (Qden q =? 1)%positive then Some (Qnum q) else None
                      | _ => None
                      end;
     greater_than := λ v z, match v with
                            | VNum q => match (inject_Z z ?= q)%Q with
                                        | Lt => true
                                        | _ => false
                                        end
                            | _ => false
                            end;
     toLowerCase := lower_string;
     Number_toString := λ _, "0";
     toISOString := λ _, "1970-01-01T00:00:00.000Z";
     encodeURIComponent := Return |}.

(** The world right after [new MusicAPIService()]. *)
Definition fresh_world {App : Type} (a : App) : World App :=
  mkWorld constructor [] [] a 0 0 [].

(** A backend that answers every request with the given status and body. *)
Definition always (code : Z) (body : Value) : nat → Result Response :=
  λ _, Return (mkResponse code (Return body)).

(** A clock that advances by [step] milliseconds at each reading. *)
Definition clock_by (step : Z) : nat → Z := λ n, step * Z.of_nat n.

(** One record as the backend sends it. *)
Definition sample_track : Value :=
  VObj [("id", VStr "t1");
        ("song", VStr "Kesariya Remix");
        ("primary_artists", VStr "Arijit Singh");
        ("album", VStr "Brahmastra");
        ("popularity", VInt 85);
        ("play_count", VInt 1000);
        ("duration", VInt 200);
        ("image", VStr "https://c.saavncdn.com/191/a-150x150.jpg");
        ("language", VStr "Hindi")].

Definition sample_env : Env :=
  integer_env (always 200 (VObj [("success", VBool true);
                                 ("tracks", VArr [sample_track])]))
              (λ _, 0).

(** An empty list served with status 200 and success true. *)
Definition empty_list_env : Env :=
  env_of (always 200 (VObj [("success", VBool true); ("tracks", VArr [])])) (clock_by 10).

(** A 200 answer to the analytics request without [content_distribution]. *)
Definition bare_analytics : Value :=
  VObj [("market_overview", VObj [("total_tracks_analyzed", VInt 3)])].

Definition bare_analytics_env : Env := env_of (always 200 bare_analytics) (clock_by 10).

(** A backend that answers 500 to everything. *)
Definition failing_env : Env := env_of (always 500 VNull) (clock_by 10).

(** A backend that answers 500 with a JSON error body. *)
Definition error_body_env : Env :=
  env_of (always 500 (VObj [("detail", VStr "Internal Server Error")])) (clock_by 10).

(** A backend that answers 200 and reports in the body that the search
    did not succeed. *)
Definition unsuccessful_search_env : Env :=
  env_of (always 200 (VObj [("success", VBool false);
                            ("error", VStr "JioSaavn API unavailable")]))
         (clock_by 10).

Definition live_env : Env := env_of (always 200 VNull) (clock_by 10).

(** One Dashboard mounted on a new service. *)
Definition mounted_world : World (list Dashboard.State) :=
  fresh_world [Dashboard.initial "2024-01-01T00:00:00.000Z"].

(** The same after [connectWebSocket] was called with the Dashboard's
    callbacks and the socket opened. *)
Definition connected_world : World (list Dashboard.State) :=
  mkWorld (mkService (Some 0%nat) true 0 ∅)
          [mkSocket OPEN (Dashboard.callbacks 0)] []
          [Dashboard.on_status true (Dashboard.initial "2024-01-01T00:00:00.000Z")]
          0 0 [].

(** The world after five failed reconnects: five closed sockets and the
    sixth connecting, the counter at 5. *)
Definition exhausted_world : World (list Dashboard.State) :=
  mkWorld (mkService (Some 5%nat) false 5 ∅)
          (replicate 5 (mkSocket CLOSED (Dashboard.callbacks 0))
             ++ [mkSocket CONNECTING (Dashboard.callbacks 0)])%list
          []
          [Dashboard.on_status false
             (Dashboard.on_status true (Dashboard.initial "2024-01-01T00:00:00.000Z"))]
          0 0 [].

(** A live message that carries two tracks. *)
Definition two_tracks_update : Value :=
  VObj [("type", VStr "trending_update");
        ("data", VArr [VObj [("id", VStr "a")]; VObj [("id", VStr "b")]])].

(** A change of section while the feed is connected: the first Dashboard
    connects and its socket opens; the section changes, so that the first
    Dashboard is unmounted (its cleanup calls [disconnectWebSocket]) and a
    second one is mounted; the socket closes, the reconnect that the close
    handler schedules runs with the callbacks of the first Dashboard, and
    the new socket opens; two seconds after its mounting the second
    Dashboard calls [connectWebSocket]; a live message arrives. *)
Definition section_change : list (Event (App:=list Dashboard.State)) :=
  [CallConnect (Dashboard.callbacks 0); SocketOpens 0;
   AppDoes (alter Dashboard.unmount 0%nat); CallDisconnect;
   AppDoes (Dashboard.mount "2024-01-01T00:00:05.000Z");
   SocketCloses 0; TimerFires 0; SocketOpens 1;
   CallConnect (Dashboard.callbacks 1);
   SocketMessage 1 (Return two_tracks_update)].

(** Two sockets and a backend that is down: [connectWebSocket] is called
    twice before the first socket has opened, so that the second call
    makes a second socket; both sockets close and both reconnects run,
    and so do the two sockets these make, and the two after them, up to
    the close of the last two.  No socket opens.  At the end the first of
    the last two reconnects has run and the second is pending. *)
Definition two_chains : list (Event (App:=list Dashboard.State)) :=
  [CallConnect (Dashboard.callbacks 0); CallConnect (Dashboard.callbacks 0);
   SocketCloses 0; SocketCloses 1; TimerFires 0; TimerFires 0;
   SocketCloses 2; SocketCloses 3; TimerFires 0; TimerFires 0;
   SocketCloses 4; SocketCloses 5; TimerFires 0].

(** A change of section while the feed is connected, as in
    [section_change], the second Dashboard calling [connectWebSocket]
    before the socket of the first has closed: that close schedules a
    reconnect, the socket of the second Dashboard opens, and then the
    reconnect runs. *)
Definition stale_reconnect : list (Event (App:=list Dashboard.State)) :=
  [CallConnect (Dashboard.callbacks 0); SocketOpens 0;
   AppDoes (alter Dashboard.unmount 0%nat); CallDisconnect;
   AppDoes (Dashboard.mount "2024-01-01T00:00:05.000Z");
   CallConnect (Dashboard.callbacks 1);
   SocketCloses 0; SocketOpens 1; TimerFires 0].

Arguments after {App} m w /.
Arguments call {App A} cb a w /.
Arguments setTimeout {App} cbs ms w /.

(** ** Properties *)

(** *** Values *)

Lemma lookup_set_prop_eq k v props : lookup_prop k (set_prop k v props) = v.
Proof.
  induction props as [|[k' v'] rest IH]; simpl.
  - by rewrite String.eqb_refl.
  - destruct (String.eqb k k') eqn:Hk; simpl; rewrite Hk; [done | exact IH].
Qed.

Lemma lookup_set_prop_ne k k' v props :
  k ≠ k' → lookup_prop k (set_prop k' v props) = lookup_prop k props.
Proof.
  intros Hne. induction props as [|[k0 v0] rest IH]; simpl.
  - destruct (String.eqb k k') eqn:Hk; [|done].
    by apply String.eqb_eq in Hk.
  - destruct (String.eqb k' k0) eqn:Hk0; simpl.
    + apply String.eqb_eq in Hk0 as <-.
      destruct (String.eqb k k') eqn:Hk; [|done].
      by apply String.eqb_eq in Hk.
    + by rewrite IH.
Qed.

(** *** Computations that touch nothing but the streams *)

Section Frame.
Context {App : Type} (E : Env).

Lemma reads_only_ret {A} (a : A) : reads_only App (ret a).
Proof. by intros w. Qed.

Lemma reads_only_throw {A} e : reads_only App (@throw App A e).
Proof. by intros w. Qed.

Lemma reads_only_lift {A} (r : Result A) : reads_only App (lift r).
Proof. by intros w. Qed.

Lemma reads_only_bind {A B} (m : M A) (k : A → M B) :
  reads_only App m → (∀ a, reads_only App (k a)) →
  reads_only App (bind m k).
Proof.
  intros Hm Hk w. specialize (Hm w). simpl.
  destruct (m w) as [[a|e] w1]; simpl in *.
  - specialize (Hk a w1). intuition congruence.
  - done.
Qed.

Lemma reads_only_now : reads_only App (now E).
Proof. by intros w. Qed.

Lemma reads_only_random : reads_only App (random E).
Proof. by intros w. Qed.

Lemma reads_only_if {A} (b : bool) (m1 m2 : M A) :
  reads_only App m1 → reads_only App m2 →
  reads_only App (if b then m1 else m2).
Proof. by destruct b. Qed.

Lemma reads_only_map_M {A B} (f : A → M B) (items : list A) :
  (∀ a, reads_only App (f a)) → reads_only App (map_M f items).
Proof.
  intros Hf. induction items as [|x rest IH]; simpl.
  - apply reads_only_ret.
  - apply reads_only_bind; [done | intros y].
    apply reads_only_bind; [done | intros ys]. apply reads_only_ret.
Qed.

End Frame.

Create HintDb frame.
#[global] Hint Resolve reads_only_ret reads_only_throw reads_only_lift
  reads_only_now reads_only_random reads_only_map_M : frame.
#[global] Hint Extern 2 (reads_only _ (bind _ _)) =>
  apply reads_only_bind; [| intros ?] : frame.
#[global] Hint Extern 2 (reads_only _ (if _ then _ else _)) =>
  apply reads_only_if : frame.
#[global] Hint Extern 3 (reads_only _ (match ?x with _ => _ end)) =>
  destruct x : frame.

Section FrameMethods.
Context {App : Type} (E : Env).

Lemma reads_only_random_below n : reads_only App (random_below E n).
Proof. unfold random_below. auto with frame. Qed.

Lemma reads_only_or_else n alt :
  reads_only App alt → reads_only App (or_else n alt).
Proof. intros. unfold or_else. auto with frame. Qed.

Lemma reads_only_determineGenre track : reads_only App (determineGenre E track).
Proof. unfold determineGenre. auto 20 with frame. Qed.

Lemma reads_only_enhanceTrackData track : reads_only App (enhanceTrackData E track).
Proof.
  pose proof reads_only_random_below. pose proof reads_only_or_else.
  pose proof reads_only_determineGenre.
  unfold enhanceTrackData. auto 30 with frame.
Qed.

Lemma reads_only_fallbackTrack i : reads_only App (fallbackTrack E i).
Proof.
  pose proof reads_only_random_below. unfold fallbackTrack. auto 10 with frame.
Qed.

Lemma reads_only_getFallbackTrendingData limit :
  reads_only App (getFallbackTrendingData E limit).
Proof.
  pose proof reads_only_fallbackTrack.
  unfold getFallbackTrendingData, Array_from_length. auto 10 with frame.
Qed.

End FrameMethods.

(** *** The cache *)

Section Cache.
Context {App : Type} (E : Env).
Implicit Types (w : World App) (ep : Endpoint).

Lemma isCacheValid_eq key w :
  isCacheValid E key w =
  match cache (this w) !! key with
  | Some e =>
      (Return (bool_decide (Date_now E (ticks w) - timestamp e < cacheTimeout)), tick E w)
  | None => (Return false, w)
  end.
Proof. unfold isCacheValid, cache_get. simpl. by destruct (cache (this w) !! key). Qed.

Lemma after_check_frame key w :
  this (after_check E key w) = this w ∧ sent (after_check E key w) = sent w.
Proof.
  unfold after_check. rewrite isCacheValid_eq.
  by destruct (cache (this w) !! key).
Qed.

Lemma fetch_op_hit ep w e :
  cache (this w) !! request_key ep = Some e →
  Date_now E (ticks w) - timestamp e < cacheTimeout →
  fetch_op E ep w = (Return (data e), tick E w).
Proof.
  intros He Hfresh.
  destruct ep; simpl; unfold getTrendingTracks, getAnalytics; simpl;
    rewrite isCacheValid_eq; simpl in He; rewrite He;
    rewrite bool_decide_eq_true_2 by done;
    unfold cache_get; simpl; by rewrite He.
Qed.

End Cache.

Lemma reads_only_run {App A} (m : M A) (w : World App) r w' :
  reads_only App m → m w = (r, w') → this w' = this w ∧ sent w' = sent w.
Proof.
  intros Hm Hrun. specialize (Hm w). rewrite Hrun in Hm. simpl in Hm. tauto.
Qed.

(** Case analysis along a method body: the calls that only read the
    streams are replaced by their outcome, the branches are split from the
    inside out. *)
Ltac split_run :=
  repeat (simpl in *;
    match goal with
    | |- context [map_M ?f ?l ?w] =>
        let H := fresh "Hmap" in
        destruct (map_M f l w) as [[?|?] ?] eqn:H;
        (apply (reads_only_run (map_M f l) w) in H;
         [destruct H | by apply reads_only_map_M, reads_only_enhanceTrackData])
    | |- context [getFallbackTrendingData ?E ?l ?w] =>
        let H := fresh "Hfb" in
        destruct (getFallbackTrendingData E l w) as [? ?] eqn:H;
        (apply (reads_only_run (getFallbackTrendingData E l) w) in H;
         [destruct H | by apply reads_only_getFallbackTrendingData])
    | |- context [match ?x with _ => _ end] =>
        lazymatch x with
        | context [match _ with _ => _ end] => fail
        | _ => destruct x eqn:?
        end
    end).

Section CacheMiss.
Context {App : Type} (E : Env).
Implicit Types (w : World App) (ep : Endpoint).

(** Without a fresh entry the request goes out, whatever comes back. *)
Lemma fetch_op_miss_sends ep w :
  fst (isCacheValid E (request_key ep) w) = Return false →
  sent (snd (fetch_op E ep w)) = (sent w ++ [request_url ep])%list.
Proof.
  intros Hmiss.
  pose proof (after_check_frame E (request_key ep) w) as [_ Hsent].
  unfold after_check in Hsent.
  destruct ep as [limit|]; simpl in *; unfold getTrendingTracks, getAnalytics; simpl;
    destruct (isCacheValid E _ w) as [r w0]; simpl in *; subst r;
    unfold fetch; split_run; simpl in *; congruence.
Qed.

(** A call changes the entry of its key only by storing the very payload
    it returns. *)
Lemma fetch_op_stores ep w r w1 :
  fetch_op E ep w = (Return r, w1) →
  cache (this w1) !! request_key ep ≠ cache (this w) !! request_key ep →
  ∃ stored, cache (this w1) = <[request_key ep := mkEntry r stored]> (cache (this w)).
Proof.
  intros Hrun Hchanged.
  pose proof (after_check_frame E (request_key ep) w) as [Hthis _].
  unfold after_check in Hthis.
  destruct ep as [limit|]; simpl in *; unfold getTrendingTracks, getAnalytics in Hrun;
    simpl in Hrun; destruct (isCacheValid E _ w) as [v w0]; simpl in *;
    revert Hrun; unfold fetch, cache_get; split_run; intros ?; simplify_eq/=;
    try (exfalso; apply Hchanged; congruence);
    eexists; repeat (match goal with H : this _ = _ |- _ => rewrite H end);
    reflexivity.
Qed.

End CacheMiss.


(** *** Validation of the responses *)

Section Validation.
Context {App : Type} (E : Env).
Implicit Types (w : World App).

Lemma getTrendingTracks_miss limit w :
  fst (isCacheValid E ("trending_" +:+ pretty limit) w) = Return false →
  getTrendingTracks E limit w =
  try_catch
    (let* response := lift (network E (length (sent w))) in
     if negb (ok response)
     then throw (mkExn "Error"
                   ("API responded with status: " +:+ pretty (status response)))
     else
       let* data := lift (json response) in
       let* success := lift (get data "success") in
       if negb (truthy success) || negb (truthy (own data "tracks"))
          || negb (isArray (own data "tracks"))
       then throw (mkExn "Error" "Invalid trending data format")
       else
         let* enhancedTracks :=
           (match own data "tracks" with
            | VArr items => map_M (enhanceTrackData E) items
            | _ => throw (mkExn "TypeError" "data.tracks.map is not a function")
            end) in
         let* t := now E in
         let result :=
           VObj (set_prop "source" (VStr "api")
                  (set_prop "timestamp" (VInt t)
                    (set_prop "tracks" (VArr enhancedTracks) (spread data)))) in
         let* stored := now E in
         cache_set ("trending_" +:+ pretty limit) {| data := result; timestamp := stored |} ;;
         ret result)
    (fun error => getFallbackTrendingData E limit)
    (after_fetch E ("trending_" +:+ pretty limit)
                 (baseURL +:+ "/trending?limit=" +:+ pretty limit) w).
Proof.
  intros Hmiss.
  pose proof (after_check_frame E ("trending_" +:+ pretty limit) w) as [_ Hsent].
  unfold getTrendingTracks, after_fetch, after_check in *. simpl.
  destruct (isCacheValid E _ w) as [v w0]. simpl in *. subst v.
  unfold fetch. simpl. rewrite Hsent. reflexivity.
Qed.

Lemma getAnalytics_miss w :
  fst (isCacheValid E "analytics" w) = Return false →
  getAnalytics E w =
  try_catch
    (let* response := lift (network E (length (sent w))) in
     if negb (ok response)
     then throw (mkExn "Error" ("Analytics API error: " +:+ pretty (status response)))
     else
       let* data := lift (json response) in
       let* stored := now E in
       cache_set "analytics" {| data := data; timestamp := stored |} ;;
       ret data)
    (fun error => ret getFallbackAnalytics)
    (after_fetch E "analytics" (baseURL +:+ "/analytics") w).
Proof.
  intros Hmiss.
  pose proof (after_check_frame E "analytics" w) as [_ Hsent].
  unfold getAnalytics, after_fetch, after_check in *. simpl.
  destruct (isCacheValid E _ w) as [v w0]. simpl in *. subst v.
  unfold fetch. simpl. rewrite Hsent. reflexivity.
Qed.

(** C2, as the code has it.  [getTrendingTracks] checks the shape of a 2xx
    body, not that the list has elements.  On a request that finds no fresh
    cache entry and is answered 2xx with a JSON body: a body whose [success]
    is falsy or whose [tracks] is not an array gives the fallback data; a
    body with [success] true and [tracks] the empty array is accepted: the
    call returns that body with [tracks: []], a [timestamp] and
    [source: 'api'], and stores exactly that payload in the cache. *)
Theorem getTrendingTracks_checks_shape_only limit w resp body :
  fst (isCacheValid E ("trending_" +:+ pretty limit) w) = Return false →
  network E (length (sent w)) = Return resp →
  ok resp = true →
  json resp = Return body →
  let key := "trending_" +:+ pretty limit in
  let w' := after_fetch E key (baseURL +:+ "/trending?limit=" +:+ pretty limit) w in
  (truthy (own body "success") = false ∨ isArray (own body "tracks") = false →
     getTrendingTracks E limit w = getFallbackTrendingData E limit w') ∧
  (own body "success" = VBool true → own body "tracks" = VArr [] →
     ∃ result,
       fst (getTrendingTracks E limit w) = Return result ∧
       own result "tracks" = VArr [] ∧
       own result "source" = VStr "api" ∧
       own result "timestamp" = VInt (Date_now E (ticks w')) ∧
       cache (this (snd (getTrendingTracks E limit w))) !! key
         = Some (mkEntry result (Date_now E (S (ticks w'))))).
Proof.
  intros Hmiss Hnet Hok Hjson key w'. subst key w'.
  rewrite getTrendingTracks_miss by exact Hmiss.
  set (w' := after_fetch E _ _ w). simpl.
  rewrite Hnet, Hok, Hjson. simpl. split.
  - intros Hbad. destruct body; simpl in *; try reflexivity.
    destruct Hbad as [Hbad|Hbad]; rewrite Hbad; simpl; [reflexivity|].
    by rewrite !orb_true_r.
  - intros Hsuccess Htracks. destruct body; simpl in *; try discriminate.
    rewrite Hsuccess, Htracks. simpl.
    eexists. split; [reflexivity|]. simpl.
    rewrite lookup_insert_eq.
    rewrite lookup_set_prop_ne, lookup_set_prop_ne, !lookup_set_prop_eq by done.
    rewrite lookup_set_prop_ne, lookup_set_prop_eq by done.
    done.
Qed.

(** C3, as the code has it.  [getAnalytics] does not look into a 2xx body
    at all: on a request that finds no fresh cache entry and is answered 2xx
    with any JSON body, with or without [content_distribution], the call
    returns that body and stores it in the cache. *)
Theorem getAnalytics_returns_any_body w resp body :
  fst (isCacheValid E "analytics" w) = Return false →
  network E (length (sent w)) = Return resp →
  ok resp = true →
  json resp = Return body →
  let w' := after_fetch E "analytics" (baseURL +:+ "/analytics") w in
  fst (getAnalytics E w) = Return body ∧
  cache (this (snd (getAnalytics E w))) !! "analytics"
    = Some (mkEntry body (Date_now E (ticks w'))).
Proof.
  intros Hmiss Hnet Hok Hjson w'. subst w'.
  rewrite getAnalytics_miss by exact Hmiss. simpl.
  rewrite Hnet, Hok, Hjson. simpl. by rewrite lookup_insert_eq.
Qed.

End Validation.

(** The ordinary path: one record served, normalised and returned. *)
Example one_track_normalised :
  fst (getTrendingTracks sample_env 1 (fresh_world tt)) =
  Return (VObj [
    ("success", VBool true);
    ("tracks", VArr [VObj [
       ("track_id", VStr "t1");
       ("track_name", VStr "Kesariya Remix");
       ("artist", VStr "Arijit Singh");
       ("album", VStr "Brahmastra");
       ("popularity", VInt 85);
       ("play_count", VInt 1000);
       ("duration_ms", VInt 200000);
       ("image_url", VStr "https://c.saavncdn.com/191/a-500x500.jpg");
       ("preview_url", VNull);
       ("language", VStr "Hindi");
       ("genre", VStr "remix");
       ("explicit", VBool false);
       ("release_date", VStr "2024");
       ("label", VStr "Independent");
       ("is_trending", VBool true);
       ("growth_rate", VStr "+0%");
       ("listeners", VInt 10000);
       ("fetched_at", VStr "1970-01-01T00:00:00.000Z");
       ("source", VStr "jiosaavn_api")]]);
    ("timestamp", VInt 0);
    ("source", VStr "api")]).
Proof. vm_compute. reflexivity. Qed.

Lemma getTrendingTracks_checks_shape_only_witness :
  ∃ result,
    fst (getTrendingTracks empty_list_env 25 (fresh_world tt)) = Return result ∧
    own result "tracks" = VArr [] ∧
    own result "source" = VStr "api".
Proof.
  destruct (getTrendingTracks_checks_shape_only empty_list_env 25 (fresh_world tt)
              (mkResponse 200 (Return (VObj [("success", VBool true); ("tracks", VArr [])])))
              (VObj [("success", VBool true); ("tracks", VArr [])]))
    as [_ Hempty]; try reflexivity.
  destruct Hempty as (result & Hres & Htracks & Hsource & _); try reflexivity.
  exists result. auto.
Defined.

(** C2 fails as stated: the empty list is returned and cached, and it is
    not what the fallback generator gives. *)
Lemma empty_track_list_is_returned_and_cached :
  let result := VObj [("success", VBool true); ("tracks", VArr []);
                      ("timestamp", VInt 0); ("source", VStr "api")] in
  let out := getTrendingTracks empty_list_env 25 (fresh_world tt) in
  fst out = Return result ∧
  cache (this (snd out)) !! "trending_25" = Some (mkEntry result 10) ∧
  fst out ≠ fst (getFallbackTrendingData empty_list_env 25 (snd out)).
Proof.
  intros result out. split; [|split].
  - vm_compute. reflexivity.
  - vm_compute. reflexivity.
  - vm_compute. discriminate.
Qed.

(** The check on the length is made one level up: [loadDashboardData]
    does not keep this payload. *)
Remark dashboard_discards_empty_list :
  Dashboard.keeps_trending
    (VObj [("success", VBool true); ("tracks", VArr []);
           ("timestamp", VInt 0); ("source", VStr "api")]) = false.
Proof. reflexivity. Qed.

Lemma getAnalytics_returns_any_body_witness :
  fst (getAnalytics bare_analytics_env (fresh_world tt)) = Return bare_analytics ∧
  cache (this (snd (getAnalytics bare_analytics_env (fresh_world tt)))) !! "analytics"
    = Some (mkEntry bare_analytics 0).
Proof.
  apply (getAnalytics_returns_any_body bare_analytics_env (fresh_world tt)
           (mkResponse 200 (Return bare_analytics)) bare_analytics);
    reflexivity.
Defined.

(** C3 fails as stated: the body without [content_distribution] is what
    the call returns and caches, not the fallback analytics. *)
Lemma analytics_without_distribution_is_returned :
  let out := getAnalytics bare_analytics_env (fresh_world tt) in
  own bare_analytics "content_distribution" = VUndefined ∧
  fst out = Return bare_analytics ∧
  cache (this (snd out)) !! "analytics" = Some (mkEntry bare_analytics 0) ∧
  fst out ≠ Return getFallbackAnalytics.
Proof.
  intros out. split; [|split; [|split]].
  - reflexivity.
  - vm_compute. reflexivity.
  - vm_compute. reflexivity.
  - vm_compute. discriminate.
Qed.

(** Here too the check is made by [loadDashboardData]. *)
Remark dashboard_discards_bare_analytics :
  Dashboard.keeps_analytics bare_analytics = false.
Proof. reflexivity. Qed.

(** *** The fallback list *)

Section Fallback.
Context {App : Type} (E : Env).
Implicit Types (w : World App).

(** A function that always returns, mapped over a list, returns a list
    of the same length. *)
Lemma map_M_returns {A B} (f : A → M B) (P : B → Prop) (items : list A) w :
  (∀ a w, ∃ b w', f a w = (Return b, w') ∧ P b) →
  ∃ bs w', map_M f items w = (Return bs, w') ∧
           length bs = length items ∧ Forall P bs.
Proof.
  intros Hf. revert w. induction items as [|x rest IH]; intros w; simpl.
  - exists [], w. auto.
  - destruct (Hf x w) as (b & w1 & -> & Hb).
    destruct (IH w1) as (bs & w2 & -> & Hlen & Hall).
    exists (b :: bs), w2. simpl. auto.
Qed.

Lemma fallbackTrack_returns i w :
  ∃ t w', fallbackTrack E i w = (Return t, w') ∧ own t "source" = VStr "fallback".
Proof. eexists _, _. split; reflexivity. Qed.

Lemma getFallbackTrendingData_returns limit w :
  0 ≤ limit ≤ 2 ^ 32 - 1 →
  ∃ tracks metadata,
    fst (getFallbackTrendingData E limit w)
      = Return (VObj [("success", VBool true); ("tracks", VArr tracks);
                      ("metadata", metadata)]) ∧
    Z.of_nat (length tracks) = limit ∧
    Forall (λ t, own t "source" = VStr "fallback") tracks.
Proof.
  intros Hlimit. unfold getFallbackTrendingData, Array_from_length.
  assert (ToLength limit = limit) as -> by (unfold ToLength; lia).
  destruct (Z.ltb_spec (2 ^ 32 - 1) limit) as [?|_]; [lia|].
  simpl.
  destruct (map_M_returns (fallbackTrack E) (λ t, own t "source" = VStr "fallback")
              (seq 0 (Z.to_nat limit)) w (fallbackTrack_returns))
    as (tracks & w' & -> & Hlen & Hall).
  simpl. eexists _, _. split; [reflexivity|]. split; [|exact Hall].
  rewrite Hlen, length_seq. lia.
Qed.

(** C6, as the code has it.  For every integer [limit] from 0 to 2^32 - 1:
    when a call finds no fresh cache entry and the trending endpoint answers
    with a status outside 200..299 (500, say), [getTrendingTracks(limit)]
    returns, without throwing, the fallback payload, whose [tracks] array
    has exactly [limit] elements, each with [source] equal to ["fallback"]. *)
Theorem fallback_on_error_status limit w resp :
  0 ≤ limit ≤ 2 ^ 32 - 1 →
  fst (isCacheValid E ("trending_" +:+ pretty limit) w) = Return false →
  network E (length (sent w)) = Return resp →
  ok resp = false →
  ∃ tracks metadata,
    fst (getTrendingTracks E limit w)
      = Return (VObj [("success", VBool true); ("tracks", VArr tracks);
                      ("metadata", metadata)]) ∧
    Z.of_nat (length tracks) = limit ∧
    Forall (λ t, own t "source" = VStr "fallback") tracks.
Proof.
  intros Hlimit Hmiss Hnet Hok.
  rewrite getTrendingTracks_miss by exact Hmiss. simpl.
  rewrite Hnet, Hok. simpl.
  by apply getFallbackTrendingData_returns.
Qed.

End Fallback.

Lemma fallback_on_error_status_witness :
  ∃ tracks metadata,
    fst (getTrendingTracks failing_env 3 (fresh_world tt))
      = Return (VObj [("success", VBool true); ("tracks", VArr tracks);
                      ("metadata", metadata)]) ∧
    Z.of_nat (length tracks) = 3 ∧
    Forall (λ t, own t "source" = VStr "fallback") tracks.
Proof.
  apply (fallback_on_error_status failing_env 3 (fresh_world tt) (mkResponse 500 (Return VNull)));
    [lia | reflexivity | reflexivity | reflexivity].
Defined.

(** C6 fails as stated at both ends: for a negative limit the list is
    empty, so that its length 0 is not the limit; for a limit of 2^32 the
    fallback generator itself throws, and the exception reaches the
    caller. *)
Lemma fallback_outside_the_array_lengths :
  (∃ metadata,
     fst (getTrendingTracks failing_env (-1) (fresh_world tt))
       = Return (VObj [("success", VBool true); ("tracks", VArr []);
                       ("metadata", metadata)]) ∧
     Z.of_nat (length (@nil Value)) ≠ -1) ∧
  fst (getTrendingTracks failing_env (2 ^ 32) (fresh_world tt))
    = Throw (mkExn "RangeError" "Invalid array length").
Proof.
  split.
  - eexists. split; [vm_compute; reflexivity | discriminate].
  - vm_compute. reflexivity.
Qed.

(** *** Search *)

Section Search.
Context {App : Type} (E : Env).
Implicit Types (w : World App).

Lemma try_catch_returns {A} (body : M A) (handler : Exn → M A) w :
  (∀ e w', ∃ a, fst (handler e w') = Return a) →
  ∃ a, fst (try_catch body handler w) = Return a.
Proof.
  intros Hh. simpl. destruct (body w) as [[a|e] w']; simpl; eauto.
Qed.

(** C9, as the code has it.  For every query string whose trimmed length
    is under 2, [searchTracks] returns [{tracks: [], total: 0}] and leaves
    the world as it was: no request is sent.  For every query string the
    call returns and never throws, and what it returns is one of: that
    empty result; the empty result with the query; the empty result with
    the message of an exception as [error]; a list of tracks with a total
    and the query.  When the request is sent, an exception
    (from [encodeURIComponent], from the network, from the parsing of the
    body, from the read of [success] on a [null] body) gives
    [{tracks: [], total: 0, error: message}]; a body that parses to a value
    without a truthy [success] and [tracks] gives, whatever the status code,
    [{tracks: [], total: 0, query}], which has no [error] field. *)
Theorem searchTracks_results query limit w :
  ((String.length (trim query) < 2)%nat →
     searchTracks E query limit w = (Return empty_result, w)) ∧
  (∃ v, fst (searchTracks E query limit w) = Return v ∧
        (v = empty_result ∨ v = empty_result_for query ∨
         (∃ e, v = error_result e) ∨
         (∃ tracks total,
            v = VObj [("tracks", VArr tracks); ("total", total);
                      ("query", VStr query)]))) ∧
  ((2 ≤ String.length (trim query))%nat →
     (∀ e, encodeURIComponent E query = Throw e →
        fst (searchTracks E query limit w) = Return (error_result e)) ∧
     (∀ encoded, encodeURIComponent E query = Return encoded →
        sent (snd (searchTracks E query limit w))
          = (sent w ++ [baseURL +:+ "/search?query=" +:+ encoded
                          +:+ "&limit=" +:+ pretty limit])%list ∧
        (∀ e, network E (length (sent w)) = Throw e →
           fst (searchTracks E query limit w) = Return (error_result e)) ∧
        (∀ resp, network E (length (sent w)) = Return resp →
           (∀ e, json resp = Throw e →
              fst (searchTracks E query limit w) = Return (error_result e)) ∧
           (∀ body, json resp = Return body →
              (∀ e, get body "success" = Throw e →
                 fst (searchTracks E query limit w) = Return (error_result e)) ∧
              (∀ success, get body "success" = Return success →
                 truthy success && truthy (own body "tracks") = false →
                 fst (searchTracks E query limit w)
                   = Return (empty_result_for query) ∧
                 own (empty_result_for query) "error" = VUndefined))))).
Proof.
  split; [|split].
  - intros Hshort. unfold searchTracks.
    destruct (Nat.ltb_spec (String.length (trim query)) 2) as [_|?]; [|lia].
    by rewrite orb_true_r.
  - unfold searchTracks.
    destruct (negb _ || _); [eexists; split; [reflexivity | by left]|].
    unfold fetch. split_run; eexists; (split; [reflexivity|]); eauto 10.
  - intros Hlong. unfold searchTracks.
    destruct (Nat.ltb_spec (String.length (trim query)) 2) as [?|_]; [lia|].
    assert (truthy (VStr query) = true) as ->.
    { destruct query; [simpl in Hlong; lia | reflexivity]. }
    simpl. split.
    + intros e ->. reflexivity.
    + intros encoded ->. simpl. split.
      { unfold fetch. split_run; simpl in *; congruence. }
      split.
      * intros e ->. reflexivity.
      * intros resp ->. simpl. split.
        { intros e ->. reflexivity. }
        intros body ->. simpl. split.
        { intros e ->. reflexivity. }
        intros success -> Hfalsy. rewrite Hfalsy. done.
Qed.

End Search.

(** C9 fails as stated: when the backend reports the failure of the search
    in its body, and also when it answers 500 with a JSON body, the empty
    result names the query and carries no [error] field. *)
Lemma search_failure_without_error_field :
  fst (searchTracks unsuccessful_search_env "ab" 20 (fresh_world tt))
    = Return (VObj [("tracks", VArr []); ("total", VInt 0); ("query", VStr "ab")]) ∧
  fst (searchTracks error_body_env "ab" 20 (fresh_world tt))
    = Return (VObj [("tracks", VArr []); ("total", VInt 0); ("query", VStr "ab")]) ∧
  sent (snd (searchTracks error_body_env "ab" 20 (fresh_world tt)))
    = ["http://localhost:8000/search?query=ab&limit=20"] ∧
  own (VObj [("tracks", VArr []); ("total", VInt 0); ("query", VStr "ab")]) "error"
    = VUndefined.
Proof.
  split; [|split; [|split]]; vm_compute; reflexivity.
Qed.

(** [searchTracks("a")]. *)
Example search_one_letter (E : Env) (w : World unit) :
  searchTracks E "a" 20 w = (Return empty_result, w).
Proof. reflexivity. Qed.

(** *** The live connection *)

Section Live.
Context {App : Type} (E : Env).
Implicit Types (w : World App) (cbs : Callbacks App).

Lemma ws_onclose_eq cbs w :
  snd (ws_onclose cbs w) =
  mkWorld (set_wsConnected false (this w)) (sockets w)
    (if bool_decide (reconnectAttempts (this w) < maxReconnectAttempts)
     then timers w ++ [mkTimer (3000 * reconnectAttempts (this w)) cbs]
     else timers w)
    (notified cbs false (app w)) (ticks w) (draws w) (sent w).
Proof.
  unfold ws_onclose, notified. simpl.
  destruct (onConnectionChange cbs); simpl; case_bool_decide; reflexivity.
Qed.

Lemma ws_onopen_eq cbs w :
  snd (ws_onopen cbs w) =
  mkWorld (mkService (ws (this w)) true 0 (cache (this w))) (sockets w) (timers w)
    (notified cbs true (app w)) (ticks w) (draws w) (sent w).
Proof. unfold ws_onopen, notified. simpl. by destruct (onConnectionChange cbs). Qed.

Lemma connectWebSocket_eq cbs w :
  snd (connectWebSocket E cbs w) =
  if ws_is_open w then w
  else match WebSocket_throws E with
       | Some _ => w
       | None =>
           mkWorld (set_ws (Some (length (sockets w))) (this w))
             (sockets w ++ [mkSocket CONNECTING cbs])
             (timers w) (app w) (ticks w) (draws w) (sent w)
       end.
Proof.
  unfold connectWebSocket, new_WebSocket.
  destruct (ws_is_open w); [done|]. simpl.
  destruct (WebSocket_throws E); reflexivity.
Qed.

(** One round: the held socket closes, the close schedules a reconnect
    because the counter is under the cap, the reconnect runs and leaves a
    new connecting socket in [this.ws] and the counter one higher. *)
Lemma drop_and_retry_round w id cbs :
  WebSocket_throws E = None →
  holds w id cbs →
  reconnectAttempts (this w) < maxReconnectAttempts →
  ∃ w',
    drop_and_retry E w = Some w' ∧
    holds w' (length (sockets w)) cbs ∧
    reconnectAttempts (this w') = reconnectAttempts (this w) + 1 ∧
    timers w' = timers w ∧
    app w' = notified cbs false (app w).
Proof.
  intros Hctor (Hws & s & Hs & Hstate & Hcbs) Hbudget.
  unfold drop_and_retry. rewrite Hws. simpl. rewrite Hs. simpl.
  rewrite bool_decide_eq_false_2 by exact Hstate.
  rewrite ws_onclose_eq. simpl.
  rewrite bool_decide_eq_true_2 by exact Hbudget.
  rewrite lookup_app_r by done. rewrite Nat.sub_diag. simpl.
  eexists. split; [reflexivity|].
  unfold reconnect. simpl. rewrite connectWebSocket_eq.
  unfold ws_is_open, with_this, with_timers. simpl.
  rewrite (delete_middle (timers w) []), app_nil_r.
  rewrite Hws, list_lookup_alter_eq, Hs. simpl.
  rewrite Hctor, Hcbs. simpl. rewrite length_alter.
  split; [|done]. split; [done|].
  exists (mkSocket CONNECTING cbs). simpl.
  rewrite lookup_app_r by (rewrite length_alter; lia).
  rewrite length_alter, Nat.sub_diag. done.
Qed.

Lemma failures_count n w id cbs :
  WebSocket_throws E = None →
  holds w id cbs →
  reconnectAttempts (this w) + Z.of_nat n ≤ maxReconnectAttempts →
  ∃ w' id',
    failures E n w = Some w' ∧
    holds w' id' cbs ∧
    reconnectAttempts (this w') = reconnectAttempts (this w) + Z.of_nat n ∧
    timers w' = timers w.
Proof.
  intros Hctor. revert w id. induction n as [|n IH]; intros w id Hholds Hbudget.
  - exists w, id. simpl. rewrite Z.add_0_r. auto.
  - destruct (drop_and_retry_round w id cbs Hctor Hholds) as (w1 & Hround & Hholds1 & Hcount & Htimers & _);
      [lia|].
    destruct (IH w1 _ Hholds1) as (w' & id' & Hrest & Hholds' & Hcount' & Htimers'); [lia|].
    exists w', id'. simpl. rewrite Hround. simpl. rewrite Hrest.
    split; [done|]. split; [exact Hholds'|]. split; [lia | congruence].
Qed.

Lemma failures_add n m w :
  failures E (n + m) w = failures E n w ≫= failures E m.
Proof.
  revert w. induction n as [|n IH]; intros w; simpl; [done|].
  destruct (drop_and_retry E w) as [w1|]; simpl; [apply IH | done].
Qed.

End Live.

Section Reconnect.
Context {App : Type} (E : Env).
Implicit Types (w : World App) (cbs : Callbacks App).

Lemma ws_onmessage_frame cbs parsed w :
  this (snd (ws_onmessage cbs parsed w)) = this w ∧
  timers (snd (ws_onmessage cbs parsed w)) = timers w.
Proof.
  unfold ws_onmessage. simpl.
  destruct parsed as [data|e]; simpl; [|done].
  destruct (get data "type"); simpl; [|done].
  by destruct (onMessage cbs).
Qed.

(** A step that is not the opening of a socket, taken with the counter at
    the cap or above, leaves the counter there and adds no timer. *)
Lemma step_exhausted ev w w' :
  no_open ev →
  maxReconnectAttempts ≤ reconnectAttempts (this w) →
  step E ev w = Some w' →
  maxReconnectAttempts ≤ reconnectAttempts (this w') ∧
  timers w' `sublist_of` timers w.
Proof.
  intros Hev Hcap Hstep. destruct ev as [id|id parsed|id|id|k|cbs| |f]; simpl in Hstep.
  - destruct Hev.
  - destruct (sockets w !! id) as [s|]; simpl in Hstep; [|done].
    case_bool_decide; [|done]. injection Hstep as <-.
    destruct (ws_onmessage_frame (handlers s) parsed w) as [-> ->]. done.
  - destruct (sockets w !! id) as [s|]; simpl in Hstep; [|done].
    case_bool_decide; [done|]. injection Hstep as <-. done.
  - destruct (sockets w !! id) as [s|]; simpl in Hstep; [|done].
    case_bool_decide; [done|]. injection Hstep as <-.
    rewrite ws_onclose_eq. simpl.
    rewrite bool_decide_eq_false_2 by lia. done.
  - destruct (timers w !! k) as [t|]; simpl in Hstep; [|done].
    injection Hstep as <-. unfold reconnect. simpl.
    rewrite connectWebSocket_eq.
    destruct (ws_is_open _); [|destruct (WebSocket_throws E)]; simpl;
      (split; [lia | apply sublist_delete]).
  - injection Hstep as <-. rewrite connectWebSocket_eq.
    destruct (ws_is_open _); [|destruct (WebSocket_throws E)]; done.
  - injection Hstep as <-. unfold disconnectWebSocket.
    destruct (ws (this w)); done.
  - injection Hstep as <-. done.
Qed.

Lemma run_exhausted evs w w' :
  Forall no_open evs →
  maxReconnectAttempts ≤ reconnectAttempts (this w) →
  run E evs w = Some w' →
  maxReconnectAttempts ≤ reconnectAttempts (this w') ∧
  timers w' `sublist_of` timers w.
Proof.
  intros Hevs. revert w. induction Hevs as [|ev evs Hev _ IH]; intros w Hcap Hrun.
  - injection Hrun as <-. done.
  - simpl in Hrun. destruct (step E ev w) as [w1|] eqn:Hstep; [|done].
    simpl in Hrun.
    destruct (step_exhausted ev w w1 Hev Hcap Hstep) as [Hcap1 Hsub1].
    destruct (IH w1 Hcap1 Hrun) as [Hcap' Hsub'].
    split; [done|]. by etrans.
Qed.

(** C4, as the code has it.  The delay is the counter times 3 seconds, and
    the counter is raised only when the reconnect runs: for every [n] from
    1 to 5, when the connection drops for the [n]-th time in a row since it
    opened, the close handler calls the status callback with [false] and
    schedules the [n]-th reconnect with a delay of [(n - 1) * 3000]
    milliseconds (none for the first, 3 s for the second, 12 s for the
    fifth). *)
Theorem reconnect_delay_counts_previous_attempts (n : nat) w id cbs :
  WebSocket_throws E = None →
  holds w id cbs →
  reconnectAttempts (this w) = 0 →
  (1 ≤ n ≤ 5)%nat →
  ∃ wn idn w',
    failures E (n - 1) w = Some wn ∧
    ws (this wn) = Some idn ∧
    reconnectAttempts (this wn) = Z.of_nat n - 1 ∧
    step E (SocketCloses idn) wn = Some w' ∧
    app w' = notified cbs false (app wn) ∧
    timers w' = (timers wn ++ [mkTimer (3000 * (Z.of_nat n - 1)) cbs])%list.
Proof.
  intros Hctor Hholds Hzero Hn.
  destruct (failures_count E (n - 1) w id cbs Hctor Hholds)
    as (wn & idn & Hrun & (Hws & s & Hs & Hstate & Hcbs) & Hcount & _).
  { rewrite Hzero. unfold maxReconnectAttempts. lia. }
  exists wn, idn. eexists. split; [exact Hrun|]. split; [exact Hws|].
  assert (Hk : reconnectAttempts (this wn) = Z.of_nat n - 1) by lia.
  split; [exact Hk|].
  simpl. rewrite Hs. simpl. rewrite bool_decide_eq_false_2 by exact Hstate.
  split; [reflexivity|]. rewrite ws_onclose_eq. simpl.
  rewrite bool_decide_eq_true_2 by (unfold maxReconnectAttempts; lia).
  by rewrite Hk, Hcbs.
Qed.

(** C5, as the code has it.  The cap is applied where a close schedules
    the reconnect.  With one connection at a time, the socket the service
    holds dropping and its reconnect running before anything else: from a
    connection that has opened (counter 0), five failed reconnects in a row
    bring the counter to the cap of 5, none of them is left pending, and a
    sixth is not to be had.  From any world whose counter has reached the
    cap, whatever happens short of a socket opening (closes, errors,
    messages, timers that were pending, calls of the two methods), the
    counter stays at the cap or above and no timer is added; in particular
    every close event calls the status callback with [false] and leaves
    the timers and the counter exactly as they were. *)
Theorem reconnect_stops_after_five_failures w id cbs :
  WebSocket_throws E = None →
  holds w id cbs →
  reconnectAttempts (this w) = 0 →
  (∃ w5,
     failures E 5 w = Some w5 ∧
     reconnectAttempts (this w5) = maxReconnectAttempts ∧
     timers w5 = timers w ∧
     failures E 6 w = None) ∧
  (∀ wx evs w',
     maxReconnectAttempts ≤ reconnectAttempts (this wx) →
     Forall no_open evs →
     run E evs wx = Some w' →
     maxReconnectAttempts ≤ reconnectAttempts (this w') ∧
     timers w' `sublist_of` timers wx ∧
     ∀ id' w'',
       step E (SocketCloses id') w' = Some w'' →
       timers w'' = timers w' ∧
       reconnectAttempts (this w'') = reconnectAttempts (this w') ∧
       ∃ s, sockets w' !! id' = Some s ∧
            app w'' = notified (handlers s) false (app w')).
Proof.
  intros Hctor Hholds Hzero. split.
  - destruct (failures_count E 5 w id cbs Hctor Hholds)
      as (w5 & id5 & Hrun & (Hws & s & Hs & Hstate & Hcbs) & Hcount & Htimers).
    { rewrite Hzero. done. }
    assert (Hcap : reconnectAttempts (this w5) = maxReconnectAttempts)
      by (rewrite Hcount, Hzero; done).
    exists w5. split; [exact Hrun|]. split; [exact Hcap|]. split; [exact Htimers|].
    replace (failures E 6 w) with (failures E 5 w ≫= failures E 1)
      by (symmetry; apply (failures_add E 5 1)).
    rewrite Hrun. simpl.
    unfold drop_and_retry. rewrite Hws. simpl.
    rewrite Hs. simpl. rewrite bool_decide_eq_false_2 by exact Hstate.
    rewrite ws_onclose_eq. simpl.
    rewrite bool_decide_eq_false_2 by lia.
    rewrite lookup_ge_None_2 by done. done.
  - intros wx evs w' Hcap Hevs Hrun'.
    destruct (run_exhausted evs wx w' Hevs Hcap Hrun') as [Hcap' Hsub].
    split; [exact Hcap'|]. split; [exact Hsub|].
    intros id' w'' Hclose. simpl in Hclose.
    destruct (sockets w' !! id') as [s'|]; simpl in Hclose; [|done].
    case_bool_decide; [done|]. injection Hclose as <-.
    rewrite ws_onclose_eq. simpl.
    rewrite bool_decide_eq_false_2 by lia.
    split; [done|]. split; [done|]. by exists s'.
Qed.

(** C10, as the code has it.  When a socket made by the service opens,
    the handler sets the counter to 0 whatever it was, the cap included.
    If that socket is the one the service holds, then from the state the
    open leaves, with one connection at a time (each drop followed by its
    own reconnect before anything else), the connection can drop five
    times in a row with a reconnect scheduled and run each time: after
    [n] such rounds the counter is [n]. *)
Theorem open_restores_reconnect_budget w id s :
  sockets w !! id = Some s →
  readyState s = CONNECTING →
  ∃ w0,
    step E (SocketOpens id) w = Some w0 ∧
    reconnectAttempts (this w0) = 0 ∧
    wsConnected (this w0) = true ∧
    app w0 = notified (handlers s) true (app w) ∧
    (WebSocket_throws E = None →
     ws (this w) = Some id →
     ∀ n, (n ≤ 5)%nat →
       ∃ wn, failures E n w0 = Some wn ∧ reconnectAttempts (this wn) = Z.of_nat n).
Proof.
  intros Hs Hstate. cbn [step]. rewrite Hs. cbn [mbind option_bind].
  rewrite bool_decide_eq_true_2 by exact Hstate.
  eexists. split; [reflexivity|]. unfold after. rewrite ws_onopen_eq. simpl.
  split; [done|]. split; [done|]. split; [done|].
  intros Hctor Hws n Hn.
  match goal with |- ∃ wn, failures E n ?w0 = _ ∧ _ =>
    destruct (failures_count E n w0 id (handlers s) Hctor)
      as (wn & idn & Hrun & _ & Hcount & _)
  end.
  - split; [exact Hws|]. exists (set_readyState OPEN s). simpl.
    rewrite list_lookup_alter_eq, Hs. done.
  - simpl. unfold maxReconnectAttempts. lia.
  - exists wn. split; [exact Hrun|]. rewrite Hcount. simpl. lia.
Qed.

(** C7, as the code has it.  [disconnectWebSocket] never throws.  With a
    socket in [this.ws] it closes that socket, sets [this.ws] to [null] and
    the connected flag to [false]; it does not touch the reconnect counter
    or the pending timers.  Without one it changes nothing. *)
Theorem disconnect_releases_the_socket w :
  fst (disconnectWebSocket w) = Return tt ∧
  (∀ id, ws (this w) = Some id →
     ws (this (snd (disconnectWebSocket w))) = None ∧
     wsConnected (this (snd (disconnectWebSocket w))) = false ∧
     sockets (snd (disconnectWebSocket w)) = alter close id (sockets w) ∧
     reconnectAttempts (this (snd (disconnectWebSocket w))) = reconnectAttempts (this w) ∧
     timers (snd (disconnectWebSocket w)) = timers w) ∧
  (ws (this w) = None → snd (disconnectWebSocket w) = w).
Proof.
  unfold disconnectWebSocket.
  destruct (ws (this w)) as [id|]; simpl; split; try done; split; try done.
  by intros ? [= <-].
Qed.

End Reconnect.

(** *** The Dashboard on the live feed *)

Lemma connected_world_reached :
  run live_env [CallConnect (Dashboard.callbacks 0); SocketOpens 0] mounted_world
  = Some connected_world.
Proof. reflexivity. Qed.

Lemma connected_world_holds :
  holds connected_world 0 (Dashboard.callbacks 0).
Proof. split; [reflexivity|]. eexists. split; [reflexivity|]. split; done. Qed.

(** The second reconnect after the connection opened. *)
Lemma reconnect_delay_counts_previous_attempts_witness :
  ∃ wn idn w',
    failures live_env 1 connected_world = Some wn ∧
    ws (this wn) = Some idn ∧
    reconnectAttempts (this wn) = 1 ∧
    step live_env (SocketCloses idn) wn = Some w' ∧
    app w' = notified (Dashboard.callbacks 0) false (app wn) ∧
    timers w' = (timers wn ++ [mkTimer 3000 (Dashboard.callbacks 0)])%list.
Proof.
  apply (reconnect_delay_counts_previous_attempts live_env 2 connected_world 0
           (Dashboard.callbacks 0));
    [reflexivity | exact connected_world_holds | reflexivity | lia].
Defined.

(** C4 fails as stated at n = 1: the first reconnect after the connection
    opened is scheduled with a delay of 0 ms, not 3000. *)
Lemma first_reconnect_is_scheduled_without_delay :
  (λ w : World (list Dashboard.State),
     (Dashboard.connectionStatus <$> app w, delay <$> timers w)) <$>
    run live_env [CallConnect (Dashboard.callbacks 0); SocketOpens 0; SocketCloses 0]
        mounted_world
  = Some (["disconnected"], [0]) ∧
  [0] ≠ [1 * 3000].
Proof. split; [vm_compute; reflexivity | discriminate]. Qed.

Lemma reconnect_stops_after_five_failures_witness :
  (∃ w5,
     failures live_env 5 connected_world = Some w5 ∧
     reconnectAttempts (this w5) = maxReconnectAttempts ∧
     timers w5 = timers connected_world ∧
     failures live_env 6 connected_world = None) ∧
  (∀ (wx : World (list Dashboard.State)) evs w',
     maxReconnectAttempts ≤ reconnectAttempts (this wx) →
     Forall no_open evs →
     run live_env evs wx = Some w' →
     maxReconnectAttempts ≤ reconnectAttempts (this w') ∧
     timers w' `sublist_of` timers wx ∧
     ∀ id' w'',
       step live_env (SocketCloses id') w' = Some w'' →
       timers w'' = timers w' ∧
       reconnectAttempts (this w'') = reconnectAttempts (this w') ∧
       ∃ s, sockets w' !! id' = Some s ∧
            app w'' = notified (handlers s) false (app w')).
Proof.
  apply (reconnect_stops_after_five_failures live_env connected_world 0 (Dashboard.callbacks 0));
    [reflexivity | exact connected_world_holds | reflexivity].
Defined.

(** C5 fails as stated with two sockets: no socket ever opens, five
    reconnects have run and the counter is at the cap, and the reconnect
    that was scheduled while the counter read 4 still runs: it is the
    sixth, it makes a socket, and the counter reads 6. *)
Lemma sixth_reconnect_with_two_sockets :
  Forall no_open two_chains ∧
  (λ w : World (list Dashboard.State),
     (reconnectAttempts (this w), length (timers w), length (sockets w),
      (λ w', (reconnectAttempts (this w'), length (sockets w'),
              readyState <$> last (sockets w')))
        <$> step live_env (TimerFires 0) w)) <$>
    run live_env two_chains mounted_world
  = Some (5, 1%nat, 7%nat, Some (6, 8%nat, Some CONNECTING)) ∧
  maxReconnectAttempts < 6.
Proof.
  split; [by repeat constructor|]. split; [vm_compute; reflexivity | done].
Qed.

(** C10 fails as stated when a reconnect scheduled before the open runs
    after it: the socket of the second Dashboard has opened and is held and
    open, the counter reads 1, and from there the connection can drop and
    reconnect four times only, not five. *)
Lemma stale_reconnect_takes_an_attempt :
  (λ w : World (list Dashboard.State),
     (ws (this w), readyState <$> sockets w, wsConnected (this w),
      reconnectAttempts (this w), length (timers w),
      (λ w', reconnectAttempts (this w')) <$> failures live_env 4 w,
      (λ w', reconnectAttempts (this w')) <$> failures live_env 5 w)) <$>
    run live_env stale_reconnect mounted_world
  = Some (Some 1%nat, [CLOSED; OPEN], true, 1, 0%nat, Some 5, None).
Proof. vm_compute. reflexivity. Qed.

Lemma exhausted_world_reached :
  failures live_env 5 connected_world = Some exhausted_world.
Proof. reflexivity. Qed.

(** The sixth socket opens after all: the counter is back at 0 and five
    more rounds go through. *)
Lemma open_restores_reconnect_budget_witness :
  ∃ w0,
    step live_env (SocketOpens 5) exhausted_world = Some w0 ∧
    reconnectAttempts (this w0) = 0 ∧
    wsConnected (this w0) = true ∧
    app w0 = notified (Dashboard.callbacks 0) true (app exhausted_world) ∧
    (WebSocket_throws live_env = None →
     ws (this exhausted_world) = Some 5%nat →
     ∀ n, (n ≤ 5)%nat →
       ∃ wn, failures live_env n w0 = Some wn ∧ reconnectAttempts (this wn) = Z.of_nat n).
Proof.
  apply (open_restores_reconnect_budget live_env exhausted_world 5
           (mkSocket CONNECTING (Dashboard.callbacks 0)));
    reflexivity.
Defined.

(** C7 fails as stated: two failed reconnects, then [disconnectWebSocket];
    the counter still reads 2. *)
Lemma disconnect_keeps_the_counter :
  (λ w : World (list Dashboard.State),
     (ws (this w), wsConnected (this w), reconnectAttempts (this w))) <$>
    run live_env
        [CallConnect (Dashboard.callbacks 0); SocketOpens 0;
         SocketCloses 0; TimerFires 0; SocketCloses 1; TimerFires 0;
         CallDisconnect]
        mounted_world
  = Some (None, false, 2) ∧
  2 ≠ 0.
Proof. split; [vm_compute; reflexivity | discriminate]. Qed.

(** What the untouched counter means: the close event that follows
    [disconnectWebSocket] still schedules a reconnect, and that reconnect
    puts a new socket in [this.ws]. *)
Remark reconnect_after_disconnect :
  (λ w : World (list Dashboard.State),
     (ws (this w), readyState <$> sockets w, reconnectAttempts (this w))) <$>
    run live_env
        [CallConnect (Dashboard.callbacks 0); SocketOpens 0; CallDisconnect;
         SocketCloses 0; TimerFires 0]
        mounted_world
  = Some (Some 1%nat, [CLOSED; CONNECTING], 1).
Proof. vm_compute. reflexivity. Qed.

Section LiveFeed.
Context (E : Env).
Implicit Types (w : World (list Dashboard.State)).

Lemma on_message_replaces msg t1 t2 d :
  Dashboard.mounted d = true →
  get msg "type" = Return (VStr "trending_update") →
  own msg "data" = VArr [t1; t2] →
  Dashboard.tracks (Dashboard.on_message msg d) = VArr [t1; t2].
Proof.
  intros Hmounted Htype Hdata.
  unfold Dashboard.on_message. rewrite Hmounted, Htype, Hdata. simpl.
  unfold Dashboard.tracks, get_opt, get. simpl.
  rewrite lookup_set_prop_ne by done. apply lookup_set_prop_eq.
Qed.

Lemma on_message_ignores msg d :
  get msg "type" ≠ Return (VStr "trending_update") →
  Dashboard.on_message msg d = d.
Proof.
  intros Hother. unfold Dashboard.on_message.
  destruct (Dashboard.mounted d); simpl; [|done].
  destruct (get msg "type") as [type|e] eqn:Htype; [|done].
  destruct type; simpl; try done.
  destruct (String.eqb_spec s "trending_update") as [->|_]; done.
Qed.

(** C8, as the code has it.  A message arrives on an open socket made
    with the callbacks of the [i]-th Dashboard.  If that Dashboard is still
    mounted and the message parses to a value whose [type] is
    ["trending_update"] and whose [data] is the list [[t1, t2]], its track
    list becomes exactly [[t1, t2]], and no other Dashboard changes.  If
    the message does not parse, or parses to a value whose [type] is not
    ["trending_update"], no Dashboard changes at all. *)
Theorem trending_update_replaces_track_list w id s i d :
  sockets w !! id = Some s →
  readyState s = OPEN →
  handlers s = Dashboard.callbacks i →
  app w !! i = Some d →
  (∀ msg t1 t2,
     Dashboard.mounted d = true →
     get msg "type" = Return (VStr "trending_update") →
     own msg "data" = VArr [t1; t2] →
     ∃ w' d',
       step E (SocketMessage id (Return msg)) w = Some w' ∧
       app w' !! i = Some d' ∧
       Dashboard.tracks d' = VArr [t1; t2] ∧
       ∀ j, j ≠ i → app w' !! j = app w !! j) ∧
  (∀ parsed,
     (∀ msg, parsed = Return msg → get msg "type" ≠ Return (VStr "trending_update")) →
     ∃ w', step E (SocketMessage id parsed) w = Some w' ∧ app w' = app w).
Proof.
  intros Hs Hopen Hcbs Hd. split.
  - intros msg t1 t2 Hmounted Htype Hdata.
    cbn [step]. rewrite Hs. cbn [mbind option_bind].
    rewrite bool_decide_eq_true_2 by exact Hopen.
    eexists _, (Dashboard.on_message msg d). split; [reflexivity|].
    unfold after, ws_onmessage. rewrite Hcbs. simpl. rewrite Htype. simpl.
    split; [by rewrite list_lookup_alter_eq, Hd|].
    split; [by apply on_message_replaces|].
    intros j Hj. by apply list_lookup_alter_ne.
  - intros parsed Hother.
    cbn [step]. rewrite Hs. cbn [mbind option_bind].
    rewrite bool_decide_eq_true_2 by exact Hopen.
    eexists. split; [reflexivity|].
    unfold after, ws_onmessage. rewrite Hcbs. simpl.
    destruct parsed as [msg|e]; simpl; [|done].
    specialize (Hother msg eq_refl).
    destruct (get msg "type") as [type|e] eqn:Htype; simpl; [|done].
    apply list_alter_id. intros d0. apply on_message_ignores. by rewrite Htype.
Qed.

End LiveFeed.

Lemma trending_update_replaces_track_list_witness :
  ∃ w' d',
    step live_env (SocketMessage 0 (Return two_tracks_update)) connected_world = Some w' ∧
    app w' !! 0%nat = Some d' ∧
    Dashboard.tracks d' = VArr [VObj [("id", VStr "a")]; VObj [("id", VStr "b")]] ∧
    ∀ j, j ≠ 0%nat → app w' !! j = app connected_world !! j.
Proof.
  destruct (trending_update_replaces_track_list live_env connected_world 0
              (mkSocket OPEN (Dashboard.callbacks 0)) 0
              (Dashboard.on_status true (Dashboard.initial "2024-01-01T00:00:00.000Z")))
    as [Hupdate _]; try reflexivity.
  apply Hupdate; reflexivity.
Defined.

(** Two tracks pushed to a Dashboard that has no data yet. *)
Example two_tracks_pushed :
  (λ w : World (list Dashboard.State), Dashboard.trendingData <$> app w) <$>
    step live_env (SocketMessage 0 (Return two_tracks_update)) connected_world
  = Some [VObj [("tracks", VArr [VObj [("id", VStr "a")]; VObj [("id", VStr "b")]]);
                ("metadata", VObj [("last_update", VStr "2024-01-01T00:00:00.000Z");
                                   ("source", VStr "websocket")])]].
Proof. vm_compute. reflexivity. Qed.

(** C8 fails as stated after a change of section: the message arrives on
    the open socket, the Dashboard on the page is mounted, and its track
    list is not replaced, because the socket carries the callbacks of the
    Dashboard that was unmounted. *)
Lemma update_is_lost_after_section_change :
  (λ w : World (list Dashboard.State),
     (readyState <$> sockets w,
      Dashboard.mounted <$> app w,
      Dashboard.tracks <$> app w)) <$>
    run live_env section_change mounted_world
  = Some ([CLOSED; OPEN], [false; true], [VUndefined; VUndefined]) ∧
  VUndefined ≠ own two_tracks_update "data".
Proof. split; [vm_compute; reflexivity | discriminate]. Qed.

(** ** Further properties of the service *)

(** *** The health check *)

Section Health.
Context {App : Type} (E : Env).
Implicit Types (w : World App).

(** X1.  [testConnection] never throws, sends exactly one request, to
    [/health], and leaves the service as it was.  The result always has a
    boolean [healthy], which is [true] exactly when the request was answered
    with a status in 200..299 and a body that parses to something other
    than [null]; and it has an [error] field exactly when the request, the
    parsing or the read of the body threw. *)
Theorem testConnection_reports w :
  ∃ v,
    fst (testConnection E w) = Return v ∧
    sent (snd (testConnection E w)) = (sent w ++ [baseURL +:+ "/health"])%list ∧
    this (snd (testConnection E w)) = this w ∧
    (∃ b, own v "healthy" = VBool b) ∧
    (own v "healthy" = VBool true ↔
       ∃ resp body,
         network E (length (sent w)) = Return resp ∧ ok resp = true ∧
         json resp = Return body ∧ body ≠ VNull ∧ body ≠ VUndefined) ∧
    (own v "error" ≠ VUndefined ↔
       (∃ e, network E (length (sent w)) = Throw e) ∨
       (∃ resp, network E (length (sent w)) = Return resp ∧
          ((∃ e, json resp = Throw e) ∨
           json resp = Return VNull ∨ json resp = Return VUndefined))).
Proof.
  unfold testConnection, fetch. simpl.
  destruct (network E (length (sent w))) as [resp|e] eqn:Hnet; simpl.
  - destruct (json resp) as [body|e] eqn:Hjson; simpl.
    + destruct body; simpl;
        (eexists; split; [reflexivity|]; split; [done|]; split; [done|];
         split; [eauto|]); simpl; (split; split).
      all: try (intros [=]; eauto 10; fail).
      all: try (intros (? & ? & [= <-] & ? & ? & ? & ?); congruence).
      all: try (intros [(? & [=])|(? & [= <-] & [(? & ?)|[?|?]])]; congruence).
      all: try done.
      all: try (intros _; right; eauto 10; fail).
      all: try (intros [= ->]; eauto 10; fail).
    + eexists. split; [reflexivity|]. split; [done|]. split; [done|].
      split; [eauto|]. simpl. split; split.
      * intros [=].
      * intros (? & ? & [= <-] & _ & ? & _). congruence.
      * intros _. right. eauto.
      * done.
  - eexists. split; [reflexivity|]. split; [done|]. split; [done|].
    split; [eauto|]. simpl. split; split.
    + intros [=].
    + intros (? & ? & [=] & _).
    + intros _. left. eauto.
    + done.
Qed.

End Health.

(** *** The fetch operations as a whole *)

Section FetchOperations.
Context {App : Type} (E : Env).
Implicit Types (w : World App) (ep : Endpoint).

Lemma request_key_inj ep ep' : request_key ep = request_key ep' → ep = ep'.
Proof.
  destruct ep as [limit|], ep' as [limit'|]; simpl; try done.
  intros [= Heq]. f_equal. by apply (inj pretty).
Qed.

Lemma getFallbackTrendingData_total limit w :
  limit ≤ 2 ^ 32 - 1 →
  ∃ v w', getFallbackTrendingData E limit w = (Return v, w').
Proof.
  intros Hlimit. unfold getFallbackTrendingData, Array_from_length.
  destruct (Z.ltb_spec (2 ^ 32 - 1) (ToLength limit)) as [Hbig|_].
  { unfold ToLength in Hbig. lia. }
  simpl.
  destruct (map_M_returns (fallbackTrack E) (λ _, True)
              (seq 0 (Z.to_nat (ToLength limit))) w) as (tracks & w' & -> & _).
  { intros i w0. destruct (fallbackTrack_returns E i w0) as (t & w1 & -> & _). eauto. }
  simpl. eauto.
Qed.

(** X2.  [getAnalytics] never throws: on a fresh entry, on a stale one, on
    none, and whatever the network does, the call returns a value. *)
Theorem getAnalytics_never_throws w : ∃ v, fst (getAnalytics E w) = Return v.
Proof.
  unfold getAnalytics. simpl. rewrite isCacheValid_eq.
  destruct (cache (this w) !! "analytics") as [entry|] eqn:Hentry; simpl.
  - case_bool_decide; simpl.
    + unfold cache_get. simpl. rewrite Hentry. simpl. eauto.
    + unfold fetch. split_run; eauto.
  - unfold fetch. split_run; eauto.
Qed.

(** X3.  [getTrendingTracks(limit)] never throws for a limit of at most
    2^32 - 1, negative limits included: whatever the cache holds and
    whatever the network does, the call returns a value. *)
Theorem getTrendingTracks_never_throws limit w :
  limit ≤ 2 ^ 32 - 1 →
  ∃ v, fst (getTrendingTracks E limit w) = Return v.
Proof.
  intros Hlimit.
  assert (Hfb : ∀ w0, ∃ v, fst (getFallbackTrendingData E limit w0) = Return v).
  { intros w0. destruct (getFallbackTrendingData_total limit w0 Hlimit) as (v & w' & ->).
    simpl. eauto. }
  unfold getTrendingTracks. simpl. rewrite isCacheValid_eq.
  destruct (cache (this w) !! ("trending_" +:+ pretty limit)) as [entry|] eqn:Hentry; simpl.
  - case_bool_decide; simpl.
    + unfold cache_get. simpl. rewrite Hentry. simpl. eauto.
    + unfold fetch. simpl.
      repeat (match goal with
              | |- context [getFallbackTrendingData E limit ?w0] =>
                  destruct (Hfb w0) as [? ->]
              | |- context [match ?x with _ => _ end] =>
                  lazymatch x with
                  | context [match _ with _ => _ end] => fail
                  | context [getFallbackTrendingData] => fail
                  | _ => destruct x eqn:?
                  end
              end; simpl); eauto.
  - unfold fetch. simpl.
    repeat (match goal with
            | |- context [match ?x with _ => _ end] =>
                lazymatch x with
                | context [match _ with _ => _ end] => fail
                | context [getFallbackTrendingData] => fail
                | _ => destruct x eqn:?
                end
            end; simpl); eauto;
      match goal with
      | |- context [getFallbackTrendingData E limit ?w0] => destruct (Hfb w0) as [? ?]; eauto
      end.
Qed.

End FetchOperations.

Lemma reads_only_run_all {App A} (m : M A) (w : World App) r w' :
  reads_only App m → m w = (r, w') →
  this w' = this w ∧ sockets w' = sockets w ∧ timers w' = timers w ∧
  app w' = app w ∧ sent w' = sent w.
Proof. intros Hm Hrun. specialize (Hm w). by rewrite Hrun in Hm. Qed.

(** The same case analysis, keeping all that the calls leave alone. *)
Ltac split_run_all :=
  repeat (simpl in *;
    match goal with
    | |- context [map_M ?f ?l ?w] =>
        let H := fresh "Hmap" in
        destruct (map_M f l w) as [[?|?] ?] eqn:H;
        (apply (reads_only_run_all (map_M f l) w) in H;
         [destruct H as (? & ? & ? & ? & ?)
         | by apply reads_only_map_M, reads_only_enhanceTrackData])
    | |- context [getFallbackTrendingData ?E ?l ?w] =>
        let H := fresh "Hfb" in
        destruct (getFallbackTrendingData E l w) as [? ?] eqn:H;
        (apply (reads_only_run_all (getFallbackTrendingData E l) w) in H;
         [destruct H as (? & ? & ? & ? & ?)
         | by apply reads_only_getFallbackTrendingData])
    | |- context [match ?x with _ => _ end] =>
        lazymatch x with
        | context [match _ with _ => _ end] => fail
        | _ => destruct x eqn:?
        end
    end).

Ltac chase :=
  repeat match goal with
         | H : this _ = _ |- _ => rewrite H; clear H
         | H : sockets _ = _ |- _ => rewrite H; clear H
         | H : timers _ = _ |- _ => rewrite H; clear H
         | H : app _ = _ |- _ => rewrite H; clear H
         | H : sent _ = _ |- _ => rewrite H; clear H
         end.

Section FetchFrame.
Context {App : Type} (E : Env).
Implicit Types (w : World App) (ep : Endpoint).

(** X4.  A fetch operation, whether it answers from the cache, from the
    backend or with fallback data, leaves the connection fields of the
    service, the sockets, the timers and the application as they were, and
    among the cache entries it can change only the one of its own request:
    the entries of [getAnalytics] and of [getTrendingTracks] with any other
    limit stay as they are. *)
Theorem fetch_op_touches_its_entry_only ep w :
  let w' := snd (fetch_op E ep w) in
  ws (this w') = ws (this w) ∧
  wsConnected (this w') = wsConnected (this w) ∧
  reconnectAttempts (this w') = reconnectAttempts (this w) ∧
  sockets w' = sockets w ∧ timers w' = timers w ∧ app w' = app w ∧
  ∀ ep', ep' ≠ ep →
    cache (this w') !! request_key ep' = cache (this w) !! request_key ep'.
Proof.
  assert (Hkey : ∀ ep' (c : gmap string CacheEntry) e, ep' ≠ ep →
            <[request_key ep := e]> c !! request_key ep' = c !! request_key ep').
  { intros ep' c e Hne. apply lookup_insert_ne. intros Heq.
    by apply request_key_inj in Heq. }
  destruct ep as [limit|]; simpl in *;
    unfold getTrendingTracks, getAnalytics; simpl; rewrite isCacheValid_eq;
    unfold fetch, cache_get, tick; split_run_all; simpl; chase; simpl;
    do 6 (split; [reflexivity|]); intros ep' Hne;
    try reflexivity; by apply Hkey.
Qed.

End FetchFrame.

Section CacheLife.
Context {App : Type} (E : Env).
Implicit Types (w : World App) (ep : Endpoint).

Lemma isCacheValid_absent key w :
  cache (this w) !! key = None → isCacheValid E key w = (Return false, w).
Proof. intros Hnone. by rewrite isCacheValid_eq, Hnone. Qed.

Lemma failed_fetch_keeps_service ep w :
  fst (isCacheValid E (request_key ep) w) = Return false →
  (∀ resp, network E (length (sent w)) = Return resp → ok resp = false) →
  this (snd (fetch_op E ep w)) = this w.
Proof.
  intros Hmiss Hfail.
  pose proof (after_check_frame E (request_key ep) w) as [Hthis _].
  destruct ep as [limit|]; simpl in *.
  - rewrite getTrendingTracks_miss by exact Hmiss. simpl.
    destruct (network E (length (sent w))) as [resp|e]; simpl.
    + rewrite (Hfail resp eq_refl). simpl.
      destruct (reads_only_getFallbackTrendingData E limit
                  (after_fetch E ("trending_" +:+ pretty limit)
                     (baseURL +:+ "/trending?limit=" +:+ pretty limit) w)) as [-> _].
      exact Hthis.
    + destruct (reads_only_getFallbackTrendingData E limit
                  (after_fetch E ("trending_" +:+ pretty limit)
                     (baseURL +:+ "/trending?limit=" +:+ pretty limit) w)) as [-> _].
      exact Hthis.
  - rewrite getAnalytics_miss by exact Hmiss. simpl.
    destruct (network E (length (sent w))) as [resp|e]; simpl.
    + rewrite (Hfail resp eq_refl). simpl. exact Hthis.
    + exact Hthis.
Qed.

(** X5.  A failure is not cached.  When a fetch operation finds no fresh
    entry and the request throws or is answered with a status outside
    200..299, the cache is left exactly as it was; [getAnalytics] then
    returns the fallback analytics; and if the key had no entry at all, the
    next call for the same key sends the request again. *)
Theorem failed_fetch_is_not_cached ep w :
  fst (isCacheValid E (request_key ep) w) = Return false →
  (∀ resp, network E (length (sent w)) = Return resp → ok resp = false) →
  cache (this (snd (fetch_op E ep w))) = cache (this w) ∧
  (ep = Analytics → fst (fetch_op E ep w) = Return getFallbackAnalytics) ∧
  (cache (this w) !! request_key ep = None →
   sent (snd (fetch_op E ep (snd (fetch_op E ep w)))) =
     (sent w ++ [request_url ep; request_url ep])%list).
Proof.
  intros Hmiss Hfail.
  pose proof (failed_fetch_keeps_service ep w Hmiss Hfail) as Hthis.
  split; [by rewrite Hthis|]. split.
  - intros ->. simpl. rewrite getAnalytics_miss by exact Hmiss. simpl.
    destruct (network E (length (sent w))) as [resp|e]; simpl; [|done].
    by rewrite (Hfail resp eq_refl).
  - intros Hnone.
    rewrite fetch_op_miss_sends.
    + rewrite fetch_op_miss_sends by exact Hmiss.
      by rewrite <- app_assoc.
    + rewrite isCacheValid_absent; [done|]. by rewrite Hthis.
Qed.

(** X6.  [clearCache] empties the cache and touches nothing else; after
    it, the next fetch operation, for any request, goes to the backend,
    however recently its entry had been stored. *)
Theorem clearCache_forces_refetch ep w :
  fst (clearCache w) = Return tt ∧
  cache (this (snd (clearCache w))) = ∅ ∧
  ws (this (snd (clearCache w))) = ws (this w) ∧
  wsConnected (this (snd (clearCache w))) = wsConnected (this w) ∧
  reconnectAttempts (this (snd (clearCache w))) = reconnectAttempts (this w) ∧
  sockets (snd (clearCache w)) = sockets w ∧
  timers (snd (clearCache w)) = timers w ∧
  sent (snd (fetch_op E ep (snd (clearCache w)))) = (sent w ++ [request_url ep])%list.
Proof.
  do 7 (split; [reflexivity|]).
  rewrite fetch_op_miss_sends; [done|].
  by rewrite isCacheValid_absent.
Qed.

End CacheLife.

Lemma getTrendingTracks_never_throws_witness :
  ∃ v, fst (getTrendingTracks failing_env (-5) (fresh_world tt)) = Return v.
Proof. apply (getTrendingTracks_never_throws failing_env (-5) (fresh_world tt)). lia. Defined.

Lemma failed_fetch_is_not_cached_witness :
  cache (this (snd (fetch_op failing_env (Trending 3) (fresh_world tt)))) = ∅ ∧
  sent (snd (fetch_op failing_env (Trending 3)
               (snd (fetch_op failing_env (Trending 3) (fresh_world tt))))) =
    ["http://localhost:8000/trending?limit=3"; "http://localhost:8000/trending?limit=3"].
Proof.
  destruct (failed_fetch_is_not_cached failing_env (Trending 3) (fresh_world tt))
    as (Hcache & _ & Hsent).
  - reflexivity.
  - intros resp [= <-]. reflexivity.
  - split; [exact Hcache | by apply Hsent].
Defined.

(** *** The normalisation of a record *)

Section Returns.
Context {App : Type}.

Lemma returns_ret {A} (a : A) (P : A → Prop) :
  P a → returns_with (App:=App) (ret a) P.
Proof. intros Ha w. by exists a, w. Qed.

Lemma returns_bind {A B} (m : M A) (k : A → M B) (P : A → Prop) (Q : B → Prop) :
  returns_with (App:=App) m P → (∀ a, P a → returns_with (k a) Q) →
  returns_with (bind m k) Q.
Proof.
  intros Hm Hk w. destruct (Hm w) as (a & w1 & Hrun & Ha).
  destruct (Hk a Ha w1) as (b & w2 & Hrun2 & Hb).
  exists b, w2. simpl. by rewrite Hrun.
Qed.

Lemma returns_weaken {A} (m : M A) (P Q : A → Prop) :
  returns_with (App:=App) m P → (∀ a, P a → Q a) → returns_with m Q.
Proof.
  intros Hm HPQ w. destruct (Hm w) as (a & w' & Hrun & Ha). exists a, w'. auto.
Qed.

Lemma returns_lift {A} (a : A) (P : A → Prop) :
  P a → returns_with (App:=App) (lift (Return a)) P.
Proof. intros Ha w. by exists a, w. Qed.

Lemma returns_if {A} (b : bool) (m1 m2 : M A) (P : A → Prop) :
  returns_with (App:=App) m1 P → returns_with m2 P →
  returns_with (if b then m1 else m2) P.
Proof. by destruct b. Qed.

Lemma fails_throw {A} e (P : Exn → Prop) :
  P e → fails_with (App:=App) (@throw App A e) P.
Proof. intros He w. by exists e, w. Qed.

Lemma fails_lift {A} e (P : Exn → Prop) :
  P e → fails_with (App:=App) (@lift App A (Throw e)) P.
Proof. intros He w. by exists e, w. Qed.

Lemma fails_bind_l {A B} (m : M A) (k : A → M B) (P : Exn → Prop) :
  fails_with (App:=App) m P → fails_with (bind m k) P.
Proof.
  intros Hm w. destruct (Hm w) as (e & w' & Hrun & He).
  exists e, w'. simpl. by rewrite Hrun.
Qed.

Lemma fails_bind_r {A B} (m : M A) (k : A → M B) (P : A → Prop) (Q : Exn → Prop) :
  returns_with (App:=App) m P → (∀ a, P a → fails_with (k a) Q) →
  fails_with (bind m k) Q.
Proof.
  intros Hm Hk w. destruct (Hm w) as (a & w1 & Hrun & Ha).
  destruct (Hk a Ha w1) as (e & w2 & Hrun2 & He).
  exists e, w2. simpl. by rewrite Hrun.
Qed.

End Returns.

Section Normalise.
Context {App : Type} (E : Env).
Implicit Types (w : World App) (track : Value).

Lemma returns_now : returns_with (App:=App) (now E) (λ _, True).
Proof. intros w. by eexists _, _. Qed.

Lemma returns_random :
  returns_with (App:=App) (random E) (λ r, ∃ n, r = Math_random E n).
Proof. intros w. eexists _, _. split; [reflexivity|]. eauto. Qed.

Lemma returns_random_below n :
  returns_with (App:=App) (random_below E n)
    (λ z, ∃ k, z = Qfloor (Math_random E k * inject_Z n)).
Proof. intros w. eexists _, _. split; [reflexivity|]. eauto. Qed.

Lemma returns_or_else n (alt : M Z) (P : Z → Prop) :
  returns_with (App:=App) alt P →
  returns_with (or_else n alt) (λ z, (n = Some z ∧ z ≠ 0) ∨ ((n = None ∨ n = Some 0) ∧ P z)).
Proof.
  intros Halt. unfold or_else. destruct n as [z|].
  - destruct (Z.eqb_spec z 0) as [->|Hz].
    + eapply returns_weaken; [exact Halt|]. intros a Ha. right. auto.
    + apply returns_ret. left. auto.
  - eapply returns_weaken; [exact Halt|]. intros a Ha. right. auto.
Qed.

Lemma get_own track k :
  track ≠ VUndefined → track ≠ VNull → get track k = Return (own track k).
Proof. by destruct track. Qed.

Lemma lower_text v :
  text_or_absent v = true →
  lower E (js_or v (VStr "")) = Return (toLowerCase E (text_of (js_or v (VStr "")))).
Proof.
  unfold js_or. destruct v as [| |b|q|s|items|props]; simpl; try done.
  - by destruct b.
  - by destruct (Qeq_bool q 0).
  - by destruct (negb (String.eqb s "")).
Qed.

Lemma lower_not_text v :
  text_or_absent v = false → ∃ e, lower E (js_or v (VStr "")) = Throw e ∧ exn_name e = "TypeError".
Proof.
  unfold js_or. destruct v as [| |b|q|s|items|props]; simpl; try done.
  - destruct b; [eauto | done].
  - destruct (Qeq_bool q 0); [done | eauto].
  - eauto.
  - eauto.
Qed.

Lemma js_parseInt_ok v :
  coercible v = true → js_parseInt E v = Return (parseInt E v).
Proof. intros Hv. unfold js_parseInt. by rewrite Hv. Qed.

Lemma js_parseInt_throws v :
  coercible v = false → js_parseInt E v = Throw not_primitive.
Proof. intros Hv. unfold js_parseInt. by rewrite Hv. Qed.

Lemma js_gt_ok v n :
  coercible v = true → js_gt E v n = Return (greater_than E v n).
Proof. intros Hv. unfold js_gt. by rewrite Hv. Qed.

Lemma js_gt_throws v n :
  coercible v = false → js_gt E v n = Throw not_primitive.
Proof. intros Hv. unfold js_gt. by rewrite Hv. Qed.

Lemma texts_readable_inv track :
  texts_readable track = true →
  text_or_absent (own track "language") = true ∧
  text_or_absent (js_or (own track "song") (own track "track_name")) = true ∧
  text_or_absent (own track "album") = true.
Proof.
  unfold texts_readable. intros Hok.
  repeat (apply andb_prop in Hok as [Hok ?]). done.
Qed.

Lemma determineGenre_run track w :
  track ≠ VUndefined → track ≠ VNull →
  texts_readable track = true →
  decided_by_text E track || coercible (own track "popularity") = true →
  ∃ g, determineGenre E track w = (Return g, w) ∧
    let language := toLowerCase E (text_of (js_or (own track "language") (VStr ""))) in
    let title :=
      toLowerCase E
        (text_of (js_or (js_or (own track "song") (own track "track_name")) (VStr ""))) in
    let album := toLowerCase E (text_of (js_or (own track "album") (VStr ""))) in
    g ∈ genres ∧
    (includes "remix" title || includes "remix" album = true ↔ g = "remix") ∧
    (g = "bollywood" → language = "hindi") ∧
    (g = "south_indian" → language ∈ ["tamil"; "telugu"; "malayalam"; "kannada"]) ∧
    (g = "punjabi" → language = "punjabi") ∧
    (g = "regional" →
       language ∉ ["hindi"; "tamil"; "telugu"; "malayalam"; "kannada"; "punjabi"]).
Proof.
  intros Hu Hn Htexts Hdecided.
  destruct (texts_readable_inv track Htexts) as (Hlang & Htitle & Halbum).
  unfold determineGenre. simpl.
  rewrite get_own by done. simpl.
  rewrite !lower_text by done. simpl.
  unfold decided_by_text in Hdecided.
  set (language := toLowerCase E (text_of (js_or (own track "language") (VStr "")))).
  set (title :=
         toLowerCase E
           (text_of (js_or (js_or (own track "song") (own track "track_name"))
                           (VStr "")))) in *.
  set (album := toLowerCase E (text_of (js_or (own track "album") (VStr "")))) in *.
  destruct (includes "remix" title || includes "remix" album) eqn:Hremix.
  { eexists. split; [reflexivity|]. split; [by apply (bool_decide_unpack _)|].
    repeat split; try done; intros [=]. }
  assert (Htrending :
    ∃ b, (if includes "trending" title then ret true
          else lift (js_gt E (own track "popularity") 90)) w
         = (Return b, w)).
  { destruct (includes "trending" title); [by eexists|].
    simpl in Hdecided. unfold js_gt. rewrite Hdecided. by eexists. }
  destruct Htrending as [trending Htrending]. cbn [bind]. rewrite Htrending.
  destruct trending.
  { eexists. split; [reflexivity|]. split; [by apply (bool_decide_unpack _)|].
    repeat split; try done; intros [=]. }
  destruct (String.eqb_spec language "hindi") as [Hhindi|Hhindi].
  { eexists. split; [reflexivity|]. split; [by apply (bool_decide_unpack _)|].
    repeat split; try done; intros [=]. }
  case_bool_decide as Hsouth.
  { eexists. split; [reflexivity|]. split; [by apply (bool_decide_unpack _)|].
    repeat split; try done; intros [=]. }
  destruct (String.eqb_spec language "punjabi") as [Hpunjabi|Hpunjabi].
  { eexists. split; [reflexivity|]. split; [by apply (bool_decide_unpack _)|].
    repeat split; try done; intros [=]. }
  eexists. split; [reflexivity|]. split; [by apply (bool_decide_unpack _)|].
  repeat split; try done; try (intros [=]; fail).
  intros _. rewrite !elem_of_cons, elem_of_nil in *. intuition.
Qed.

Lemma normalisable_inv track :
  normalisable track = true →
  track ≠ VUndefined ∧ track ≠ VNull ∧
  coercible (own track "popularity") = true ∧
  coercible (own track "play_count") = true ∧
  coercible (own track "duration") = true ∧
  texts_readable track = true ∧
  text_or_absent (own track "image") = true.
Proof.
  intros Hok.
  assert (Hconds :
    coercible (own track "popularity") && coercible (own track "play_count")
    && coercible (own track "duration") && text_or_absent (own track "language")
    && text_or_absent (js_or (own track "song") (own track "track_name"))
    && text_or_absent (own track "album") && text_or_absent (own track "image") = true)
    by (by destruct track).
  unfold texts_readable.
  repeat (apply andb_prop in Hconds as [Hconds ?]).
  split; [by destruct track|]. split; [by destruct track|].
  repeat split; try done. by repeat (apply andb_true_intro; split).
Qed.

Lemma determineGenre_returns track :
  normalisable track = true →
  returns_with (App:=App) (determineGenre E track) (λ g, g ∈ genres).
Proof.
  intros Hok w.
  destruct (normalisable_inv track Hok) as (Hu & Hn & Hpop & _ & _ & Htexts & _).
  destruct (determineGenre_run track w) as (g & Hrun & Hg & _); try done.
  - by rewrite Hpop, orb_true_r.
  - eauto.
Qed.

Lemma replace_nonempty pat rep s : s ≠ "" → rep ≠ "" → replace pat rep s ≠ "".
Proof.
  intros Hs Hrep. destruct s as [|c rest]; [done|].
  cbn [replace].
  match goal with |- context [if ?b then _ else _] => destruct b end; [|done].
  by destruct rep.
Qed.

Lemma truthy_or a b : truthy b = true → truthy (js_or a b) = true.
Proof. intros Hb. unfold js_or. by destruct (truthy a) eqn:Ha. Qed.

Lemma truthy_VStr s : truthy (VStr s) = true ↔ s ≠ "".
Proof.
  simpl. destruct (String.eqb_spec s "") as [->|Hs]; simpl; split; try done.
Qed.

(** The image, once the record is known to hold text there, if anything. *)
Lemma image_url_returns track :
  text_or_absent (own track "image") = true →
  returns_with (App:=App)
    (if truthy (own track "image")
     then match own track "image" with
          | VStr s => ret (VStr (replace "150x150" "500x500" s))
          | _ => throw (mkExn "TypeError" "track.image.replace is not a function")
          end
     else ret (VStr placeholder_image))
    (λ v, truthy v = true).
Proof.
  intros Htext. destruct (own track "image") as [| |b|q|s|items|props] eqn:Himage;
    simpl in *; try done; try (by apply returns_ret).
  - destruct b; [done | by apply returns_ret].
  - destruct (Qeq_bool q 0); [by apply returns_ret | done].
  - destruct (String.eqb_spec s "") as [->|Hs]; simpl; apply returns_ret; [done|].
    apply truthy_VStr. by apply replace_nonempty.
Qed.

Lemma track_id_returns (id other : Value) :
  returns_with (App:=App)
    (if truthy (js_or id other)
     then ret (js_or id other)
     else let* t := now E in
          let* r := random E in
          ret (VStr ("track_" +:+ pretty t +:+ "_" +:+ Number_toString E r)))
    (λ v, truthy v = true ∧ (truthy (js_or id other) = true → v = js_or id other)).
Proof.
  destruct (truthy (js_or id other)) eqn:Hid.
  - by apply returns_ret.
  - intros w. eexists _, _. split; [reflexivity|]. done.
Qed.

(** Every field of the result, for a record that can be normalised. *)
Lemma enhanceTrackData_spec track :
  normalisable track = true →
  returns_with (App:=App) (enhanceTrackData E track)
    (λ v, ∃ track_id popularity play_count duration_ms image_url genre growth listeners fetched,
       v = VObj [
         ("track_id", track_id);
         ("track_name",
            js_or (js_or (js_or (own track "song") (own track "track_name")) (own track "name"))
                  (VStr "Unknown Track"));
         ("artist",
            js_or (js_or (js_or (own track "primary_artists") (own track "artist"))
                         (own track "singers"))
                  (VStr "Unknown Artist"));
         ("album", js_or (own track "album") (VStr "Unknown Album"));
         ("popularity", VInt popularity);
         ("play_count", VInt play_count);
         ("duration_ms", VInt duration_ms);
         ("image_url", image_url);
         ("preview_url",
            js_or (js_or (js_or (own track "media_preview_url") (own track "preview_url"))
                         (own track "media_url"))
                  VNull);
         ("language", js_or (own track "language") (VStr "hindi"));
         ("genre", VStr genre);
         ("explicit",
            js_or (js_or (VBool (strict_eq_str (own track "explicit_content") "1"))
                         (own track "explicit"))
                  (VBool false));
         ("release_date",
            js_or (js_or (own track "year") (own track "release_date")) (VStr "2024"));
         ("label", js_or (own track "label") (VStr "Independent"));
         ("is_trending", VBool (greater_than E (own track "popularity") 80));
         ("growth_rate", VStr ("+" +:+ pretty growth +:+ "%"));
         ("listeners", VInt (listeners + 10000));
         ("fetched_at", VStr (toISOString E fetched));
         ("source", VStr "jiosaavn_api")] ∧
       truthy track_id = true ∧
       (truthy (js_or (own track "id") (own track "track_id")) = true →
          track_id = js_or (own track "id") (own track "track_id")) ∧
       ((parseInt E (own track "popularity") = Some popularity ∧ popularity ≠ 0) ∨
        ((parseInt E (own track "popularity") = None ∨
          parseInt E (own track "popularity") = Some 0) ∧
         ∃ k, popularity = Qfloor (Math_random E k * inject_Z 100))) ∧
       ((parseInt E (own track "play_count") = Some play_count ∧ play_count ≠ 0) ∨
        ((parseInt E (own track "play_count") = None ∨
          parseInt E (own track "play_count") = Some 0) ∧
         ∃ k, play_count = Qfloor (Math_random E k * inject_Z 1000000))) ∧
       ((∃ d, parseInt E (own track "duration") = Some d ∧ d ≠ 0 ∧ duration_ms = 1000 * d) ∨
        ((parseInt E (own track "duration") = None ∨
          parseInt E (own track "duration") = Some 0) ∧ duration_ms = 180000)) ∧
       truthy image_url = true ∧
       genre ∈ genres ∧
       (∃ k, growth = Qfloor (Math_random E k * inject_Z 20)) ∧
       (∃ k, listeners = Qfloor (Math_random E k * inject_Z 100000))).
Proof.
  intros Hok.
  destruct (normalisable_inv track Hok)
    as (Hu & Hn & Hcpop & Hcplay & Hcdur & _ & Himage).
  unfold enhanceTrackData. rewrite get_own by done.
  rewrite !js_parseInt_ok, js_gt_ok by done.
  eapply returns_bind;
    [apply (returns_lift _ (λ id, id = own track "id")); reflexivity|].
  intros id ->.
  eapply returns_bind; [apply track_id_returns|]. intros track_id [Htid Htid'].
  cbv zeta.
  eapply returns_bind;
    [apply (returns_lift _ (λ n, n = parseInt E (own track "popularity"))); reflexivity|].
  intros ? ->.
  eapply returns_bind; [apply returns_or_else, returns_random_below|].
  intros popularity Hpop.
  eapply returns_bind;
    [apply (returns_lift _ (λ n, n = parseInt E (own track "play_count"))); reflexivity|].
  intros ? ->.
  eapply returns_bind; [apply returns_or_else, returns_random_below|].
  intros play_count Hplay.
  eapply returns_bind;
    [apply (returns_lift _ (λ n, n = parseInt E (own track "duration"))); reflexivity|].
  intros ? ->.
  eapply returns_bind;
    [apply returns_or_else, (returns_ret _ (λ z, z = 180000)); reflexivity|].
  intros duration_ms Hdur.
  eapply returns_bind; [by apply image_url_returns|]. intros image_url Himg.
  eapply returns_bind; [by apply determineGenre_returns|]. intros genre Hgenre.
  eapply returns_bind;
    [apply (returns_lift _ (λ b, b = greater_than E (own track "popularity") 80));
     reflexivity|].
  intros ? ->.
  eapply returns_bind; [apply returns_random_below|]. intros growth Hgrowth.
  eapply returns_bind; [apply returns_random_below|]. intros listeners Hlisteners.
  eapply returns_bind; [apply returns_now|]. intros fetched _.
  apply returns_ret.
  exists track_id, popularity, play_count, duration_ms, image_url, genre, growth,
    listeners, fetched.
  split; [reflexivity|]. split; [exact Htid|]. split; [exact Htid'|].
  split; [exact Hpop|]. split; [exact Hplay|]. split.
  { destruct (parseInt E (own track "duration")) as [d|]; simpl in Hdur.
    - destruct Hdur as [[[= <-] Hnz]|[[[=]|[= Hd]] ->]].
      + left. exists d. split; [done|]. split; [lia | done].
      + right. split; [|done]. right. f_equal. lia.
    - destruct Hdur as [[[=] _]|[_ ->]]. right. auto. }
  done.
Qed.

Lemma determineGenre_fails track :
  track ≠ VUndefined → track ≠ VNull →
  texts_readable track = false →
  fails_with (App:=App) (determineGenre E track) (λ e, exn_name e = "TypeError").
Proof.
  intros Hu Hn Hbad. unfold texts_readable in Hbad.
  unfold determineGenre. rewrite get_own by done.
  eapply fails_bind_r;
    [apply (returns_lift _ (λ v, v = own track "language")); reflexivity|].
  intros lang ->.
  destruct (text_or_absent (own track "language")) eqn:Hlang.
  2:{ destruct (lower_not_text _ Hlang) as (e & -> & He).
      by apply fails_bind_l, fails_lift. }
  rewrite lower_text by done.
  eapply fails_bind_r; [apply (returns_lift _ (λ _, True)); done|]. intros language _.
  destruct (text_or_absent (js_or (own track "song") (own track "track_name"))) eqn:Htitle.
  2:{ destruct (lower_not_text _ Htitle) as (e & -> & He).
      by apply fails_bind_l, fails_lift. }
  rewrite lower_text by done.
  eapply fails_bind_r; [apply (returns_lift _ (λ _, True)); done|]. intros title _.
  simpl in Hbad.
  destruct (lower_not_text _ Hbad) as (e & -> & He).
  by apply fails_bind_l, fails_lift.
Qed.

Lemma enhanceTrackData_fails track :
  normalisable track = false →
  fails_with (App:=App) (enhanceTrackData E track) (λ e, exn_name e = "TypeError").
Proof.
  intros Hbad.
  assert (track = VUndefined ∨ track = VNull ∨ (track ≠ VUndefined ∧ track ≠ VNull))
    as [->|[->|[Hu Hn]]] by (destruct track; auto);
    [intros w; eexists _, _; by split | intros w; eexists _, _; by split |].
  unfold enhanceTrackData. rewrite get_own by done.
  eapply fails_bind_r;
    [apply (returns_lift _ (λ id, id = own track "id")); reflexivity|].
  intros id ->.
  eapply fails_bind_r; [apply track_id_returns|]. intros track_id _.
  cbv zeta.
  destruct (coercible (own track "popularity")) eqn:Hcpop.
  2:{ rewrite js_parseInt_throws by done. by apply fails_bind_l, fails_lift. }
  rewrite js_parseInt_ok by done.
  eapply fails_bind_r; [apply (returns_lift _ (λ _, True)); done|]. intros ? _.
  eapply fails_bind_r; [apply returns_or_else, returns_random_below|].
  intros popularity _.
  destruct (coercible (own track "play_count")) eqn:Hcplay.
  2:{ rewrite js_parseInt_throws by done. by apply fails_bind_l, fails_lift. }
  rewrite js_parseInt_ok by done.
  eapply fails_bind_r; [apply (returns_lift _ (λ _, True)); done|]. intros ? _.
  eapply fails_bind_r; [apply returns_or_else, returns_random_below|].
  intros play_count _.
  destruct (coercible (own track "duration")) eqn:Hcdur.
  2:{ rewrite js_parseInt_throws by done. by apply fails_bind_l, fails_lift. }
  rewrite js_parseInt_ok by done.
  eapply fails_bind_r; [apply (returns_lift _ (λ _, True)); done|]. intros ? _.
  eapply fails_bind_r;
    [apply returns_or_else, (returns_ret _ (λ z, z = 180000)); reflexivity|].
  intros duration_ms _.
  assert (Hconds :
    texts_readable track && text_or_absent (own track "image") = false).
  { destruct (texts_readable track && text_or_absent (own track "image")) eqn:Hc;
      [|done].
    apply andb_prop in Hc as [Ht Hi].
    destruct (texts_readable_inv _ Ht) as (Hl & Hti & Ha).
    assert (normalisable track = true); [|congruence].
    unfold normalisable. rewrite Hcpop, Hcplay, Hcdur, Hl, Hti, Ha, Hi. by destruct track. }
  destruct (text_or_absent (own track "image")) eqn:Himage.
  - eapply fails_bind_r; [by apply image_url_returns|]. intros image_url _.
    apply fails_bind_l, determineGenre_fails; [done | done |].
    by rewrite andb_true_r in Hconds.
  - apply fails_bind_l.
    destruct (own track "image") as [| |b|q|s|items|props]; simpl in *; try done.
    + destruct b; [|done]. by apply fails_throw.
    + destruct (Qeq_bool q 0); [done|]. by apply fails_throw.
    + by apply fails_throw.
    + by apply fails_throw.
Qed.

(** X7.  [enhanceTrackData] returns exactly on the records it can work
    on.  On a record that is neither [null] nor [undefined], whose
    popularity, play count and duration have a primitive value and which
    holds text, if anything, for language, title, album and image, it
    returns an object with the nineteen fields in their fixed order; the identity and display
    fields (id, name, artist, album, image, language, genre, release date,
    label, growth rate) are never empty, the duration is never 0, the
    source is ["jiosaavn_api"], and the service and the list of requests are
    untouched.  On any other record it throws a [TypeError]. *)
Theorem enhanceTrackData_fills_every_field track w :
  (normalisable track = true →
   ∃ fields w',
     enhanceTrackData E track w = (Return (VObj fields), w') ∧
     fields.*1 = track_fields ∧
     Forall (λ k, truthy (lookup_prop k fields) = true)
       ["track_id"; "track_name"; "artist"; "album"; "image_url"; "language";
        "genre"; "release_date"; "label"; "growth_rate"; "source"] ∧
     lookup_prop "source" fields = VStr "jiosaavn_api" ∧
     (∃ d, lookup_prop "duration_ms" fields = VInt d ∧ d ≠ 0) ∧
     this w' = this w ∧ sent w' = sent w) ∧
  (normalisable track = false →
   ∃ e w', enhanceTrackData E track w = (Throw e, w') ∧ exn_name e = "TypeError").
Proof.
  split.
  - intros Hok.
    destruct (enhanceTrackData_spec track Hok w)
      as (v & w' & Hrun &
          (track_id & popularity & play_count & duration_ms & image_url & genre &
           growth & listeners & fetched & -> & Hid & _ & _ & _ & Hdur & Himg & Hgenre & _)).
    eexists _, w'. split; [exact Hrun|]. split; [reflexivity|]. split.
    { repeat (apply Forall_cons; split); try apply Forall_nil; simpl;
        try exact Hid; try exact Himg; try (by apply truthy_or); try done.
      unfold genres in Hgenre. rewrite !elem_of_cons, elem_of_nil in Hgenre.
      destruct Hgenre as [->|[->|[->|[->|[->|[->|[]]]]]]]; done. }
    split; [reflexivity|]. split.
    { exists duration_ms. split; [reflexivity|].
      destruct Hdur as [(d & _ & Hd & ->)|[_ ->]]; lia. }
    destruct (reads_only_enhanceTrackData E track w) as (Hthis & _ & _ & _ & Hsent).
    rewrite Hrun in Hthis, Hsent. done.
  - intros Hbad. exact (enhanceTrackData_fails track Hbad w).
Qed.

Lemma floor_of_draw (r : Q) (n : Z) :
  (0 <= r)%Q → (r < 1)%Q → 0 < n → 0 ≤ Qfloor (r * inject_Z n) < n.
Proof.
  intros Hr0 Hr1 Hn.
  assert (Hn' : (0 < inject_Z n)%Q) by (change 0%Q with (inject_Z 0); by rewrite <- Zlt_Qlt).
  split.
  - change 0 with (Qfloor (inject_Z 0)) at 1. apply Qfloor_resp_le.
    change (inject_Z 0) with 0%Q. apply Qmult_le_0_compat; [done|]. by apply Qlt_le_weak.
  - rewrite Zlt_Qlt.
    eapply Qle_lt_trans; [apply Qfloor_le|].
    apply Qlt_le_trans with (1 * inject_Z n)%Q; [by apply Qmult_lt_compat_r|].
    rewrite Qmult_1_l. apply Qle_refl.
Qed.

(** X8.  With [Math.random()] in the unit interval, on a record that
    [enhanceTrackData] can work on, the numbers that it makes up are in
    range: [listeners] lies between
    10000 and 109999, [growth_rate] reads ["+g%"] with [g] from 0 to 19, and
    a popularity or a play count that the backend left out, sent unparsable
    or sent as 0 is replaced by a draw from 0 to 99, respectively 0 to
    999999; one that parses to a number other than 0 is kept. *)
Theorem enhanceTrackData_numbers_in_range track w :
  unit_interval E →
  normalisable track = true →
  ∃ v w',
    enhanceTrackData E track w = (Return v, w') ∧
    (∃ l, own v "listeners" = VInt l ∧ 10000 ≤ l ≤ 109999) ∧
    (∃ g, own v "growth_rate" = VStr ("+" +:+ pretty g +:+ "%") ∧ 0 ≤ g ≤ 19) ∧
    (∃ p, own v "popularity" = VInt p ∧
       match parseInt E (own track "popularity") with
       | Some z => if z =? 0 then 0 ≤ p ≤ 99 else p = z
       | None => 0 ≤ p ≤ 99
       end) ∧
    (∃ c, own v "play_count" = VInt c ∧
       match parseInt E (own track "play_count") with
       | Some z => if z =? 0 then 0 ≤ c ≤ 999999 else c = z
       | None => 0 ≤ c ≤ 999999
       end).
Proof.
  intros Hunit Hok.
  assert (Hdraw : ∀ k n, 0 < n → 0 ≤ Qfloor (Math_random E k * inject_Z n) < n).
  { intros k n Hn. destruct (Hunit k). by apply floor_of_draw. }
  destruct (enhanceTrackData_spec track Hok w)
    as (v & w' & Hrun &
        (track_id & popularity & play_count & duration_ms & image_url & genre &
         growth & listeners & fetched & -> & _ & _ & Hpop & Hplay & _ & _ & _ &
         [kg Hgrowth] & [kl Hlisteners])).
  assert (0 ≤ growth < 20) by (subst growth; by apply Hdraw).
  assert (0 ≤ listeners < 100000) by (subst listeners; by apply Hdraw).
  assert (Hp : (parseInt E (own track "popularity") = None ∨
                parseInt E (own track "popularity") = Some 0) →
               (∃ k, popularity = Qfloor (Math_random E k * inject_Z 100)) →
               0 ≤ popularity ≤ 99).
  { intros _ [k ->]. pose proof (Hdraw k 100 ltac:(lia)). lia. }
  assert (Hc : (parseInt E (own track "play_count") = None ∨
                parseInt E (own track "play_count") = Some 0) →
               (∃ k, play_count = Qfloor (Math_random E k * inject_Z 1000000)) →
               0 ≤ play_count ≤ 999999).
  { intros _ [k ->]. pose proof (Hdraw k 1000000 ltac:(lia)). lia. }
  eexists _, w'. split; [exact Hrun|].
  split. { exists (listeners + 10000). split; [reflexivity | lia]. }
  split. { exists growth. split; [reflexivity | lia]. }
  split.
  - exists popularity. split; [reflexivity|].
    destruct Hpop as [[-> Hnz]|[Hnone Hk]].
    + by destruct (Z.eqb_spec popularity 0).
    + specialize (Hp Hnone Hk). by destruct Hnone as [->| ->].
  - exists play_count. split; [reflexivity|].
    destruct Hplay as [[-> Hnz]|[Hnone Hk]].
    + by destruct (Z.eqb_spec play_count 0).
    + specialize (Hc Hnone Hk). by destruct Hnone as [->| ->].
Qed.

(** X9.  [determineGenre] neither reads the clock nor draws a number and
    leaves the world as it is.  It returns exactly on the records it can
    work on: those, other than [null] and [undefined], whose language,
    title and album hold text, if anything, and whose popularity has a
    primitive value or is not looked at because the title or the album
    decides.  On such a record it answers one of six genres; it answers
    ["remix"] exactly when the lowered title or album contains "remix",
    whatever the language and the popularity; and it answers a genre of
    language (["bollywood"], ["south_indian"], ["punjabi"]) only for the
    languages of that genre, ["regional"] only for a language outside all
    of them.  On every other record it throws a [TypeError]. *)
Theorem determineGenre_classifies track w :
  (classifiable E track = true →
   ∃ g, determineGenre E track w = (Return g, w) ∧
     let language := toLowerCase E (text_of (js_or (own track "language") (VStr ""))) in
     let title :=
       toLowerCase E
         (text_of (js_or (js_or (own track "song") (own track "track_name")) (VStr ""))) in
     let album := toLowerCase E (text_of (js_or (own track "album") (VStr ""))) in
     g ∈ genres ∧
     (includes "remix" title || includes "remix" album = true ↔ g = "remix") ∧
     (g = "bollywood" → language = "hindi") ∧
     (g = "south_indian" → language ∈ ["tamil"; "telugu"; "malayalam"; "kannada"]) ∧
     (g = "punjabi" → language = "punjabi") ∧
     (g = "regional" →
        language ∉ ["hindi"; "tamil"; "telugu"; "malayalam"; "kannada"; "punjabi"])) ∧
  (classifiable E track = false →
   ∃ e, determineGenre E track w = (Throw e, w) ∧ exn_name e = "TypeError").
Proof.
  assert (Hcases :
    track = VUndefined ∨ track = VNull ∨
    (track ≠ VUndefined ∧ track ≠ VNull ∧
     classifiable E track =
       texts_readable track
       && (decided_by_text E track || coercible (own track "popularity"))))
    by (destruct track; auto).
  split.
  - intros Hok. destruct Hcases as [->|[->|(Hu & Hn & Heq)]]; [done | done |].
    rewrite Heq in Hok. apply andb_prop in Hok as [Htexts Hdecided].
    by apply determineGenre_run.
  - intros Hbad.
    destruct Hcases as [->|[->|(Hu & Hn & Heq)]];
      [eexists; by split | eexists; by split |].
    rewrite Heq in Hbad.
    destruct (texts_readable track) eqn:Htexts.
    + simpl in Hbad. apply orb_false_elim in Hbad as [Hdecided Hpop].
      destruct (texts_readable_inv track Htexts) as (Hlang & Htitle & Halbum).
      unfold decided_by_text in Hdecided.
      apply orb_false_elim in Hdecided as [Hremix Htrending].
      unfold determineGenre. simpl. rewrite get_own by done. simpl.
      rewrite !lower_text by done. simpl.
      rewrite Hremix, Htrending. rewrite js_gt_throws by done.
      eexists. by split.
    + unfold texts_readable in Htexts.
      unfold determineGenre. simpl. rewrite get_own by done. simpl.
      destruct (text_or_absent (own track "language")) eqn:Hlang.
      2:{ destruct (lower_not_text _ Hlang) as (e & -> & He). by exists e. }
      rewrite lower_text by done. simpl.
      destruct (text_or_absent (js_or (own track "song") (own track "track_name")))
        eqn:Htitle.
      2:{ destruct (lower_not_text _ Htitle) as (e & -> & He). by exists e. }
      rewrite lower_text by done. simpl.
      simpl in Htexts.
      destruct (lower_not_text _ Htexts) as (e & -> & He). by exists e.
Qed.

End Normalise.

(** A popularity that has no primitive value: [parseInt] throws in
    [enhanceTrackData], the comparison throws in [determineGenre], unless
    the title has decided before. *)
Lemma unconvertible_popularity_throws :
  let popularity := VObj [("toString", VInt 1)] in
  fst (enhanceTrackData live_env (VObj [("popularity", popularity)]) (fresh_world tt))
    = Throw not_primitive ∧
  fst (determineGenre live_env (VObj [("popularity", popularity)]) (fresh_world tt))
    = Throw not_primitive ∧
  fst (determineGenre live_env
         (VObj [("song", VStr "trending now"); ("popularity", popularity)])
         (fresh_world tt))
    = Return "trending".
Proof. repeat split. Qed.

(** *** The live connection over any run of events *)

Section Runs.
Context {App : Type} (E : Env).
Implicit Types (w : World App) (cbs : Callbacks App).

Lemma ws_onmessage_eq cbs parsed w :
  ws_onmessage cbs parsed w =
  (Return tt,
   match parsed with
   | Return data =>
       match get data "type", onMessage cbs with
       | Return _, Some f => with_app (f data) w
       | _, _ => w
       end
   | Throw _ => w
   end).
Proof.
  unfold ws_onmessage. simpl. destruct parsed as [data|e]; simpl; [|done].
  destruct (get data "type"); simpl; [|done]. by destruct (onMessage cbs).
Qed.

Lemma reconnect_eq cbs w :
  snd (reconnect E cbs w) =
  snd (connectWebSocket E cbs
         (with_this (λ s, set_reconnectAttempts (reconnectAttempts s + 1) s) w)).
Proof. unfold reconnect. simpl. by destruct (connectWebSocket E cbs _). Qed.

(** The successor of a world under each event, spelled out. *)
Lemma step_spec ev w w' :
  step E ev w = Some w' →
  match ev with
  | SocketOpens id =>
      ∃ s, sockets w !! id = Some s ∧ readyState s = CONNECTING ∧
           w' = mkWorld (mkService (ws (this w)) true 0 (cache (this w)))
                  (alter (set_readyState OPEN) id (sockets w)) (timers w)
                  (notified (handlers s) true (app w)) (ticks w) (draws w) (sent w)
  | SocketMessage id parsed =>
      ∃ s, sockets w !! id = Some s ∧ readyState s = OPEN ∧
           w' = snd (ws_onmessage (handlers s) parsed w)
  | SocketError id => w' = w
  | SocketCloses id =>
      ∃ s, sockets w !! id = Some s ∧ readyState s ≠ CLOSED ∧
           w' = mkWorld (set_wsConnected false (this w))
                  (alter (set_readyState CLOSED) id (sockets w))
                  (if bool_decide (reconnectAttempts (this w) < maxReconnectAttempts)
                   then timers w ++ [mkTimer (3000 * reconnectAttempts (this w)) (handlers s)]
                   else timers w)
                  (notified (handlers s) false (app w)) (ticks w) (draws w) (sent w)
  | TimerFires k =>
      ∃ t, timers w !! k = Some t ∧
           w' = snd (connectWebSocket E (closure t)
                       (mkWorld (set_reconnectAttempts (reconnectAttempts (this w) + 1) (this w))
                          (sockets w) (delete k (timers w)) (app w)
                          (ticks w) (draws w) (sent w)))
  | CallConnect cbs => w' = snd (connectWebSocket E cbs w)
  | CallDisconnect => w' = snd (disconnectWebSocket w)
  | AppDoes f => w' = with_app f w
  end.
Proof.
  intros Hstep. destruct ev as [k|k parsed|k|k|k|cbs| |f]; cbn [step] in Hstep.
  - destruct (sockets w !! k) as [sk|] eqn:Hk; cbn [mbind option_bind] in Hstep; [|done].
    case_bool_decide; [|done]. injection Hstep as <-.
    exists sk. split; [done|]. split; [done|].
    exact (ws_onopen_eq (handlers sk) (with_sockets (alter (set_readyState OPEN) k) w)).
  - destruct (sockets w !! k) as [sk|] eqn:Hk; cbn [mbind option_bind] in Hstep; [|done].
    case_bool_decide; [|done]. injection Hstep as <-. by exists sk.
  - destruct (sockets w !! k) as [sk|] eqn:Hk; cbn [mbind option_bind] in Hstep; [|done].
    case_bool_decide; [done|]. by injection Hstep as <-.
  - destruct (sockets w !! k) as [sk|] eqn:Hk; cbn [mbind option_bind] in Hstep; [|done].
    case_bool_decide; [done|]. injection Hstep as <-.
    exists sk. split; [done|]. split; [done|].
    exact (ws_onclose_eq (handlers sk) (with_sockets (alter (set_readyState CLOSED) k) w)).
  - destruct (timers w !! k) as [t|] eqn:Hk; cbn [mbind option_bind] in Hstep; [|done].
    injection Hstep as <-. exists t. split; [done|].
    exact (reconnect_eq (closure t) (with_timers (delete k) w)).
  - by injection Hstep as <-.
  - by injection Hstep as <-.
  - by injection Hstep as <-.
Qed.

Lemma connectWebSocket_sockets cbs w :
  (∀ id s, sockets w !! id = Some s →
     sockets (snd (connectWebSocket E cbs w)) !! id = Some s) ∧
  (length (sockets w) ≤ length (sockets (snd (connectWebSocket E cbs w))))%nat ∧
  ((∀ id, ws (this w) = Some id → (id < length (sockets w))%nat) →
   ∀ id, ws (this (snd (connectWebSocket E cbs w))) = Some id →
         (id < length (sockets (snd (connectWebSocket E cbs w))))%nat).
Proof.
  rewrite connectWebSocket_eq.
  destruct (ws_is_open w); [done|]. destruct (WebSocket_throws E); [done|]. simpl.
  split; [intros id s Hs; by apply lookup_app_l_Some|].
  rewrite length_app. simpl. split; [lia|]. intros _ id [= <-]. lia.
Qed.

(** What a step does to the sockets: none is removed, none changes its
    callbacks, a closed one stays closed, and the handle stays among
    them. *)
Lemma step_sockets ev w w' :
  step E ev w = Some w' →
  (length (sockets w) ≤ length (sockets w'))%nat ∧
  (∀ id s, sockets w !! id = Some s →
     ∃ s', sockets w' !! id = Some s' ∧ handlers s' = handlers s ∧
           (readyState s = CLOSED → readyState s' = CLOSED)) ∧
  ((∀ id, ws (this w) = Some id → (id < length (sockets w))%nat) →
   ∀ id, ws (this w') = Some id → (id < length (sockets w'))%nat).
Proof.
  assert (Halter : ∀ (f : Socket App → Socket App) k (l : list (Socket App)) id s,
            (∀ x, handlers (f x) = handlers x) →
            (∀ x, l !! k = Some x → readyState x = CLOSED → readyState (f x) = CLOSED) →
            l !! id = Some s →
            ∃ s', alter f k l !! id = Some s' ∧ handlers s' = handlers s ∧
                  (readyState s = CLOSED → readyState s' = CLOSED)).
  { intros f k l id s Hh Hc Hs. destruct (decide (id = k)) as [->|Hne].
    - exists (f s). rewrite list_lookup_alter_eq, Hs. split; [done|]. split; [apply Hh|].
      by apply Hc.
    - exists s. by rewrite list_lookup_alter_ne. }
  intros Hstep. apply step_spec in Hstep.
  destruct ev as [k|k parsed|k|k|k|cbs| |f].
  - destruct Hstep as (sk & Hk & Hstate & ->). simpl. rewrite length_alter.
    split; [lia|]. split; [|auto]. intros id s Hs.
    apply Halter; [done | | done]. intros x Hx Hclosed. congruence.
  - destruct Hstep as (sk & Hk & Hstate & ->). rewrite ws_onmessage_eq. simpl.
    destruct parsed as [data|e]; [destruct (get data "type"); [destruct (onMessage (handlers sk))|]|];
      (simpl; split; [lia|]; split; [intros id s Hs; by exists s | auto]).
  - subst w'. split; [lia|]. split; [intros id s Hs; by exists s | auto].
  - destruct Hstep as (sk & Hk & Hstate & ->). simpl. rewrite length_alter.
    split; [lia|]. split; [|auto]. intros id s Hs. by apply Halter.
  - destruct Hstep as (t & Ht & ->).
    match goal with |- context [connectWebSocket E ?c ?w0] =>
      destruct (connectWebSocket_sockets c w0) as (Hkeep & Hlen & Hhandle)
    end.
    split; [exact Hlen|]. split; [|exact Hhandle].
    intros id s Hs. exists s. split; [by apply Hkeep | done].
  - subst w'. destruct (connectWebSocket_sockets cbs w) as (Hkeep & Hlen & Hhandle).
    split; [exact Hlen|]. split; [|exact Hhandle].
    intros id s Hs. exists s. split; [by apply Hkeep | done].
  - subst w'. unfold disconnectWebSocket.
    destruct (ws (this w)) as [k|] eqn:Hws; simpl.
    + rewrite length_alter. split; [lia|]. split; [|done].
      intros id s Hs. apply Halter; [by intros [[] ?] | | done].
      intros x _ Hclosed. unfold close. by rewrite Hclosed.
    + split; [lia|]. split; [intros id s Hs; by exists s|].
      intros _ id Hid. congruence.
  - subst w'. simpl. split; [lia|]. split; [intros id s Hs; by exists s | auto].
Qed.

(** X10.  Along any run of events, from any world: no socket is ever
    removed from the client's view, every socket keeps the callbacks it
    was created with whoever calls [connectWebSocket] afterwards, a socket
    that has closed stays closed, and [this.ws], when it is not [null],
    keeps pointing at one of the sockets. *)
Theorem sockets_keep_their_callbacks evs w w' :
  run E evs w = Some w' →
  (length (sockets w) ≤ length (sockets w'))%nat ∧
  (∀ id s, sockets w !! id = Some s →
     ∃ s', sockets w' !! id = Some s' ∧ handlers s' = handlers s ∧
           (readyState s = CLOSED → readyState s' = CLOSED)) ∧
  ((∀ id, ws (this w) = Some id → (id < length (sockets w))%nat) →
   ∀ id, ws (this w') = Some id → (id < length (sockets w'))%nat).
Proof.
  revert w. induction evs as [|ev evs IH]; intros w Hrun.
  - injection Hrun as <-. split; [done|]. split; [|done]. intros id s Hs. by exists s.
  - simpl in Hrun. destruct (step E ev w) as [w1|] eqn:Hstep; [|done]. simpl in Hrun.
    destruct (IH w1 Hrun) as (Hlen & Hkeep & Hhandle).
    destruct (step_sockets ev w w1 Hstep) as (Hlen1 & Hkeep1 & Hhandle1).
    split; [lia|]. split.
    + intros id s Hs.
      destruct (Hkeep1 id s Hs) as (s1 & Hs1 & Hh1 & Hc1).
      destruct (Hkeep id s1 Hs1) as (s' & Hs' & Hh' & Hc').
      exists s'. split; [done|]. split; [congruence | auto].
    + intros Hin. apply Hhandle. by apply Hhandle1.
Qed.

Lemma connectWebSocket_frame cbs w :
  reconnectAttempts (this (snd (connectWebSocket E cbs w))) = reconnectAttempts (this w) ∧
  timers (snd (connectWebSocket E cbs w)) = timers w ∧
  app (snd (connectWebSocket E cbs w)) = app w ∧
  cache (this (snd (connectWebSocket E cbs w))) = cache (this w).
Proof.
  rewrite connectWebSocket_eq.
  destruct (ws_is_open w); [done|]. by destruct (WebSocket_throws E).
Qed.

Lemma step_delays (P : Z → Prop) ev w w' :
  (∀ k, 0 ≤ k < maxReconnectAttempts → P (3000 * k)) →
  step E ev w = Some w' →
  0 ≤ reconnectAttempts (this w) → Forall (λ t, P (delay t)) (timers w) →
  0 ≤ reconnectAttempts (this w') ∧ Forall (λ t, P (delay t)) (timers w').
Proof.
  intros HP Hstep Hcount Htimers. apply step_spec in Hstep.
  destruct ev as [k|k parsed|k|k|k|cbs| |f].
  - destruct Hstep as (sk & _ & _ & ->). done.
  - destruct Hstep as (sk & _ & _ & ->).
    destruct (ws_onmessage_frame (handlers sk) parsed w) as [-> ->]. done.
  - by subst w'.
  - destruct Hstep as (sk & _ & _ & ->). simpl. split; [done|].
    case_bool_decide; [|done].
    apply Forall_app. split; [done|]. apply Forall_singleton. simpl. by apply HP.
  - destruct Hstep as (t & Ht & ->).
    match goal with |- context [connectWebSocket E ?c ?w0] =>
      destruct (connectWebSocket_frame c w0) as (-> & -> & _)
    end.
    simpl. split; [lia|]. by apply Forall_delete.
  - subst w'. by destruct (connectWebSocket_frame cbs w) as (-> & -> & _).
  - subst w'. unfold disconnectWebSocket. by destruct (ws (this w)).
  - by subst w'.
Qed.

(** X11.  In every state the client can reach from a new service, by any
    sequence of events and calls, the reconnect counter is not negative and
    every pending reconnect waits 0, 3, 6, 9 or 12 seconds: no reconnect is
    ever scheduled with a longer delay. *)
Theorem reconnect_delays_are_bounded evs (a : App) w :
  run E evs (fresh_world a) = Some w →
  0 ≤ reconnectAttempts (this w) ∧
  Forall (λ t, delay t ∈ [0; 3000; 6000; 9000; 12000]) (timers w).
Proof.
  assert (Hinv : ∀ evs w0 w1,
            run E evs w0 = Some w1 →
            0 ≤ reconnectAttempts (this w0) →
            Forall (λ t, delay t ∈ [0; 3000; 6000; 9000; 12000]) (timers w0) →
            0 ≤ reconnectAttempts (this w1) ∧
            Forall (λ t, delay t ∈ [0; 3000; 6000; 9000; 12000]) (timers w1)).
  { clear. intros evs. induction evs as [|ev evs IH]; intros w0 w1 Hrun Hcount Htimers.
    - by injection Hrun as <-.
    - simpl in Hrun. destruct (step E ev w0) as [w2|] eqn:Hstep; [|done]. simpl in Hrun.
      destruct (step_delays (λ d, d ∈ [0; 3000; 6000; 9000; 12000]) ev w0 w2)
        as [Hcount2 Htimers2]; try done.
      { intros k Hk. unfold maxReconnectAttempts in Hk.
        assert (k = 0 ∨ k = 1 ∨ k = 2 ∨ k = 3 ∨ k = 4) as [->|[->|[->|[->| ->]]]] by lia;
          simpl; rewrite !elem_of_cons; auto 10. }
      by apply (IH w2). }
  intros Hrun. apply (Hinv evs (fresh_world a) w Hrun); [done|]. apply Forall_nil_2.
Qed.

(** X12.  [disconnectWebSocket] does not stop the reconnecting.  When the
    service holds a socket that has not closed and the counter is under the
    cap, then after [disconnectWebSocket] (which leaves [this.ws] at
    [null]) the close event of that socket still schedules a reconnect, with
    the callbacks of that socket, and when the timer fires the service
    holds a new connecting socket with those callbacks, the counter one
    higher. *)
Theorem disconnect_does_not_stop_reconnecting w id s :
  WebSocket_throws E = None →
  ws (this w) = Some id →
  sockets w !! id = Some s →
  readyState s ≠ CLOSED →
  reconnectAttempts (this w) < maxReconnectAttempts →
  ∃ w1 w2 w3,
    step E CallDisconnect w = Some w1 ∧
    ws (this w1) = None ∧
    step E (SocketCloses id) w1 = Some w2 ∧
    timers w2 = (timers w ++ [mkTimer (3000 * reconnectAttempts (this w)) (handlers s)])%list ∧
    step E (TimerFires (length (timers w))) w2 = Some w3 ∧
    ws (this w3) = Some (length (sockets w)) ∧
    sockets w3 !! length (sockets w) = Some (mkSocket CONNECTING (handlers s)) ∧
    reconnectAttempts (this w3) = reconnectAttempts (this w) + 1 ∧
    timers w3 = timers w.
Proof.
  intros Hctor Hws Hs Hstate Hbudget.
  assert (Hclose : handlers (close s) = handlers s ∧ readyState (close s) ≠ CLOSED).
  { unfold close. destruct (readyState s) eqn:Hr; simpl; split; congruence. }
  destruct Hclose as [Hhandlers Hopen].
  set (w1 := mkWorld (mkService None false (reconnectAttempts (this w)) (cache (this w)))
               (alter close id (sockets w)) (timers w) (app w) (ticks w) (draws w) (sent w)).
  set (w2 := mkWorld (this w1) (alter (set_readyState CLOSED) id (sockets w1))
               (timers w ++ [mkTimer (3000 * reconnectAttempts (this w)) (handlers s)])
               (notified (handlers s) false (app w)) (ticks w) (draws w) (sent w)).
  set (w3 := mkWorld (mkService (Some (length (sockets w))) false
                        (reconnectAttempts (this w) + 1) (cache (this w)))
               (sockets w2 ++ [mkSocket CONNECTING (handlers s)])
               (timers w) (app w2) (ticks w) (draws w) (sent w)).
  assert (Hstep1 : step E CallDisconnect w = Some w1).
  { cbn [step]. f_equal. unfold after, disconnectWebSocket. by rewrite Hws. }
  assert (Hstep2 : step E (SocketCloses id) w1 = Some w2).
  { cbn [step]. subst w1. cbn [sockets]. rewrite list_lookup_alter_eq, Hs.
    cbn [fmap option_fmap option_map mbind option_bind].
    rewrite bool_decide_eq_false_2 by exact Hopen. f_equal.
    unfold after. rewrite ws_onclose_eq. subst w2. simpl.
    rewrite bool_decide_eq_true_2 by exact Hbudget. by rewrite Hhandlers. }
  assert (Hstep3 : step E (TimerFires (length (timers w))) w2 = Some w3).
  { cbn [step]. subst w2. cbn [timers].
    rewrite lookup_app_r by done. rewrite Nat.sub_diag.
    cbn [lookup list_lookup mbind option_bind closure]. f_equal.
    unfold after. rewrite reconnect_eq, connectWebSocket_eq.
    unfold ws_is_open. simpl. rewrite Hctor. subst w3. simpl.
    by rewrite !length_alter, (delete_middle (timers w) []), app_nil_r. }
  exists w1, w2, w3.
  split; [exact Hstep1|]. split; [done|]. split; [exact Hstep2|]. split; [done|].
  split; [exact Hstep3|]. split; [done|]. split; [|done].
  subst w3 w2 w1. simpl.
  rewrite lookup_app_r by (rewrite !length_alter; lia).
  by rewrite !length_alter, Nat.sub_diag.
Qed.

(** X13.  The message handler never throws and never changes the service,
    the sockets or the timers.  A frame that is not JSON, or that parses to
    [null], does not reach the callback: the world is left exactly as it
    was.  Any other parsed value is handed to the message callback, if
    there is one, whatever its [type]. *)
Theorem malformed_message_is_dropped cbs parsed w :
  fst (ws_onmessage cbs parsed w) = Return tt ∧
  this (snd (ws_onmessage cbs parsed w)) = this w ∧
  sockets (snd (ws_onmessage cbs parsed w)) = sockets w ∧
  timers (snd (ws_onmessage cbs parsed w)) = timers w ∧
  ((∃ e, parsed = Throw e) ∨ parsed = Return VNull ∨ parsed = Return VUndefined →
   snd (ws_onmessage cbs parsed w) = w) ∧
  (∀ data f, parsed = Return data → data ≠ VNull → data ≠ VUndefined →
     onMessage cbs = Some f →
     snd (ws_onmessage cbs parsed w) = with_app (f data) w).
Proof.
  rewrite ws_onmessage_eq. simpl. split; [done|].
  destruct parsed as [data|e].
  - destruct (get data "type") as [type|e] eqn:Htype.
    + destruct (onMessage cbs) as [f|] eqn:Hcb; simpl;
        (do 3 (split; [done|])); (split; [intros [[e [=]]|[[= ->]|[= ->]]]; done|]).
      * by intros data' f' [= <-] _ _ [= <-].
      * by intros data' f' _ _ _ [=].
    + do 3 (split; [done|]). split; [done|].
      intros data' f' [= <-] Hn Hu. by destruct data.
  - do 3 (split; [done|]). split; [done|]. by intros data' f' [=].
Qed.

(** X14.  [connectWebSocket] is idempotent only against an open socket.
    A call made while the socket of an earlier call is still connecting
    makes a second socket and takes that one into [this.ws]; the first is
    neither closed nor forgotten by the event loop: it stays in the
    connecting state with its callbacks.  Called again once the held socket
    is open, the method changes nothing. *)
Theorem connect_twice_makes_two_sockets cbs1 cbs2 w :
  WebSocket_throws E = None →
  ws_is_open w = false →
  let w1 := snd (connectWebSocket E cbs1 w) in
  let w2 := snd (connectWebSocket E cbs2 w1) in
  sockets w2 = (sockets w ++ [mkSocket CONNECTING cbs1; mkSocket CONNECTING cbs2])%list ∧
  ws (this w2) = Some (S (length (sockets w))) ∧
  (∀ w3, step E (SocketOpens (S (length (sockets w)))) w2 = Some w3 →
     snd (connectWebSocket E cbs1 w3) = w3).
Proof.
  intros Hctor Hclosed w1 w2.
  assert (Hw1 : w1 = mkWorld (set_ws (Some (length (sockets w))) (this w))
                       (sockets w ++ [mkSocket CONNECTING cbs1])
                       (timers w) (app w) (ticks w) (draws w) (sent w)).
  { subst w1. by rewrite connectWebSocket_eq, Hclosed, Hctor. }
  assert (Hw2 : w2 = mkWorld (set_ws (Some (S (length (sockets w)))) (this w))
                       (sockets w ++ [mkSocket CONNECTING cbs1; mkSocket CONNECTING cbs2])
                       (timers w) (app w) (ticks w) (draws w) (sent w)).
  { subst w2. rewrite connectWebSocket_eq, Hctor.
    assert (ws_is_open w1 = false) as ->.
    { rewrite Hw1. unfold ws_is_open. simpl.
      rewrite lookup_app_r by done. by rewrite Nat.sub_diag. }
    rewrite Hw1. simpl. rewrite length_app, <- app_assoc. simpl.
    by rewrite Nat.add_1_r. }
  rewrite Hw2. split; [done|]. split; [done|].
  intros w3 Hopen. apply step_spec in Hopen.
  destruct Hopen as (s & Hs & Hstate & ->).
  rewrite connectWebSocket_eq. unfold ws_is_open. simpl in *.
  rewrite list_lookup_alter_eq, Hs. simpl. done.
Qed.

End Runs.

(** One record normalised, the draws all 0. *)
Lemma enhanceTrackData_numbers_in_range_witness :
  ∃ v w',
    enhanceTrackData sample_env sample_track (fresh_world tt) = (Return v, w') ∧
    (∃ l, own v "listeners" = VInt l ∧ 10000 ≤ l ≤ 109999) ∧
    (∃ g, own v "growth_rate" = VStr ("+" +:+ pretty g +:+ "%") ∧ 0 ≤ g ≤ 19) ∧
    (∃ p, own v "popularity" = VInt p ∧
       match parseInt sample_env (own sample_track "popularity") with
       | Some z => if z =? 0 then 0 ≤ p ≤ 99 else p = z
       | None => 0 ≤ p ≤ 99
       end) ∧
    (∃ c, own v "play_count" = VInt c ∧
       match parseInt sample_env (own sample_track "play_count") with
       | Some z => if z =? 0 then 0 ≤ c ≤ 999999 else c = z
       | None => 0 ≤ c ≤ 999999
       end).
Proof.
  apply (enhanceTrackData_numbers_in_range sample_env sample_track (fresh_world tt)).
  - intros n. split; [discriminate | reflexivity].
  - reflexivity.
Defined.

(** The change of section, event by event. *)
Lemma sockets_keep_their_callbacks_witness :
  ∃ w',
    run live_env section_change mounted_world = Some w' ∧
    (length (sockets mounted_world) ≤ length (sockets w'))%nat ∧
    (∀ id s, sockets mounted_world !! id = Some s →
       ∃ s', sockets w' !! id = Some s' ∧ handlers s' = handlers s ∧
             (readyState s = CLOSED → readyState s' = CLOSED)) ∧
    ((∀ id, ws (this mounted_world) = Some id → (id < length (sockets mounted_world))%nat) →
     ∀ id, ws (this w') = Some id → (id < length (sockets w'))%nat).
Proof.
  destruct (run live_env section_change mounted_world) as [w'|] eqn:Hrun;
    [|by vm_compute in Hrun].
  exists w'. split; [reflexivity|].
  exact (sockets_keep_their_callbacks live_env section_change mounted_world w' Hrun).
Defined.

Lemma reconnect_delays_are_bounded_witness :
  0 ≤ reconnectAttempts (this exhausted_world) ∧
  Forall (λ t, delay t ∈ [0; 3000; 6000; 9000; 12000]) (timers exhausted_world).
Proof.
  apply (reconnect_delays_are_bounded live_env
           [CallConnect (Dashboard.callbacks 0); SocketOpens 0;
            SocketCloses 0; TimerFires 0; SocketCloses 1; TimerFires 0;
            SocketCloses 2; TimerFires 0; SocketCloses 3; TimerFires 0;
            SocketCloses 4; TimerFires 0]
           [Dashboard.initial "2024-01-01T00:00:00.000Z"] exhausted_world).
  reflexivity.
Defined.

Lemma disconnect_does_not_stop_reconnecting_witness :
  ∃ w1 w2 w3,
    step live_env CallDisconnect connected_world = Some w1 ∧
    ws (this w1) = None ∧
    step live_env (SocketCloses 0) w1 = Some w2 ∧
    timers w2 = [mkTimer 0 (Dashboard.callbacks 0)] ∧
    step live_env (TimerFires 0) w2 = Some w3 ∧
    ws (this w3) = Some 1%nat ∧
    sockets w3 !! 1%nat = Some (mkSocket CONNECTING (Dashboard.callbacks 0)) ∧
    reconnectAttempts (this w3) = 1 ∧
    timers w3 = [].
Proof.
  apply (disconnect_does_not_stop_reconnecting live_env connected_world 0
           (mkSocket OPEN (Dashboard.callbacks 0)));
    [reflexivity | reflexivity | reflexivity | discriminate | reflexivity].
Defined.

Lemma connect_twice_makes_two_sockets_witness :
  let w1 := snd (connectWebSocket live_env (Dashboard.callbacks 0) mounted_world) in
  let w2 := snd (connectWebSocket live_env (Dashboard.callbacks 0) w1) in
  sockets w2 = [mkSocket CONNECTING (Dashboard.callbacks 0);
                mkSocket CONNECTING (Dashboard.callbacks 0)] ∧
  ws (this w2) = Some 1%nat ∧
  (∀ w3, step live_env (SocketOpens 1) w2 = Some w3 →
     snd (connectWebSocket live_env (Dashboard.callbacks 0) w3) = w3).
Proof.
  apply (connect_twice_makes_two_sockets live_env (Dashboard.callbacks 0)
           (Dashboard.callbacks 0) mounted_world); reflexivity.
Defined.

(** *** Lists of records *)

Section Lists.
Context {App : Type} (E : Env).
Implicit Types (w : World App).

Lemma returns_map_M {A B} (f : A → M B) (R : A → B → Prop) (items : list A) :
  (∀ a, a ∈ items → returns_with (App:=App) (f a) (R a)) →
  returns_with (map_M f items) (Forall2 R items).
Proof.
  induction items as [|x rest IH]; intros Hf; simpl.
  - apply returns_ret. constructor.
  - eapply returns_bind; [apply Hf; left|]. intros y Hy.
    eapply returns_bind; [apply IH; intros a Ha; apply Hf; by right|]. intros ys Hys.
    apply returns_ret. by constructor.
Qed.

Lemma fails_map_M {A B} (f : A → M B) (P : Exn → Prop) (items : list A) :
  (∀ a, a ∈ items →
     returns_with (App:=App) (f a) (λ _, True) ∨ fails_with (f a) P) →
  Exists (λ a, fails_with (f a) P) items →
  fails_with (map_M f items) P.
Proof.
  induction items as [|x rest IH]; intros Hf Hex; [by apply Exists_nil in Hex|].
  simpl. destruct (Hf x) as [Hx|Hx]; [left | | by apply fails_bind_l].
  apply Exists_cons in Hex as [Hex|Hex]; [by apply fails_bind_l|].
  eapply fails_bind_r; [exact Hx|]. intros y _.
  apply fails_bind_l, IH; [|done]. intros a Ha. apply Hf. by right.
Qed.

Lemma enhanceTrackData_dichotomy track :
  (normalisable track = true ∧
   returns_with (App:=App) (enhanceTrackData E track)
     (λ v, ∃ fields, v = VObj fields ∧ fields.*1 = track_fields ∧
           lookup_prop "source" fields = VStr "jiosaavn_api" ∧
           (truthy (js_or (own track "id") (own track "track_id")) = true →
            lookup_prop "track_id" fields = js_or (own track "id") (own track "track_id")))) ∨
  (normalisable track = false ∧
   fails_with (App:=App) (enhanceTrackData E track) (λ e, exn_name e = "TypeError")).
Proof.
  destruct (normalisable track) eqn:Hok; [left | right]; (split; [done|]).
  - eapply returns_weaken; [by apply enhanceTrackData_spec|].
    intros v (track_id & popularity & play_count & duration_ms & image_url & genre &
              growth & listeners & fetched & -> & _ & Hid & _).
    eexists. split; [reflexivity|]. split; [reflexivity|]. split; [reflexivity|].
    exact Hid.
  - intros w.
    exact (enhanceTrackData_fails E track Hok w).
Qed.

Lemma enhance_all items :
  Forall (λ t, normalisable t = true) items →
  returns_with (App:=App) (map_M (enhanceTrackData E) items)
    (Forall2 (λ t v, ∃ fields, v = VObj fields ∧ fields.*1 = track_fields ∧
                lookup_prop "source" fields = VStr "jiosaavn_api" ∧
                (truthy (js_or (own t "id") (own t "track_id")) = true →
                 lookup_prop "track_id" fields = js_or (own t "id") (own t "track_id")))
             items).
Proof.
  intros Hall. apply returns_map_M. intros t Ht.
  rewrite Forall_forall in Hall. specialize (Hall t Ht).
  destruct (enhanceTrackData_dichotomy t) as [[_ Hret]|[Hbad _]]; [done | congruence].
Qed.

Lemma enhance_some_fails items :
  Exists (λ t, normalisable t = false) items →
  fails_with (App:=App) (map_M (enhanceTrackData E) items)
    (λ e, exn_name e = "TypeError").
Proof.
  intros Hex. apply fails_map_M.
  - intros t _. destruct (enhanceTrackData_dichotomy t) as [[_ Hret]|[_ Hfail]].
    + left. eapply returns_weaken; [exact Hret | done].
    + by right.
  - eapply Exists_impl; [exact Hex|]. intros t Hbad.
    destruct (enhanceTrackData_dichotomy t) as [[Hok _]|[_ Hfail]]; [congruence | done].
Qed.

(** X15.  The ordinary path of [getTrendingTracks].  On a request that
    finds no fresh entry and is answered 2xx with a body whose [success] is
    truthy and whose [tracks] is a list: if every record of the list can be
    normalised, the call returns the body with [tracks] replaced by the
    normalised records, one for each record and in the same order, each
    keeping the id the backend gave, with [source] set to ["api"] and every
    other field of the body as it came, and stores that payload under its
    key; if one record cannot be normalised ([null], say), the whole answer
    is dropped: the call returns what the fallback generator gives and the
    cache is left as it was. *)
Theorem getTrendingTracks_normalises_every_record limit w resp body items :
  fst (isCacheValid E ("trending_" +:+ pretty limit) w) = Return false →
  network E (length (sent w)) = Return resp →
  ok resp = true →
  json resp = Return body →
  truthy (own body "success") = true →
  own body "tracks" = VArr items →
  (Forall (λ t, normalisable t = true) items →
   ∃ result tracks stored,
     fst (getTrendingTracks E limit w) = Return result ∧
     own result "tracks" = VArr tracks ∧
     Forall2 (λ t v, ∃ fields, v = VObj fields ∧ fields.*1 = track_fields ∧
                lookup_prop "source" fields = VStr "jiosaavn_api" ∧
                (truthy (js_or (own t "id") (own t "track_id")) = true →
                 lookup_prop "track_id" fields = js_or (own t "id") (own t "track_id")))
             items tracks ∧
     own result "source" = VStr "api" ∧
     (∀ k, k ∉ ["tracks"; "timestamp"; "source"] → own result k = own body k) ∧
     cache (this (snd (getTrendingTracks E limit w))) !! ("trending_" +:+ pretty limit)
       = Some (mkEntry result stored)) ∧
  (Exists (λ t, normalisable t = false) items →
   ∃ w0,
     getTrendingTracks E limit w = getFallbackTrendingData E limit w0 ∧
     cache (this (snd (getTrendingTracks E limit w))) = cache (this w)).
Proof.
  intros Hmiss Hnet Hok Hjson Hsuccess Htracks.
  rewrite getTrendingTracks_miss by exact Hmiss.
  pose proof (after_check_frame E ("trending_" +:+ pretty limit) w) as [Hthis _].
  set (w1 := after_fetch E _ _ w).
  assert (Hthis1 : this w1 = this w) by exact Hthis.
  destruct body as [| |b|q|s0|its|props]; try done.
  cbn [try_catch bind lift]. rewrite Hnet. cbn [bind]. rewrite Hok. cbn [negb].
  rewrite Hjson. cbn [bind lift get]. simpl in Hsuccess, Htracks.
  cbn [own]. rewrite Hsuccess, Htracks. cbn [negb truthy isArray orb].
  split.
  - intros Hall.
    destruct (enhance_all items Hall w1) as (tracks & w2 & Hrun & Hrel).
    simpl. rewrite Hrun. simpl.
    eexists _, tracks, _. split; [reflexivity|].
    cbn [own spread]. split.
    { rewrite lookup_set_prop_ne, lookup_set_prop_ne by done. apply lookup_set_prop_eq. }
    split; [exact Hrel|]. split; [apply lookup_set_prop_eq|]. split.
    { intros k Hk. rewrite !elem_of_cons, elem_of_nil in Hk.
      rewrite !lookup_set_prop_ne by (intros ->; tauto). done. }
    simpl. apply lookup_insert_eq.
  - intros Hex.
    destruct (enhance_some_fails items Hex w1) as (e & w2 & Hrun & _).
    simpl. rewrite Hrun. simpl. exists w2. split; [reflexivity|].
    destruct (reads_only_getFallbackTrendingData E limit w2) as [-> _].
    destruct (reads_only_run (map_M (enhanceTrackData E) items) w1 _ _
                (reads_only_map_M _ _ (reads_only_enhanceTrackData E)) Hrun) as [-> _].
    by rewrite Hthis1.
Qed.

(** X16.  The ordinary path of [searchTracks].  For a query of two
    characters or more whose request is answered, with any status, by a body
    whose [success] is truthy and whose [tracks] is a list: if every record
    can be normalised, the call returns the normalised records, one for each
    record and in order, with the query and a [total] that is
    [metadata.total] when that is truthy and the number of records
    otherwise; if one record cannot be normalised, the call returns the
    empty result with the message of the [TypeError] as [error]. *)
Theorem searchTracks_normalises_every_record query limit w encoded resp body items :
  (2 ≤ String.length (trim query))%nat →
  encodeURIComponent E query = Return encoded →
  network E (length (sent w)) = Return resp →
  json resp = Return body →
  truthy (own body "success") = true →
  own body "tracks" = VArr items →
  (Forall (λ t, normalisable t = true) items →
   ∃ tracks,
     fst (searchTracks E query limit w)
       = Return (VObj [("tracks", VArr tracks);
                       ("total", js_or (get_opt (own body "metadata") "total")
                                       (VInt (Z.of_nat (length items))));
                       ("query", VStr query)]) ∧
     Forall2 (λ t v, ∃ fields, v = VObj fields ∧ fields.*1 = track_fields ∧
                lookup_prop "source" fields = VStr "jiosaavn_api" ∧
                (truthy (js_or (own t "id") (own t "track_id")) = true →
                 lookup_prop "track_id" fields = js_or (own t "id") (own t "track_id")))
             items tracks) ∧
  (Exists (λ t, normalisable t = false) items →
   ∃ e, fst (searchTracks E query limit w) = Return (error_result e) ∧
        exn_name e = "TypeError").
Proof.
  intros Hlong Hencoded Hnet Hjson Hsuccess Htracks. unfold searchTracks.
  destruct (Nat.ltb_spec (String.length (trim query)) 2) as [?|_]; [lia|].
  assert (truthy (VStr query) = true) as ->.
  { destruct query; [simpl in Hlong; lia | reflexivity]. }
  destruct body as [| |b|q|s0|its|props]; try done.
  simpl in Hsuccess, Htracks.
  unfold fetch. simpl. rewrite Hencoded. simpl. rewrite Hnet. simpl.
  rewrite Hjson. simpl. rewrite Hsuccess, Htracks. simpl.
  set (w1 := mkWorld _ _ _ _ _ _ _).
  split.
  - intros Hall.
    destruct (enhance_all items Hall w1) as (tracks & w2 & Hrun & Hrel).
    rewrite Hrun. simpl. by exists tracks.
  - intros Hex.
    destruct (enhance_some_fails items Hex w1) as (e & w2 & Hrun & He).
    rewrite Hrun. simpl. by exists e.
Qed.

End Lists.

(** *** The cache within its thirty seconds *)

Section CacheTheorem.
Context {App : Type} (E : Env).
Implicit Types (w : World App) (ep : Endpoint).


End CacheTheorem.


Lemma getTrendingTracks_normalises_every_record_witness :
  ∃ result tracks stored,
    fst (getTrendingTracks sample_env 1 (fresh_world tt)) = Return result ∧
    own result "tracks" = VArr tracks ∧
    Forall2 (λ t v, ∃ fields, v = VObj fields ∧ fields.*1 = track_fields ∧
               lookup_prop "source" fields = VStr "jiosaavn_api" ∧
               (truthy (js_or (own t "id") (own t "track_id")) = true →
                lookup_prop "track_id" fields = js_or (own t "id") (own t "track_id")))
            [sample_track] tracks ∧
    own result "source" = VStr "api" ∧
    (∀ k, k ∉ ["tracks"; "timestamp"; "source"] →
       own result k = own (VObj [("success", VBool true); ("tracks", VArr [sample_track])]) k) ∧
    cache (this (snd (getTrendingTracks sample_env 1 (fresh_world tt)))) !! "trending_1"
      = Some (mkEntry result stored).
Proof.
  destruct (getTrendingTracks_normalises_every_record sample_env 1 (fresh_world tt)
              (mkResponse 200 (Return (VObj [("success", VBool true);
                                             ("tracks", VArr [sample_track])])))
              (VObj [("success", VBool true); ("tracks", VArr [sample_track])])
              [sample_track])
    as [Hall _]; try reflexivity.
  apply Hall. by repeat constructor.
Defined.

Lemma searchTracks_normalises_every_record_witness :
  ∃ tracks,
    fst (searchTracks sample_env "kesariya" 20 (fresh_world tt))
      = Return (VObj [("tracks", VArr tracks); ("total", VInt 1);
                      ("query", VStr "kesariya")]) ∧
    Forall2 (λ t v, ∃ fields, v = VObj fields ∧ fields.*1 = track_fields ∧
               lookup_prop "source" fields = VStr "jiosaavn_api" ∧
               (truthy (js_or (own t "id") (own t "track_id")) = true →
                lookup_prop "track_id" fields = js_or (own t "id") (own t "track_id")))
            [sample_track] tracks.
Proof.
  destruct (searchTracks_normalises_every_record sample_env "kesariya" 20 (fresh_world tt)
              "kesariya"
              (mkResponse 200 (Return (VObj [("success", VBool true);
                                             ("tracks", VArr [sample_track])])))
              (VObj [("success", VBool true); ("tracks", VArr [sample_track])])
              [sample_track])
    as [Hall _]; try reflexivity.
  - vm_compute. lia.
  - apply Hall. by repeat constructor.
Defined.

(** *** The fallback list, field by field *)

Section FallbackFields.
Context {App : Type} (E : Env).
Implicit Types (w : World App).

Lemma index_in_range (items : list Value) (k : Z) :
  0 ≤ k < Z.of_nat (length items) → index items k ∈ items.
Proof.
  intros Hk. unfold index.
  destruct (Z.ltb_spec k 0) as [?|_]; [lia|].
  destruct (lookup_lt_is_Some_2 items (Z.to_nat k)) as [v Hv]; [lia|].
  rewrite Hv. simpl. by eapply list_elem_of_lookup_2.
Qed.

(** X17.  With [Math.random()] in the unit interval and a limit from 0 to
    2^32 - 1, [getFallbackTrendingData(limit)] returns [limit] records, the
    one at index [i] named after [i] and [i + 1], with a popularity from 0 to
    99, a play count from 0 to 999999, a language and a genre out of the
    four of each (never [undefined]), no preview, and [source] "fallback";
    the metadata give the limit as [total]; the service and the list of
    requests are untouched. *)
Theorem fallback_tracks_are_well_formed limit w :
  unit_interval E →
  0 ≤ limit ≤ 2 ^ 32 - 1 →
  ∃ tracks metadata w',
    getFallbackTrendingData E limit w
      = (Return (VObj [("success", VBool true); ("tracks", VArr tracks);
                       ("metadata", metadata)]), w') ∧
    Z.of_nat (length tracks) = limit ∧
    (∀ i t, tracks !! i = Some t →
       own t "track_id" = VStr ("fallback_" +:+ pretty i) ∧
       own t "track_name" = VStr ("Trending Song " +:+ pretty (i + 1)%nat) ∧
       own t "artist" = VStr ("Popular Artist " +:+ pretty (i + 1)%nat) ∧
       own t "album" = VStr ("Hit Album " +:+ pretty (i + 1)%nat) ∧
       (∃ p, own t "popularity" = VInt p ∧ 0 ≤ p ≤ 99) ∧
       (∃ c, own t "play_count" = VInt c ∧ 0 ≤ c ≤ 999999) ∧
       own t "language" ∈ [VStr "hindi"; VStr "punjabi"; VStr "tamil"; VStr "telugu"] ∧
       own t "genre" ∈ [VStr "bollywood"; VStr "punjabi"; VStr "south_indian";
                        VStr "trending"] ∧
       own t "preview_url" = VNull ∧
       own t "is_trending" = VBool true ∧
       own t "source" = VStr "fallback") ∧
    own metadata "total" = VInt limit ∧
    own metadata "source" = VStr "fallback" ∧
    this w' = this w ∧ sent w' = sent w.
Proof.
  intros Hunit Hlimit.
  assert (Hdraw : ∀ k n, 0 < n → 0 ≤ Qfloor (Math_random E k * inject_Z n) < n).
  { intros k n Hn. destruct (Hunit k). by apply floor_of_draw. }
  set (R := λ (i : nat) (t : Value),
         own t "track_id" = VStr ("fallback_" +:+ pretty i) ∧
         own t "track_name" = VStr ("Trending Song " +:+ pretty (i + 1)%nat) ∧
         own t "artist" = VStr ("Popular Artist " +:+ pretty (i + 1)%nat) ∧
         own t "album" = VStr ("Hit Album " +:+ pretty (i + 1)%nat) ∧
         (∃ p, own t "popularity" = VInt p ∧ 0 ≤ p ≤ 99) ∧
         (∃ c, own t "play_count" = VInt c ∧ 0 ≤ c ≤ 999999) ∧
         own t "language" ∈ [VStr "hindi"; VStr "punjabi"; VStr "tamil"; VStr "telugu"] ∧
         own t "genre" ∈ [VStr "bollywood"; VStr "punjabi"; VStr "south_indian";
                          VStr "trending"] ∧
         own t "preview_url" = VNull ∧
         own t "is_trending" = VBool true ∧
         own t "source" = VStr "fallback").
  assert (Htrack : ∀ i, returns_with (App:=App) (fallbackTrack E i) (R i)).
  { intros i. unfold fallbackTrack.
    eapply returns_bind; [apply returns_random_below|]. intros popularity [kp Hp].
    eapply returns_bind; [apply returns_random_below|]. intros play_count [kc Hc].
    eapply returns_bind; [apply returns_random_below|]. intros language [kl Hl].
    eapply returns_bind; [apply returns_random_below|]. intros genre [kg Hg].
    apply returns_ret.
    assert (0 ≤ popularity < 100) by (subst popularity; by apply Hdraw).
    assert (0 ≤ play_count < 1000000) by (subst play_count; by apply Hdraw).
    assert (0 ≤ language < 4) by (subst language; by apply Hdraw).
    assert (0 ≤ genre < 4) by (subst genre; by apply Hdraw).
    unfold R. cbn [own lookup_prop String.eqb Ascii.eqb Bool.eqb].
    split; [done|]. split; [done|]. split; [done|]. split; [done|].
    split; [exists popularity; split; [done | lia]|].
    split; [exists play_count; split; [done | lia]|].
    split; [by apply index_in_range|]. split; [by apply index_in_range|]. done. }
  unfold getFallbackTrendingData, Array_from_length.
  assert (ToLength limit = limit) as -> by (unfold ToLength; lia).
  destruct (Z.ltb_spec (2 ^ 32 - 1) limit) as [?|_]; [lia|].
  destruct (returns_map_M (fallbackTrack E) R (seq 0 (Z.to_nat limit))
              (λ i _, Htrack i) w) as (tracks & w1 & Hrun & Hrel).
  simpl. rewrite Hrun. simpl.
  eexists tracks, _, _. split; [reflexivity|].
  pose proof (Forall2_length _ _ _ Hrel) as Hlen. rewrite length_seq in Hlen.
  split; [lia|]. split.
  { intros i t Ht.
    destruct (Forall2_lookup_r _ _ _ _ _ Hrel Ht) as (j & Hj & HR).
    apply lookup_seq in Hj as [-> _]. exact HR. }
  split; [done|]. split; [done|].
  destruct (reads_only_run (map_M (fallbackTrack E) (seq 0 (Z.to_nat limit))) w _ _
              (reads_only_map_M _ _ (reads_only_fallbackTrack E)) Hrun) as [-> ->].
  done.
Qed.

End FallbackFields.

Lemma fallback_tracks_are_well_formed_witness :
  ∃ tracks metadata w',
    getFallbackTrendingData failing_env 2 (fresh_world tt)
      = (Return (VObj [("success", VBool true); ("tracks", VArr tracks);
                       ("metadata", metadata)]), w') ∧
    Z.of_nat (length tracks) = 2 ∧
    (∀ i t, tracks !! i = Some t →
       own t "track_id" = VStr ("fallback_" +:+ pretty i) ∧
       own t "track_name" = VStr ("Trending Song " +:+ pretty (i + 1)%nat) ∧
       own t "artist" = VStr ("Popular Artist " +:+ pretty (i + 1)%nat) ∧
       own t "album" = VStr ("Hit Album " +:+ pretty (i + 1)%nat) ∧
       (∃ p, own t "popularity" = VInt p ∧ 0 ≤ p ≤ 99) ∧
       (∃ c, own t "play_count" = VInt c ∧ 0 ≤ c ≤ 999999) ∧
       own t "language" ∈ [VStr "hindi"; VStr "punjabi"; VStr "tamil"; VStr "telugu"] ∧
       own t "genre" ∈ [VStr "bollywood"; VStr "punjabi"; VStr "south_indian";
                        VStr "trending"] ∧
       own t "preview_url" = VNull ∧
       own t "is_trending" = VBool true ∧
       own t "source" = VStr "fallback") ∧
    own metadata "total" = VInt 2 ∧
    own metadata "source" = VStr "fallback" ∧
    this w' = this (fresh_world tt) ∧ sent w' = sent (fresh_world tt).
Proof.
  apply (fallback_tracks_are_well_formed failing_env 2 (fresh_world tt)).
  - intros n. split; [discriminate | reflexivity].
  - lia.
Defined.

(** ** Properties of the Dashboard's data *)

Section Triples.
Context {App : Type}.
Implicit Types (P : App → Prop) (R : Exn → App → Prop).

Lemma triple_ret {A} (a : A) (Q : A → App → Prop) R :
  triple (λ c, Q a c) (ret a) Q R.
Proof. by intros w Hw. Qed.

Lemma triple_lift {A} (r : Result A) (Q : A → App → Prop) R :
  triple (λ c, match r with Return a => Q a c | Throw e => R e c end) (lift r) Q R.
Proof. intros w Hw. simpl. by destruct r. Qed.

Lemma triple_bind {A B} (m : M A) (k : A → M B) P (Q1 : A → App → Prop)
    (Q : B → App → Prop) R :
  triple P m Q1 R → (∀ a, triple (Q1 a) (k a) Q R) → triple P (bind m k) Q R.
Proof.
  intros Hm Hk w Hw. specialize (Hm w Hw). simpl.
  destruct (m w) as [[a|e] w1]; [|done]. by apply Hk.
Qed.

Lemma triple_try_catch {A} (body : M A) (handler : Exn → M A) P
    (Q : A → App → Prop) (R1 R : Exn → App → Prop) :
  triple P body Q R1 → (∀ e, triple (R1 e) (handler e) Q R) →
  triple P (try_catch body handler) Q R.
Proof.
  intros Hb Hh w Hw. specialize (Hb w Hw). simpl.
  destruct (body w) as [[a|e] w1]; [done|]. by apply Hh.
Qed.

Lemma triple_weaken {A} (m : M A) P P' (Q Q' : A → App → Prop) R R' :
  triple P' m Q' R' →
  (∀ c, P c → P' c) → (∀ a c, Q' a c → Q a c) → (∀ e c, R' e c → R e c) →
  triple P m Q R.
Proof.
  intros Hm HP HQ HR w Hw. specialize (Hm w (HP _ Hw)).
  destruct (m w) as [[a|e] w1]; auto.
Qed.

Lemma triple_if {A} (b : bool) (m1 m2 : M A) P (Q : A → App → Prop) R :
  triple P m1 Q R → triple P m2 Q R → triple P (if b then m1 else m2) Q R.
Proof. by destruct b. Qed.

(** A computation that does not touch the application and always
    returns. *)
Lemma triple_of_returns {A} (m : M A) (G : A → Prop) P R :
  returns_with m G → reads_only App m →
  triple P m (λ a c, G a ∧ P c) R.
Proof.
  intros Hret Hread w Hw. destruct (Hret w) as (a & w' & Hrun & Ha).
  destruct (Hread w) as (_ & _ & _ & Happ & _). rewrite Hrun in *. simpl in *.
  by rewrite Happ.
Qed.

(** A computation that does not touch the application, whatever its
    outcome. *)
Lemma triple_of_reads {A} (m : M A) P :
  reads_only App m → triple P m (λ _ c, P c) (λ _ c, P c).
Proof.
  intros Hread w Hw. destruct (Hread w) as (_ & _ & _ & Happ & _).
  destruct (m w) as [[a|e] w']; simpl in *; by rewrite Happ.
Qed.

Lemma keeps_service_ret {A} (a : A) : keeps_service (App:=App) (ret a).
Proof. by intros w. Qed.

Lemma keeps_service_lift {A} (r : Result A) : keeps_service (App:=App) (lift r).
Proof. by intros w. Qed.

Lemma keeps_service_bind {A B} (m : M A) (k : A → M B) :
  keeps_service (App:=App) m → (∀ a, keeps_service (k a)) → keeps_service (bind m k).
Proof.
  intros Hm Hk w. specialize (Hm w). simpl.
  destruct (m w) as [[a|e] w1]; simpl in *; [|done].
  specialize (Hk a w1). intuition congruence.
Qed.

Lemma keeps_service_try_catch {A} (body : M A) (handler : Exn → M A) :
  keeps_service (App:=App) body → (∀ e, keeps_service (handler e)) →
  keeps_service (try_catch body handler).
Proof.
  intros Hb Hh w. specialize (Hb w). simpl.
  destruct (body w) as [[a|e] w1]; simpl in *; [done|].
  specialize (Hh e w1). intuition congruence.
Qed.

Lemma keeps_service_if {A} (b : bool) (m1 m2 : M A) :
  keeps_service (App:=App) m1 → keeps_service m2 →
  keeps_service (if b then m1 else m2).
Proof. by destruct b. Qed.

Lemma keeps_service_of_reads {A} (m : M A) :
  reads_only App m → keeps_service m.
Proof. intros Hread w. specialize (Hread w). tauto. Qed.

End Triples.

Section LoadProperties.
Import DashboardLoad.
Context (E : Env).
Implicit Types (w : World Cells) (c : Cells).

Lemma triple_set_cells (f : Cells → Cells) (Q : unit → Cells → Prop) R :
  triple (λ c, Q tt (f c)) (set_cells f) Q R.
Proof. by intros w Hw. Qed.

Lemma triple_try_finally {A} (body : M A) (final : M unit) P
    (Q1 Q : A → Cells → Prop) (R1 R : Exn → Cells → Prop) :
  triple P body Q1 R1 →
  (∀ a, triple (Q1 a) final (λ _, Q a) R) →
  (∀ e, triple (R1 e) final (λ _, R e) R) →
  triple P (try_finally body final) Q R.
Proof.
  intros Hb Hq Hr w Hw. specialize (Hb w Hw). unfold try_finally.
  destruct (body w) as [[a|e] w1].
  - specialize (Hq a w1 Hb). by destruct (final w1) as [[[]|e] w2].
  - specialize (Hr e w1 Hb). by destruct (final w1) as [[[]|e'] w2].
Qed.

Lemma keeps_service_set_cells (f : Cells → Cells) : keeps_service (set_cells f).
Proof. by intros w. Qed.

Lemma keeps_service_try_finally {A} (body : M A) (final : M unit) :
  keeps_service body → keeps_service final → keeps_service (try_finally body final).
Proof.
  intros Hb Hf w. specialize (Hb w). unfold try_finally.
  destruct (body w) as [r w1]. specialize (Hf w1).
  destruct (final w1) as [[[]|e] w2]; simpl in *; intuition congruence.
Qed.

Lemma reads_only_new_Date : reads_only Cells (new_Date_toISOString E).
Proof. unfold new_Date_toISOString. auto with frame. Qed.

Lemma reads_only_generatedTrack i : reads_only Cells (generatedTrack E i).
Proof.
  pose proof (reads_only_random_below (App:=Cells) E).
  pose proof reads_only_new_Date.
  unfold generatedTrack. auto 20 with frame.
Qed.

Lemma reads_only_generateFallbackTrendingData :
  reads_only Cells (generateFallbackTrendingData E).
Proof.
  pose proof reads_only_generatedTrack. pose proof reads_only_new_Date.
  unfold generateFallbackTrendingData, Array_from_length. auto 10 with frame.
Qed.

Lemma reads_only_generateFallbackAnalytics :
  reads_only Cells (generateFallbackAnalytics E).
Proof.
  pose proof reads_only_new_Date.
  unfold generateFallbackAnalytics. auto 10 with frame.
Qed.

Lemma returns_new_Date : returns_with (new_Date_toISOString E) (λ _, True).
Proof. intros w. by eexists _, _. Qed.

Lemma generatedTrack_returns i :
  returns_with (generatedTrack E i)
    (λ t, ∃ popularity play_count language genre listeners growth duration,
       (∃ k, popularity = Qfloor (Math_random E k * inject_Z 40)) ∧
       (∃ k, play_count = Qfloor (Math_random E k * inject_Z 5000000)) ∧
       (∃ k, language = Qfloor (Math_random E k * inject_Z 5)) ∧
       (∃ k, genre = Qfloor (Math_random E k * inject_Z 5)) ∧
       (∃ k, listeners = Qfloor (Math_random E k * inject_Z 50000)) ∧
       (∃ k, growth = Qfloor (Math_random E k * inject_Z 30)) ∧
       (∃ k, duration = Qfloor (Math_random E k * inject_Z 120000)) ∧
       own t "id" = VStr ("fallback_" +:+ pretty i) ∧
       own t "track_id" = VStr ("fallback_" +:+ pretty i) ∧
       own t "track_name" = VStr ("Trending Song " +:+ pretty (i + 1)%nat) ∧
       own t "artist" = VStr ("Popular Artist " +:+ pretty (i + 1)%nat) ∧
       own t "popularity" = VInt (popularity + 60) ∧
       own t "play_count" = VInt (play_count + 500000) ∧
       own t "language" =
         index [VStr "hindi"; VStr "punjabi"; VStr "tamil"; VStr "telugu"; VStr "malayalam"]
               language ∧
       own t "genre_category" =
         index [VStr "bollywood"; VStr "punjabi"; VStr "south_indian"; VStr "trending";
                VStr "regional"] genre ∧
       own t "listeners" = VInt (listeners + 5000) ∧
       own t "growth_rate" = VStr ("+" +:+ pretty (growth + 5) +:+ "%") ∧
       own t "duration_ms" = VInt (duration + 180000) ∧
       own t "source" = VStr "fallback" ∧
       t ≠ VNull ∧ t ≠ VUndefined).
Proof.
  unfold generatedTrack.
  eapply returns_bind; [apply returns_random_below|]. intros popularity Hp.
  eapply returns_bind; [apply returns_random_below|]. intros play_count Hc.
  eapply returns_bind; [apply returns_random_below|]. intros language Hl.
  eapply returns_bind; [apply returns_random_below|]. intros genre Hg.
  eapply returns_bind; [apply returns_random_below|]. intros listeners Hlis.
  eapply returns_bind; [apply returns_random_below|]. intros growth Hgr.
  eapply returns_bind; [apply returns_random_below|]. intros duration Hd.
  eapply returns_bind; [apply returns_new_Date|]. intros fetched _.
  apply returns_ret.
  exists popularity, play_count, language, genre, listeners, growth, duration.
  do 7 (split; [assumption|]).
  cbn [own lookup_prop String.eqb Ascii.eqb Bool.eqb]. by repeat split.
Qed.

(** X18.  With [Math.random()] in the unit interval,
    [generateFallbackTrendingData] returns 21 records, the one at index [i]
    named after [i] and [i + 1], with a popularity from 60 to 99, a play
    count from 500000 to 5499999, a duration from 3 to under 5 minutes, 5000
    to 54999 listeners, a growth rate from 5 to 34 per cent, a language and
    a genre out of the five of each, and [source] "fallback"; the metadata
    count the 21 records; the payload passes the test [loadDashboardData]
    puts to a trending result; and nothing of the state is touched. *)
Theorem generated_tracks_are_well_formed w :
  unit_interval E →
  ∃ tracks metadata w',
    generateFallbackTrendingData E w
      = (Return (VObj [("success", VBool true); ("tracks", VArr tracks);
                       ("metadata", metadata)]), w') ∧
    length tracks = 21%nat ∧
    (∀ i t, tracks !! i = Some t →
       own t "track_id" = VStr ("fallback_" +:+ pretty i) ∧
       own t "track_name" = VStr ("Trending Song " +:+ pretty (i + 1)%nat) ∧
       own t "artist" = VStr ("Popular Artist " +:+ pretty (i + 1)%nat) ∧
       (∃ p, own t "popularity" = VInt p ∧ 60 ≤ p ≤ 99) ∧
       (∃ n, own t "play_count" = VInt n ∧ 500000 ≤ n ≤ 5499999) ∧
       (∃ n, own t "duration_ms" = VInt n ∧ 180000 ≤ n < 300000) ∧
       (∃ n, own t "listeners" = VInt n ∧ 5000 ≤ n ≤ 54999) ∧
       (∃ g, own t "growth_rate" = VStr ("+" +:+ pretty g +:+ "%") ∧ 5 ≤ g ≤ 34) ∧
       own t "language" ∈ [VStr "hindi"; VStr "punjabi"; VStr "tamil"; VStr "telugu";
                           VStr "malayalam"] ∧
       own t "genre_category" ∈ [VStr "bollywood"; VStr "punjabi"; VStr "south_indian";
                                 VStr "trending"; VStr "regional"] ∧
       own t "source" = VStr "fallback") ∧
    own metadata "total_tracks" = VInt 21 ∧
    Dashboard.keeps_trending
      (VObj [("success", VBool true); ("tracks", VArr tracks); ("metadata", metadata)])
      = true ∧
    this w' = this w ∧ sockets w' = sockets w ∧ timers w' = timers w ∧
    app w' = app w ∧ sent w' = sent w.
Proof.
  intros Hunit.
  assert (Hdraw : ∀ k n, 0 < n → 0 ≤ Qfloor (Math_random E k * inject_Z n) < n).
  { intros k n Hn. destruct (Hunit k). by apply floor_of_draw. }
  unfold generateFallbackTrendingData, Array_from_length.
  change (2 ^ 32 - 1 <? ToLength 21) with false. cbv iota.
  change (Z.to_nat (ToLength 21)) with 21%nat.
  remember (seq 0 21) as items eqn:Hitems.
  destruct (returns_map_M (generatedTrack E) _ items
              (λ i _, generatedTrack_returns i) w) as (tracks & w1 & Hrun & Hrel).
  cbn [bind]. rewrite Hrun. cbn [bind new_Date_toISOString now ret].
  pose proof (Forall2_length _ _ _ Hrel) as Hlen.
  rewrite Hitems, length_seq in Hlen.
  eexists tracks, _, _. split; [reflexivity|]. split; [done|]. split.
  { intros i t Ht.
    destruct (Forall2_lookup_r _ _ _ _ _ Hrel Ht) as (j & Hj & HR).
    rewrite Hitems in Hj. apply lookup_seq in Hj as [-> _]. cbn beta in HR.
    change (0 + i)%nat with i in HR.
    destruct HR as (popularity & play_count & language & genre & listeners & growth &
                    duration & [kp ->] & [kc ->] & [kl ->] & [kg ->] & [kn ->] &
                    [kr ->] & [kd ->] & _ & Hid & Hname & Hartist & Hpop & Hplay &
                    Hlang & Hgenre & Hlis & Hgrowth & Hdur & Hsource & _).
    pose proof (Hdraw kp 40 ltac:(lia)). pose proof (Hdraw kc 5000000 ltac:(lia)).
    pose proof (Hdraw kl 5 ltac:(lia)). pose proof (Hdraw kg 5 ltac:(lia)).
    pose proof (Hdraw kn 50000 ltac:(lia)). pose proof (Hdraw kr 30 ltac:(lia)).
    pose proof (Hdraw kd 120000 ltac:(lia)).
    split; [done|]. split; [done|]. split; [done|].
    split; [eexists; split; [exact Hpop | lia]|].
    split; [eexists; split; [exact Hplay | lia]|].
    split; [eexists; split; [exact Hdur | lia]|].
    split; [eexists; split; [exact Hlis | lia]|].
    split; [eexists; split; [exact Hgrowth | lia]|].
    split; [rewrite Hlang; by apply index_in_range|].
    split; [rewrite Hgenre; by apply index_in_range|]. done. }
  split; [cbn [own lookup_prop String.eqb Ascii.eqb Bool.eqb]; by rewrite <- Hlen|].
  split.
  { unfold Dashboard.keeps_trending.
    cbn [own lookup_prop String.eqb Ascii.eqb Bool.eqb truthy andb].
    rewrite <- Hlen. done. }
  destruct (reads_only_map_M (generatedTrack E) items reads_only_generatedTrack w)
    as (Hthis & Hsockets & Htimers & Happ & Hsent).
  rewrite Hrun in *. done.
Qed.

Lemma reads_only_tally_track t track : reads_only Cells (tally_track E t track).
Proof.
  pose proof (reads_only_random_below (App:=Cells) E).
  unfold tally_track. auto 20 with frame.
Qed.

Lemma reads_only_forEach {A S} (f : S → A → M S) items s :
  (∀ s a, reads_only Cells (f s a)) → reads_only Cells (forEach f items s).
Proof.
  intros Hf. revert s. induction items as [|x rest IH]; intros s; simpl.
  - apply reads_only_ret.
  - apply reads_only_bind; [apply Hf | intros s'; apply IH].
Qed.

Lemma to_tenth_range (x : Q) :
  (0 <= x)%Q → (x <= 100)%Q → (0 <= to_tenth x)%Q ∧ (to_tenth x <= 100)%Q.
Proof.
  intros H0 H100. unfold to_tenth.
  assert (Qle_bool 0 x = true) as -> by (by apply Qle_bool_iff).
  assert (Qle_bool (inject_Z (10 ^ 21)) x = false) as ->.
  { destruct (Qle_bool (inject_Z (10 ^ 21)) x) eqn:Hbig; [|done].
    apply Qle_bool_iff in Hbig.
    pose proof (Qle_trans _ _ _ Hbig H100) as Habs.
    unfold Qle in Habs. simpl in Habs. lia. }
  assert (Hlo : 0 ≤ Qfloor (x * 10 + (1 # 2))).
  { change 0 with (Qfloor 0). apply Qfloor_resp_le.
    apply Qle_trans with (0 * 10 + (1 # 2))%Q; [done|].
    apply Qplus_le_compat; [|apply Qle_refl].
    by apply Qmult_le_compat_r. }
  assert (Hhi : Qfloor (x * 10 + (1 # 2)) ≤ 1000).
  { change 1000 with (Qfloor (100 * 10 + (1 # 2))). apply Qfloor_resp_le.
    apply Qplus_le_compat; [|apply Qle_refl].
    by apply Qmult_le_compat_r. }
  set (n := Qfloor (x * 10 + (1 # 2))) in *.
  split; unfold Qle; cbn [Qnum Qden]; lia.
Qed.

(** What the tally holds after some tracks, none of them [null] or
    [undefined]. *)
Lemma forEach_tally items t0 :
  Forall (λ t, t ≠ VNull ∧ t ≠ VUndefined) items →
  returns_with (forEach (tally_track E) items t0)
    (λ t,
       (size (uniqueLanguages t) ≤ size (uniqueLanguages t0) + length items)%nat ∧
       ((Forall (λ track, ∀ q, own track "popularity" = VNum q → (0 <= q)%Q ∧ (q <= 100)%Q)
           items) →
        (totalPopularity t0 <= totalPopularity t)%Q ∧
        (totalPopularity t <= totalPopularity t0 + 100 * inject_Z (Z.of_nat (length items)))%Q)).
Proof.
  intros Hobj. revert t0. induction Hobj as [|track rest [Hn Hu] _ IH]; intros t0.
  - apply returns_ret. split; [simpl; lia|]. intros _.
    change (inject_Z (Z.of_nat (length (@nil Value)))) with 0%Q. split; lra.
  - cbn [forEach]. unfold tally_track at 1. rewrite get_own by done.
    eapply returns_bind.
    { eapply returns_bind;
        [apply (returns_lift _ (λ _, True)); done|]. intros artist _. cbv zeta.
      eapply (returns_bind _ _ (λ _, True)).
      { destruct (own track "listeners"); try (apply returns_ret; done);
          (eapply returns_bind; [apply returns_random_below|]; intros n _;
           by apply returns_ret). }
      intros listeners _.
      apply (returns_ret _ (λ t1,
        (size (uniqueLanguages t1) ≤ S (size (uniqueLanguages t0)))%nat ∧
        totalPopularity t1 =
          (totalPopularity t0 +
           match own track "popularity" with VNum q => q | _ => 0 end)%Q)).
      split; [|reflexivity]. simpl.
      destruct (own track "language") as [| |?|?|l|?|?]; try lia.
      destruct (negb (String.eqb l "")); [|lia].
      rewrite size_union_alt, size_singleton.
      pose proof (subseteq_size (uniqueLanguages t0 ∖ {[l]}) (uniqueLanguages t0)
                    (subseteq_difference_l _ _ _ (reflexivity _))).
      lia. }
    intros t1 [Hsize1 Htotal1].
    eapply returns_weaken; [apply IH|].
    intros t [Hsize Hpop]. split; [simpl; lia|].
    intros Hrange. apply Forall_cons in Hrange as [Htrack Hrest].
    destruct (Hpop Hrest) as [Hlo Hhi]. rewrite Htotal1 in Hlo, Hhi.
    assert (Hq : (0 <= match own track "popularity" with VNum q => q | _ => 0 end)%Q ∧
                 (match own track "popularity" with VNum q => q | _ => 0 end <= 100)%Q).
    { destruct (own track "popularity"); try done. by apply Htrack. }
    destruct Hq as [Hq0 Hq100].
    set (q := match own track "popularity" with VNum q => q | _ => 0%Q end) in *.
    assert (Hlen : (inject_Z (Z.of_nat (length (track :: rest)))
                    == inject_Z (Z.of_nat (length rest)) + 1)%Q).
    { cbn [length]. rewrite Nat2Z.inj_succ, <- Z.add_1_r, inject_Z_plus. reflexivity. }
    set (n := inject_Z (Z.of_nat (length rest))) in *.
    set (n' := inject_Z (Z.of_nat (length (track :: rest)))) in *.
    split; lra.
Qed.

Lemma tally_track_fails t track :
  track = VNull ∨ track = VUndefined →
  fails_with (tally_track E t track) (λ e, exn_name e = "TypeError").
Proof. intros [-> | ->] w; eexists _, _; by split. Qed.

Lemma tally_track_returns t track :
  track ≠ VNull → track ≠ VUndefined →
  returns_with (tally_track E t track) (λ _, True).
Proof.
  intros Hn Hu. unfold tally_track. rewrite get_own by done.
  eapply returns_bind; [apply (returns_lift _ (λ _, True)); done|]. intros artist _.
  cbv zeta. eapply (returns_bind _ _ (λ _, True)); [|intros; by apply returns_ret].
  destruct (own track "listeners"); try (apply returns_ret; done);
    (eapply returns_bind; [apply returns_random_below|]; intros n _;
     by apply returns_ret).
Qed.

Lemma forEach_tally_fails items t0 :
  Exists (λ t, t = VNull ∨ t = VUndefined) items →
  fails_with (forEach (tally_track E) items t0) (λ e, exn_name e = "TypeError").
Proof.
  intros Hex. revert t0. induction items as [|track rest IH]; intros t0;
    [by apply Exists_nil in Hex|].
  cbn [forEach].
  assert (track = VNull ∨ track = VUndefined ∨ (track ≠ VNull ∧ track ≠ VUndefined))
    as [Hbad|[Hbad|[Hn Hu]]] by (destruct track; auto).
  - apply fails_bind_l, tally_track_fails. auto.
  - apply fails_bind_l, tally_track_fails. auto.
  - apply Exists_cons in Hex as [[?|?]|Hex]; [done | done |].
    eapply fails_bind_r; [by apply tally_track_returns|]. intros t1 _. by apply IH.
Qed.

(** X19.  [updateLiveMetrics] writes no cell but [liveMetrics] and nothing
    of the service.  Data that are falsy or whose [tracks] is not a list
    leave even that cell alone.  For a list without [null] or [undefined]
    entries the new metrics count the tracks, report at least one artist, at
    least one language and no more languages than tracks, never zero
    listeners, an average popularity between 0 and 100 when every numeric
    popularity is, and, with [Math.random()] in the unit interval, a
    streaming rate from 500 to 2499.  A list with a [null] or [undefined]
    entry makes the function throw a [TypeError] before any cell is
    written. *)
Theorem updateLiveMetrics_counts data w :
  (truthy data = false ∨ isArray (own data "tracks") = false →
   updateLiveMetrics E data w = (Return tt, w)) ∧
  (∀ tracks, truthy data = true → own data "tracks" = VArr tracks →
     (Forall (λ t, t ≠ VNull ∧ t ≠ VUndefined) tracks →
      ∃ m w',
        updateLiveMetrics E data w = (Return tt, w') ∧
        app w' = setLiveMetrics m (app w) ∧
        this w' = this w ∧ sockets w' = sockets w ∧ timers w' = timers w ∧
        sent w' = sent w ∧
        liveTracks m = Z.of_nat (length tracks) ∧
        1 ≤ activeArtists m ∧
        1 ≤ activeLanguages m ≤ Z.max 1 (Z.of_nat (length tracks)) ∧
        ¬ (totalListeners m == 0)%Q ∧
        (Forall (λ track, ∀ q, own track "popularity" = VNum q → (0 <= q)%Q ∧ (q <= 100)%Q)
           tracks →
         (0 <= avgPopularity m)%Q ∧ (avgPopularity m <= 100)%Q) ∧
        (unit_interval E → 500 ≤ streamingRate m ≤ 2499)) ∧
     (Exists (λ t, t = VNull ∨ t = VUndefined) tracks →
      ∃ e w',
        updateLiveMetrics E data w = (Throw e, w') ∧ exn_name e = "TypeError" ∧
        app w' = app w)).
Proof.
  split.
  - intros Hguard. unfold updateLiveMetrics.
    destruct Hguard as [-> | Harr]; [done|].
    rewrite Harr. simpl. by rewrite !orb_true_r.
  - intros tracks Hdata Htracks. unfold updateLiveMetrics.
    rewrite Hdata, Htracks. cbn [negb truthy isArray orb]. split.
    + intros Hobj.
      destruct (forEach_tally tracks (mkTally ∅ ∅ 0 0) Hobj w)
        as (t & w1 & Hrun & Hsize & Hpop).
      destruct (reads_only_forEach (tally_track E) tracks (mkTally ∅ ∅ 0 0)
                  reads_only_tally_track w) as (Hthis & Hsockets & Htimers & Happ & Hsent).
      rewrite Hrun in Hthis, Hsockets, Htimers, Happ, Hsent.
      simpl in Hthis, Hsockets, Htimers, Happ, Hsent.
      cbn [bind]. rewrite Hrun. cbn [bind random_below random ret set_cells with_app].
      eexists _, _. split; [reflexivity|]. cbn [app this sockets timers sent].
      rewrite Happ. split; [reflexivity|].
      do 4 (split; [done|]).
      cbn [liveTracks activeArtists activeLanguages totalListeners avgPopularity
           streamingRate].
      split; [done|]. split.
      { unfold size_or. destruct (Nat.eqb_spec (size (uniqueArtists t)) 0); lia. }
      split.
      { unfold size_or. cbn [uniqueLanguages] in Hsize. rewrite size_empty in Hsize.
        destruct (Nat.eqb_spec (size (uniqueLanguages t)) 0); lia. }
      split.
      { destruct (Qeq_bool (totalListenersSoFar t) 0) eqn:Hzero; [done|].
        intros Heq. apply Qeq_bool_iff in Heq. congruence. }
      split.
      { intros Hrange. destruct (Hpop Hrange) as [Hlo Hhi]. simpl in Hlo, Hhi.
        case_bool_decide as Hlen; [|split; lra].
        assert (Hpos : (0 < inject_Z (Z.of_nat (length tracks)))%Q).
        { change 0%Q with (inject_Z 0). rewrite <- Zlt_Qlt. lia. }
        apply to_tenth_range.
        - apply Qle_shift_div_l; [done|]. lra.
        - apply Qle_shift_div_r; [done|]. lra. }
      intros Hunit. destruct (Hunit (draws w1)) as [H0 H1].
      pose proof (floor_of_draw _ 2000 H0 H1 ltac:(lia)). lia.
    + intros Hex.
      destruct (forEach_tally_fails tracks (mkTally ∅ ∅ 0 0) Hex w)
        as (e & w1 & Hrun & He).
      destruct (reads_only_forEach (tally_track E) tracks (mkTally ∅ ∅ 0 0)
                  reads_only_tally_track w) as (_ & _ & _ & Happ & _).
      rewrite Hrun in Happ. cbn [bind]. rewrite Hrun.
      by exists e, w1.
Qed.

Lemma nullish_dichotomy (tracks : list Value) :
  Forall (λ t, t ≠ VNull ∧ t ≠ VUndefined) tracks ∨
  Exists (λ t, t = VNull ∨ t = VUndefined) tracks.
Proof.
  induction tracks as [|track rest [IH|IH]].
  - left. constructor.
  - assert (track = VNull ∨ track = VUndefined ∨ (track ≠ VNull ∧ track ≠ VUndefined))
      as [Hbad|[Hbad|Hok]] by (destruct track; auto).
    + right. apply Exists_cons. auto.
    + right. apply Exists_cons. auto.
    + left. by constructor.
  - right. apply Exists_cons. auto.
Qed.

(** All that [updateLiveMetrics] can do to the world. *)
Lemma updateLiveMetrics_effect data w :
  ∃ r w',
    updateLiveMetrics E data w = (r, w') ∧
    this w' = this w ∧ sockets w' = sockets w ∧ timers w' = timers w ∧ sent w' = sent w ∧
    ((r = Return tt ∧ (app w' = app w ∨ ∃ m, app w' = setLiveMetrics m (app w))) ∨
     ((∃ e, r = Throw e) ∧ app w' = app w)) ∧
    ((∀ tracks, own data "tracks" = VArr tracks →
        Forall (λ t, t ≠ VNull ∧ t ≠ VUndefined) tracks) → r = Return tt).
Proof.
  unfold updateLiveMetrics.
  destruct (truthy data) eqn:Hdata; cbn [negb orb];
    [|eexists _, _; split; [reflexivity|]; auto 10].
  destruct (isArray (own data "tracks")) eqn:Harr; cbn [negb];
    [|rewrite orb_true_r; eexists _, _; split; [reflexivity|]; auto 10].
  destruct (own data "tracks") as [| |?|?|?|tracks|?] eqn:Htracks; try discriminate.
  cbn [negb truthy orb].
  destruct (reads_only_forEach (tally_track E) tracks (mkTally ∅ ∅ 0 0)
              reads_only_tally_track w) as (Hthis & Hsockets & Htimers & Happ & Hsent).
  destruct (nullish_dichotomy tracks) as [Hobj|Hex].
  - destruct (forEach_tally tracks (mkTally ∅ ∅ 0 0) Hobj w) as (t & w1 & Hrun & _).
    rewrite Hrun in Hthis, Hsockets, Htimers, Happ, Hsent.
    simpl in Hthis, Hsockets, Htimers, Happ, Hsent.
    cbn [bind]. rewrite Hrun. cbn [bind random_below random ret set_cells with_app].
    eexists _, _. split; [reflexivity|]. cbn [app this sockets timers sent].
    do 4 (split; [done|]). split; [|done].
    left. split; [done|]. right. rewrite Happ. by eexists.
  - destruct (forEach_tally_fails tracks (mkTally ∅ ∅ 0 0) Hex w) as (e & w1 & Hrun & _).
    rewrite Hrun in Hthis, Hsockets, Htimers, Happ, Hsent.
    simpl in Hthis, Hsockets, Htimers, Happ, Hsent.
    cbn [bind]. rewrite Hrun.
    eexists _, _. split; [reflexivity|]. do 4 (split; [done|]). split; [right; eauto|].
    intros Hall. specialize (Hall tracks eq_refl).
    exfalso. rewrite Forall_forall in Hall. rewrite Exists_exists in Hex.
    destruct Hex as (t & Ht & Hbad). destruct (Hall t Ht). by destruct Hbad.
Qed.

Lemma keeps_service_updateLiveMetrics data : keeps_service (updateLiveMetrics E data).
Proof.
  intros w. destruct (updateLiveMetrics_effect data w) as (r & w' & -> & ? & ? & ? & ? & _).
  done.
Qed.

Lemma triple_updateLiveMetrics data (G : Cells → Prop) :
  (∀ c m, G c → G (setLiveMetrics m c)) →
  triple G (updateLiveMetrics E data) (λ _ c, G c) (λ _ c, G c).
Proof.
  intros Hstable w Hw.
  destruct (updateLiveMetrics_effect data w) as (r & w' & -> & _ & _ & _ & _ & Hcases & _).
  destruct Hcases as [[-> [-> | [m ->]]] | [[e ->] ->]]; auto.
Qed.

(** The generated list, as [loadDashboardData] needs it. *)
Lemma generateFallbackTrendingData_returns :
  returns_with (generateFallbackTrendingData E)
    (λ v, Dashboard.keeps_trending v = true ∧
          ∀ tracks, own v "tracks" = VArr tracks →
            Forall (λ t, t ≠ VNull ∧ t ≠ VUndefined) tracks).
Proof.
  unfold generateFallbackTrendingData, Array_from_length.
  change (2 ^ 32 - 1 <? ToLength 21) with false. cbv iota.
  change (Z.to_nat (ToLength 21)) with 21%nat.
  remember (seq 0 21) as items eqn:Hitems.
  eapply returns_bind.
  { apply (returns_map_M (generatedTrack E) (λ _ t, t ≠ VNull ∧ t ≠ VUndefined)).
    intros i _. eapply returns_weaken; [apply generatedTrack_returns|].
    intros t (? & ? & ? & ? & ? & ? & ? & H).
    repeat match type of H with _ ∧ _ ∧ _ => destruct H as [_ H] end. exact H. }
  intros tracks Hrel.
  eapply returns_bind; [apply returns_new_Date|]. intros ts _.
  apply returns_ret.
  pose proof (Forall2_length _ _ _ Hrel) as Hlen. rewrite Hitems, length_seq in Hlen.
  split.
  - unfold Dashboard.keeps_trending.
    cbn [own lookup_prop String.eqb Ascii.eqb Bool.eqb truthy andb].
    rewrite <- Hlen. done.
  - cbn [own lookup_prop String.eqb Ascii.eqb Bool.eqb]. intros ? [= <-].
    clear -Hrel. induction Hrel; constructor; auto.
Qed.

Lemma triple_use_generated_trending (G : Cells → Prop) :
  (∀ c v, G c → G (setTrendingData v c)) →
  (∀ c m, G c → G (setLiveMetrics m c)) →
  triple G (use_generated_trending E)
    (λ _ c, Dashboard.keeps_trending (trendingData c) = true ∧ G c) (λ _ _, False).
Proof.
  intros Hset Hmetrics w Hw. unfold use_generated_trending.
  destruct (generateFallbackTrendingData_returns w) as (v & w1 & Hrun & Hkeeps & Hobj).
  destruct (reads_only_generateFallbackTrendingData w) as (_ & _ & _ & Happ & _).
  rewrite Hrun in Happ. simpl in Happ.
  cbn [bind]. rewrite Hrun. cbn [bind set_cells].
  destruct (updateLiveMetrics_effect v (with_app (setTrendingData v) w1))
    as (r & w2 & -> & _ & _ & _ & _ & Hcases & Hret).
  rewrite (Hret Hobj) in *. simpl in Hcases.
  destruct Hcases as [[_ [-> | [m ->]]] | [[e [=]] _]]; rewrite Happ; simpl; auto.
Qed.

Lemma triple_use_generated_analytics (G : Cells → Prop) :
  (∀ c v, G c → G (setAnalytics v c)) →
  triple G (use_generated_analytics E)
    (λ _ c, Dashboard.keeps_analytics (analytics c) = true ∧ G c) (λ _ _, False).
Proof.
  intros Hset w Hw. unfold use_generated_analytics, generateFallbackAnalytics.
  simpl. split; [reflexivity|]. by apply Hset.
Qed.

Lemma triple_use_generated_analytics_valid (G : Cells → Prop) :
  (∀ c v, G c → G (setAnalytics v c)) →
  triple G (use_generated_analytics E)
    (λ _ c, hasValidAnalytics c = true ∧
            Dashboard.keeps_analytics (analytics c) = true ∧ G c) (λ _ _, False).
Proof.
  intros Hset w Hw. unfold use_generated_analytics, generateFallbackAnalytics.
  simpl. split; [reflexivity|]. split; [reflexivity|]. by apply Hset.
Qed.

Lemma keeps_service_use_generated_trending : keeps_service (use_generated_trending E).
Proof.
  unfold use_generated_trending.
  apply keeps_service_bind;
    [apply keeps_service_of_reads, reads_only_generateFallbackTrendingData|].
  intros v. apply keeps_service_bind; [apply keeps_service_set_cells|].
  intros _. apply keeps_service_updateLiveMetrics.
Qed.

Lemma keeps_service_use_generated_analytics : keeps_service (use_generated_analytics E).
Proof.
  unfold use_generated_analytics.
  apply keeps_service_bind;
    [apply keeps_service_of_reads, reads_only_generateFallbackAnalytics|].
  intros v. apply keeps_service_set_cells.
Qed.

Lemma triple_any {A} (m : M A) (P : Cells → Prop) :
  triple P m (λ _ _, True) (λ _ _, True).
Proof. intros w _. by destruct (m w) as [[a|e] w']. Qed.

Lemma triple_now (P : Cells → Prop) R : triple P (now E) (λ _ c, P c) R.
Proof. by intros w Hw. Qed.

Lemma keeps_service_now : keeps_service (App:=Cells) (now E).
Proof. by intros w. Qed.

Lemma keeps_service_loadDashboardData isInitialLoad connectionTest trendingResponse
    analyticsResponse :
  keeps_service
    (loadDashboardData E isInitialLoad connectionTest trendingResponse analyticsResponse).
Proof.
  pose proof keeps_service_use_generated_trending.
  pose proof keeps_service_use_generated_analytics.
  pose proof keeps_service_updateLiveMetrics.
  pose proof keeps_service_set_cells.
  pose proof keeps_service_now.
  unfold loadDashboardData.
  apply keeps_service_bind; [done|]. intros startTime.
  apply keeps_service_try_finally; [|apply keeps_service_if; [done | apply keeps_service_ret]].
  apply keeps_service_try_catch.
  - repeat (first
      [ done
      | apply keeps_service_ret
      | apply keeps_service_lift
      | apply keeps_service_bind; [|intros ?]
      | apply keeps_service_if
      | match goal with |- keeps_service (match ?r with _ => _ end) => destruct r end ]).
  - intros err.
    repeat (first
      [ done
      | apply keeps_service_ret
      | apply keeps_service_bind; [|intros ?]
      | apply keeps_service_if ]).
Qed.

(** X20.  [loadDashboardData] never throws, whatever the three calls of
    the service settled to, and ends with a track list and analytics in
    place: the track list is a list with at least one element (the payload
    of the service when that has one, the 21 generated records otherwise),
    the analytics have a [content_distribution], the status is one of
    "connected", "degraded" and "error", and an initial load ends with
    [loading] off.  The analytics pass the test [hasValidAnalytics] under
    which the page leaves its loading panel, except possibly when they are
    the very value [getAnalytics] resolved to: that value is kept on the
    strength of its [content_distribution] alone.  The service, the
    sockets, the timers and the list of requests are not touched by the
    function itself. *)
Theorem loadDashboardData_ends_with_tracks_and_analytics isInitialLoad connectionTest
    trendingResponse analyticsResponse w :
  ∃ w',
    loadDashboardData E isInitialLoad connectionTest trendingResponse analyticsResponse w
      = (Return tt, w') ∧
    hasValidTrendingData (app w') = true ∧
    Dashboard.keeps_analytics (analytics (app w')) = true ∧
    (hasValidAnalytics (app w') = true ∨
     analyticsResponse = Return (analytics (app w'))) ∧
    connectionStatus (app w') ∈ ["connected"; "degraded"; "error"] ∧
    (isInitialLoad = true → loading (app w') = false) ∧
    this w' = this w ∧ sockets w' = sockets w ∧ timers w' = timers w ∧ sent w' = sent w.
Proof.
  set (S1 := λ c : Cells, connectionStatus c ∈ ["connected"; "degraded"; "error"]).
  set (K1 := λ c : Cells, Dashboard.keeps_trending (trendingData c) = true ∧ S1 c).
  set (A1 := λ c : Cells,
         Dashboard.keeps_analytics (analytics c) = true ∧
         (hasValidAnalytics c = true ∨ analyticsResponse = Return (analytics c))).
  set (K2 := λ c : Cells, A1 c ∧ K1 c).
  assert (Htriple :
    triple (λ _, True)
      (loadDashboardData E isInitialLoad connectionTest trendingResponse analyticsResponse)
      (λ _ c, K2 c ∧ (isInitialLoad = true → loading c = false)) (λ _ _, False)).
  { unfold loadDashboardData.
    eapply triple_bind; [apply (triple_now (λ _, True))|].
    intros startTime.
    apply triple_try_finally with (Q1 := λ _ c, K2 c) (R1 := λ _ _, False).
    - apply triple_try_catch with (R1 := λ _ _, True).
      + eapply triple_bind; [apply triple_any|]. intros ?.
        eapply triple_bind; [apply triple_any|]. intros ?.
        eapply triple_bind; [apply triple_any|]. intros ct.
        apply (triple_bind _ _ _ (λ _ c, S1 c)).
        { apply triple_if; intros w0 _; simpl; unfold S1; simpl;
            rewrite !elem_of_cons; auto. }
        intros ?.
        apply (triple_bind _ _ _ (λ _ c, K1 c)).
        { assert (Hgen : triple S1 (use_generated_trending E) (λ _ c, K1 c) (λ _ _, True)).
          { eapply triple_weaken;
              [apply (triple_use_generated_trending S1); by intros | done | done | done]. }
          destruct trendingResponse as [trendingResult|e]; [|exact Hgen].
          apply triple_if; [|exact Hgen].
          destruct (Dashboard.keeps_trending trendingResult) eqn:Hkeeps; [|exact Hgen].
          apply (triple_bind _ _ _ (λ _ c, K1 c)).
          - intros w0 Hw0. simpl. by split.
          - intros ?. eapply triple_weaken;
              [apply (triple_updateLiveMetrics _ K1); by intros | done | done | done]. }
        intros ?.
        apply (triple_bind _ _ _ (λ _ c, K2 c)).
        { assert (Hgen : triple K1 (use_generated_analytics E) (λ _ c, K2 c) (λ _ _, True)).
          { eapply triple_weaken;
              [apply (triple_use_generated_analytics_valid K1); by intros
              | done | | done].
            intros ? c (Hvalid & Hkeeps & HK1). split; [|done]. split; [done | by left]. }
          destruct analyticsResponse as [analyticsResult|e]; [|exact Hgen].
          apply triple_if; [|exact Hgen].
          destruct (Dashboard.keeps_analytics analyticsResult) eqn:Hkeeps; [|exact Hgen].
          intros w0 Hw0. simpl. split; [|done]. split; [done | by right]. }
        intros ? w0 Hw0. simpl. exact Hw0.
      + intros err.
        apply (triple_bind _ _ _ (λ _ _, True)); [by intros w0 _|]. intros ?.
        apply (triple_bind _ _ _ (λ _ c, connectionStatus c = "error")).
        { by intros w0 _. }
        intros ?.
        apply (triple_bind _ _ _ (λ _ c, connectionStatus c = "error")).
        { by intros w0 Hw0. }
        intros ?. cbn [truthy negb].
        apply (triple_bind _ _ _
                 (λ _ c, Dashboard.keeps_trending (trendingData c) = true ∧
                         connectionStatus c = "error")).
        { apply (triple_use_generated_trending (λ c, connectionStatus c = "error"));
            by intros. }
        intros ?.
        eapply triple_weaken;
          [apply (triple_use_generated_analytics_valid
                    (λ c, Dashboard.keeps_trending (trendingData c) = true ∧
                          connectionStatus c = "error")); by intros
          | done | | done].
        intros ? c (Hvalid & Ha & Ht & Hs). split; [split; [done | by left]|].
        split; [done|]. unfold S1. rewrite Hs, !elem_of_cons. auto.
    - intros []. destruct isInitialLoad; intros w0 Hw0; simpl; by split.
    - intros e w0 []. }
  pose proof (keeps_service_loadDashboardData isInitialLoad connectionTest
                trendingResponse analyticsResponse w) as Hservice.
  specialize (Htriple w I).
  destruct (loadDashboardData E isInitialLoad connectionTest trendingResponse
              analyticsResponse w) as [[[]|e] w']; [|done].
  exists w'. split; [reflexivity|].
  destruct Htriple as (((Ha & Hvalid) & Ht & Hs) & Hl). simpl in Hservice. tauto.
Qed.


End LoadProperties.

(** *** The first artist of a track *)

Section FirstArtist.
Import DashboardLoad.

Lemma chars_inj s1 s2 : list_ascii_of_string s1 = list_ascii_of_string s2 → s1 = s2.
Proof.
  intros Heq. rewrite <- (string_of_list_ascii_of_string s1),
    <- (string_of_list_ascii_of_string s2). by rewrite Heq.
Qed.

Lemma chars_rev_app s1 s2 :
  list_ascii_of_string (String.rev_app s1 s2) = (reverse (list_ascii_of_string s1) ++ list_ascii_of_string s2)%list.
Proof.
  revert s2. induction s1 as [|c s1 IH]; intros s2; simpl; [done|].
  rewrite IH, reverse_cons, <- app_assoc. done.
Qed.

Lemma chars_rev s : list_ascii_of_string (String.rev s) = reverse (list_ascii_of_string s).
Proof. unfold String.rev. by rewrite chars_rev_app, app_nil_r. Qed.

Lemma rev_involutive s : String.rev (String.rev s) = s.
Proof. apply chars_inj. by rewrite !chars_rev, reverse_involutive. Qed.

(** What [trim_start] cuts and what it leaves. *)
Lemma trim_start_spec s :
  ∃ pre, list_ascii_of_string s = (pre ++ list_ascii_of_string (trim_start s))%list ∧
         (trim_start s = "" ∨
          ∃ c rest, trim_start s = String c rest ∧ is_space c = false).
Proof.
  induction s as [|c s (pre & Hpre & Hhead)]; [exists []; auto|].
  cbn [trim_start]. destruct (is_space c) eqn:Hc.
  - exists (c :: pre). cbn [list_ascii_of_string]. rewrite Hpre. auto.
  - exists []. split; [done|]. right. eauto.
Qed.

Lemma trim_start_id c rest : is_space c = false → trim_start (String c rest) = String c rest.
Proof. intros Hc. cbn [trim_start]. by rewrite Hc. Qed.

(** What [trim] leaves: nothing, or a string that neither begins nor ends
    with white space, made of characters of the argument. *)
Lemma trim_spec s :
  (trim s = "" ∨
   ∃ c rest c' rest',
     trim s = String c rest ∧ is_space c = false ∧
     String.rev (trim s) = String c' rest' ∧ is_space c' = false) ∧
  ∀ P : ascii → Prop, Forall P (list_ascii_of_string s) → Forall P (list_ascii_of_string (trim s)).
Proof.
  unfold trim.
  destruct (trim_start_spec s) as (pre1 & Hpre1 & Hv).
  set (v := trim_start s) in *.
  destruct (trim_start_spec (String.rev v)) as (pre2 & Hpre2 & Hu).
  set (u := trim_start (String.rev v)) in *.
  rewrite chars_rev in Hpre2. split.
  - destruct Hu as [->|(c' & rest' & Hu & Hc')]; [by left|]. right.
    assert (Hv' : list_ascii_of_string v = (reverse (list_ascii_of_string u) ++ reverse pre2)%list).
    { rewrite <- reverse_app, <- Hpre2. by rewrite reverse_involutive. }
    destruct (reverse (list_ascii_of_string u)) as [|x xs] eqn:Hrev.
    { apply (f_equal reverse) in Hrev. rewrite reverse_involutive in Hrev.
      by rewrite Hu in Hrev. }
    assert (is_space x = false) as Hx.
    { destruct Hv as [Hv|(c & rest & Hv & Hc)]; rewrite Hv in Hv'; [done|].
      by injection Hv' as <- _. }
    assert (String.rev u = String x (string_of_list_ascii xs)) as Ht.
    { apply chars_inj. rewrite chars_rev, Hrev. cbn [list_ascii_of_string].
      by rewrite list_ascii_of_string_of_list_ascii. }
    exists x, (string_of_list_ascii xs), c', rest'.
    split; [exact Ht|]. split; [exact Hx|]. rewrite rev_involutive. done.
  - intros P HP. rewrite chars_rev. apply Forall_reverse.
    rewrite Hpre1 in HP. apply Forall_app in HP as [_ HP].
    apply Forall_reverse in HP. rewrite Hpre2 in HP.
    by apply Forall_app in HP as [_ HP].
Qed.

Lemma trim_idempotent s : trim (trim s) = trim s.
Proof.
  destruct (trim_spec s) as [[->|(c & rest & c' & rest' & Ht & Hc & Hr & Hc')] _];
    [done|].
  unfold trim at 1. rewrite Ht at 1. rewrite trim_start_id by done.
  rewrite <- Ht, Hr, trim_start_id by done. by rewrite <- Hr, rev_involutive.
Qed.

(** The first piece that [split(',')] gives has no comma in it, and a
    string without a comma is its own only piece. *)
Lemma split_commas_head s :
  ∃ piece pieces,
    split_commas s = piece :: pieces ∧
    Forall (λ c, c ≠ ","%char) (list_ascii_of_string piece) ∧
    (Forall (λ c, c ≠ ","%char) (list_ascii_of_string s) → piece = s ∧ pieces = []).
Proof.
  induction s as [|c s (piece & pieces & Hsplit & Hpiece & Hwhole)].
  - exists "", []. by repeat split.
  - cbn [split_commas]. destruct (Ascii.eqb_spec c ",") as [->|Hc].
    + exists "", (split_commas s). split; [done|]. split; [constructor|].
      intros Hno. cbn [list_ascii_of_string] in Hno. by apply Forall_cons in Hno as [? _].
    + rewrite Hsplit. exists (String c piece), pieces. split; [done|].
      split; [cbn [list_ascii_of_string]; by constructor|].
      intros Hno. cbn [list_ascii_of_string] in Hno. apply Forall_cons in Hno as [_ Hno].
      destruct (Hwhole Hno) as [-> ->]. done.
Qed.

(** X22.  [getFirstArtist] always names one artist: its result is never
    empty, holds no comma, neither begins nor ends with white space, and is
    a fixed point of the function; it is "Unknown" for anything that is not
    a string and for the empty string. *)
Theorem getFirstArtist_names_one_artist v :
  getFirstArtist v ≠ "" ∧
  Forall (λ c, c ≠ ","%char) (list_ascii_of_string (getFirstArtist v)) ∧
  trim (getFirstArtist v) = getFirstArtist v ∧
  getFirstArtist (VStr (getFirstArtist v)) = getFirstArtist v ∧
  ((∀ s, v ≠ VStr s) ∨ v = VStr "" → getFirstArtist v = "Unknown").
Proof.
  assert (Hcases :
    getFirstArtist v = "Unknown" ∨
    ∃ s piece pieces,
      v = VStr s ∧ s ≠ "" ∧ split_commas s = piece :: pieces ∧ trim piece ≠ "" ∧
      getFirstArtist v = trim piece).
  { destruct v as [| |b|q|s|items|props]; try (by left).
    unfold getFirstArtist.
    destruct (truthy (VStr s)) eqn:Hs; cbn [negb]; [|by left].
    apply truthy_VStr in Hs.
    destruct (split_commas_head s) as (piece & pieces & Hsplit & _).
    rewrite Hsplit. cbn [head default from_option id]. cbv zeta.
    destruct (String.eqb_spec (trim piece) "") as [Hblank|Hname]; [by left|].
    right. by exists s, piece, pieces. }
  destruct Hcases as [->|(s & piece & pieces & -> & Hs & Hsplit & Hname & Hr)].
  { split; [done|]. split; [by repeat constructor|]. split; [reflexivity|].
    split; [reflexivity | done]. }
  rewrite Hr.
  destruct (split_commas_head s) as (piece' & pieces' & Hsplit' & Hpiece & _).
  rewrite Hsplit in Hsplit'. injection Hsplit' as <- <-.
  destruct (trim_spec piece) as [_ Hchars].
  pose proof (Hchars _ Hpiece) as Hno.
  split; [done|]. split; [done|]. split; [apply trim_idempotent|]. split.
  - unfold getFirstArtist.
    assert (truthy (VStr (trim piece)) = true) as -> by (by apply truthy_VStr).
    cbn [negb].
    destruct (split_commas_head (trim piece)) as (p & ps & -> & _ & Hwhole).
    destruct (Hwhole Hno) as [-> ->]. cbn [head default from_option id]. cbv zeta.
    rewrite trim_idempotent.
    by destruct (String.eqb_spec (trim piece) "").
  - intros [Hno'| [= ->]]; [by destruct (Hno' s) | done].
Qed.

End FirstArtist.

(** *** The cache over any sequence of calls *)

Section CacheInvariant.
Context {App : Type} (E : Env).
Implicit Types (w : World App) (ep : Endpoint).

Lemma searchTracks_keeps_service query limit w :
  this (snd (searchTracks E query limit w)) = this w ∧
  sockets (snd (searchTracks E query limit w)) = sockets w ∧
  timers (snd (searchTracks E query limit w)) = timers w ∧
  app (snd (searchTracks E query limit w)) = app w.
Proof.
  unfold searchTracks.
  destruct (negb _ || _); [done|].
  unfold fetch. split_run_all; simpl; chase; done.
Qed.

(** X23.  [searchTracks] keeps nothing: it leaves the cache and the rest
    of the service, the sockets, the timers and the application as they
    were, so that the same search made twice sends its request twice. *)
Theorem searchTracks_is_never_cached query limit w :
  this (snd (searchTracks E query limit w)) = this w ∧
  sockets (snd (searchTracks E query limit w)) = sockets w ∧
  timers (snd (searchTracks E query limit w)) = timers w ∧
  app (snd (searchTracks E query limit w)) = app w ∧
  (∀ encoded,
     (2 ≤ String.length (trim query))%nat →
     encodeURIComponent E query = Return encoded →
     let url := baseURL +:+ "/search?query=" +:+ encoded +:+ "&limit=" +:+ pretty limit in
     sent (snd (searchTracks E query limit (snd (searchTracks E query limit w))))
       = (sent w ++ [url; url])%list).
Proof.
  destruct (searchTracks_keeps_service query limit w) as (Hthis & Hsockets & Htimers & Happ).
  do 4 (split; [done|]).
  intros encoded Hlong Hencoded url.
  assert (Hsent : ∀ w0, sent (snd (searchTracks E query limit w0)) = (sent w0 ++ [url])%list).
  { intros w0. subst url. unfold searchTracks.
    destruct (Nat.ltb_spec (String.length (trim query)) 2) as [?|_]; [lia|].
    assert (truthy (VStr query) = true) as ->.
    { destruct query; [simpl in Hlong; lia | reflexivity]. }
    simpl. rewrite Hencoded. unfold fetch. split_run; simpl in *; congruence. }
  rewrite !Hsent. by rewrite <- app_assoc.
Qed.

Lemma testConnection_keeps_service w :
  this (snd (testConnection E w)) = this w.
Proof. unfold testConnection, fetch. split_run_all; simpl; chase; done. Qed.

Lemma map_M_returned {A B} (f : A → M (App:=App) B) (P : B → Prop) items :
  (∀ a w b w', f a w = (Return b, w') → P b) →
  ∀ w bs w', map_M f items w = (Return bs, w') → Forall P bs.
Proof.
  intros Hf. induction items as [|a rest IH]; intros w bs w' Hrun; simpl in Hrun.
  - by injection Hrun as <- _.
  - destruct (f a w) as [[b|e] w1] eqn:Hone; simpl in Hrun; [|done].
    destruct (map_M f rest w1) as [[bs'|e] w2] eqn:Hrest; simpl in Hrun; [|done].
    injection Hrun as <- _. constructor; [by eapply Hf | by eapply IH].
Qed.

Lemma enhanceTrackData_returned track w v w' :
  enhanceTrackData E track w = (Return v, w') → own v "source" = VStr "jiosaavn_api".
Proof.
  intros Hrun.
  destruct (enhanceTrackData_dichotomy E (App:=App) track) as [[_ Hret]|[_ Hfail]].
  - destruct (Hret w) as (v0 & w0 & Hrun0 & fields & -> & _ & Hsource & _).
    rewrite Hrun0 in Hrun. by injection Hrun as <- _.
  - destruct (Hfail w) as (e & w0 & Hrun0 & _). congruence.
Qed.

(** What a fetch operation does to the cache: nothing, or it stores one
    entry under the key of its request. *)
Lemma fetch_op_cache ep w :
  cache (this (snd (fetch_op E ep w))) = cache (this w) ∨
  ∃ entry,
    cache (this (snd (fetch_op E ep w))) = <[request_key ep := entry]> (cache (this w)) ∧
    match ep with
    | Trending _ =>
        own (data entry) "source" = VStr "api" ∧
        (∃ t, own (data entry) "timestamp" = VInt t) ∧
        ∃ items, own (data entry) "tracks" = VArr items ∧
                 Forall (λ t, own t "source" = VStr "jiosaavn_api") items
    | Analytics => True
    end.
Proof.
  destruct (fst (isCacheValid E (request_key ep) w)) as [[|]|e] eqn:Hvalid.
  - left. revert Hvalid. rewrite isCacheValid_eq.
    destruct (cache (this w) !! request_key ep) as [entry|] eqn:Hentry; [|done].
    simpl. intros [= Hfresh%bool_decide_eq_true_1].
    by rewrite (fetch_op_hit E ep w entry Hentry Hfresh).
  - pose proof (after_check_frame E (request_key ep) w) as [Hthis _].
    destruct ep as [limit|]; simpl in *.
    + rewrite getTrendingTracks_miss by exact Hvalid.
      set (w1 := after_fetch E _ _ w).
      assert (Hthis1 : this w1 = this w) by exact Hthis.
      clearbody w1. simpl.
      destruct (network E (length (sent w))) as [resp|e]; simpl.
      2: { left. destruct (reads_only_getFallbackTrendingData E limit w1) as [-> _].
           by rewrite Hthis1. }
      destruct (ok resp); simpl.
      2: { left. destruct (reads_only_getFallbackTrendingData E limit w1) as [-> _].
           by rewrite Hthis1. }
      destruct (json resp) as [body|e]; simpl.
      2: { left. destruct (reads_only_getFallbackTrendingData E limit w1) as [-> _].
           by rewrite Hthis1. }
      destruct (get body "success") as [success|e]; simpl.
      2: { left. destruct (reads_only_getFallbackTrendingData E limit w1) as [-> _].
           by rewrite Hthis1. }
      destruct (negb (truthy success) || negb (truthy (own body "tracks"))
                || negb (isArray (own body "tracks"))); simpl.
      { left. destruct (reads_only_getFallbackTrendingData E limit w1) as [-> _].
        by rewrite Hthis1. }
      destruct (own body "tracks") as [| | | | |items|] eqn:Htracks; simpl;
        try (left; destruct (reads_only_getFallbackTrendingData E limit w1) as [-> _];
             by rewrite Hthis1).
      destruct (map_M (enhanceTrackData E) items w1) as [[enhanced|e] w2] eqn:Hmap; simpl.
      2: { left.
           apply (reads_only_run_all (map_M (enhanceTrackData E) items) w1) in Hmap;
             [|by apply reads_only_map_M, reads_only_enhanceTrackData].
           destruct Hmap as (Hthis2 & _).
           destruct (reads_only_getFallbackTrendingData E limit w2) as [-> _].
           by rewrite Hthis2, Hthis1. }
      right. eexists. split.
      { pose proof Hmap as Hframe.
        apply (reads_only_run_all (map_M (enhanceTrackData E) items) w1) in Hframe;
          [|by apply reads_only_map_M, reads_only_enhanceTrackData].
        destruct Hframe as (Hthis2 & _). rewrite Hthis2, Hthis1. reflexivity. }
      cbn [data own]. split; [by rewrite lookup_set_prop_eq|].
      split.
      { eexists. rewrite lookup_set_prop_ne by done. by rewrite lookup_set_prop_eq. }
      exists enhanced. split.
      { rewrite !lookup_set_prop_ne by done. by rewrite lookup_set_prop_eq. }
      eapply map_M_returned; [|exact Hmap].
      intros a w0 b w0'. apply enhanceTrackData_returned.
    + rewrite getAnalytics_miss by exact Hvalid.
      set (w1 := after_fetch E _ _ w).
      assert (Hthis1 : this w1 = this w) by exact Hthis.
      clearbody w1. simpl.
      destruct (network E (length (sent w))) as [resp|e]; simpl;
        [|left; by rewrite Hthis1].
      destruct (ok resp); simpl; [|left; by rewrite Hthis1].
      destruct (json resp) as [body|e]; simpl; [|left; by rewrite Hthis1].
      right. eexists. split; [|done]. by rewrite Hthis1.
  - revert Hvalid. rewrite isCacheValid_eq.
    by destruct (cache (this w) !! request_key ep).
Qed.

(** X24.  The cache never holds fallback data.  After any sequence of
    calls of [getTrendingTracks], [getAnalytics], [searchTracks],
    [testConnection] and [clearCache] on a new service, every cache entry
    is that of [getAnalytics] or belongs to some [getTrendingTracks(limit)],
    and then its payload is one made from an answer of the backend: its
    [source] is ['api'], its [timestamp] is a number and its [tracks] is a
    list of normalised records. *)
Theorem cache_holds_backend_answers_only calls (a : App) key entry :
  cache (this (perform_all E calls (fresh_world a))) !! key = Some entry →
  key = "analytics" ∨
  ∃ (limit : Z) items t,
    key = "trending_" +:+ pretty limit ∧
    own (data entry) "source" = VStr "api" ∧
    own (data entry) "timestamp" = VInt t ∧
    own (data entry) "tracks" = VArr items ∧
    Forall (λ track, own track "source" = VStr "jiosaavn_api") items.
Proof.
  unfold perform_all. revert key entry.
  induction calls as [|c calls IH] using rev_ind; intros key entry.
  - done.
  - rewrite foldl_app. cbn [foldl].
    set (w := foldl _ _ calls) in *. clearbody w.
    destruct c as [ep|query limit| |]; cbn [perform].
    + destruct (fetch_op_cache ep w) as [->|(stored & -> & Hstored)]; [apply IH|].
      destruct (decide (key = request_key ep)) as [->|Hne].
      * rewrite lookup_insert_eq. intros [= <-].
        destruct ep as [limit|]; [|by left].
        destruct Hstored as (Hsource & [t Ht] & items & Htracks & Hitems).
        right. by exists limit, items, t.
      * rewrite lookup_insert_ne by done. apply IH.
    + destruct (searchTracks_keeps_service query limit w) as [-> _]. apply IH.
    + rewrite testConnection_keeps_service. apply IH.
    + done.
Qed.

End CacheInvariant.

Lemma cache_holds_backend_answers_only_witness :
  ∃ entry,
    cache (this (perform_all sample_env [Search "ab" 5; Fetch (Trending 2)]
                   (fresh_world tt))) !! "trending_2" = Some entry ∧
    own (data entry) "source" = VStr "api".
Proof.
  assert (∃ entry,
            cache (this (perform_all sample_env [Search "ab" 5; Fetch (Trending 2)]
                           (fresh_world tt))) !! "trending_2" = Some entry)
    as [entry Hentry] by (eexists; vm_compute; reflexivity).
  exists entry. split; [exact Hentry|].
  destruct (cache_holds_backend_answers_only sample_env
              [Search "ab" 5; Fetch (Trending 2)] tt "trending_2" entry Hentry)
    as [Hkey|(limit & items & t & _ & Hsource & _)]; [discriminate | exact Hsource].
Defined.

(** *** The Dashboard under the live feed *)

Section DashboardFeed.
Context (E : Env).
Implicit Types (w : World (list Dashboard.State)) (d : Dashboard.State).

(** X25.  What a live update writes and what it keeps.  On a mounted
    Dashboard that holds no payload yet or holds an object, a message of
    type ["trending_update"] with a truthy [data] stores that [data] as the
    track list whatever it is (a list is not asked for), stamps the
    metadata with the source ['websocket'] and the time of the update, and
    keeps every other field of the payload, as well as every other field
    of its metadata when that is an object or absent.  The connection
    cells stay as they were.  With a falsy [data] the message changes
    nothing. *)
Theorem live_update_keeps_the_rest msg d :
  Dashboard.mounted d = true →
  get msg "type" = Return (VStr "trending_update") →
  (Dashboard.trendingData d = VNull ∨ ∃ props, Dashboard.trendingData d = VObj props) →
  (truthy (own msg "data") = false → Dashboard.on_message msg d = d) ∧
  (truthy (own msg "data") = true →
   let d' := Dashboard.on_message msg d in
   Dashboard.tracks d' = own msg "data" ∧
   own (own (Dashboard.trendingData d') "metadata") "source" = VStr "websocket" ∧
   own (own (Dashboard.trendingData d') "metadata") "last_update"
     = VStr (Dashboard.isoNow d) ∧
   (∀ k, k ≠ "tracks" → k ≠ "metadata" →
      own (Dashboard.trendingData d') k = own (Dashboard.trendingData d) k) ∧
   (∀ k, k ≠ "source" → k ≠ "last_update" →
      (∀ items, own (Dashboard.trendingData d) "metadata" ≠ VArr items) →
      (∀ s, own (Dashboard.trendingData d) "metadata" ≠ VStr s) →
      own (own (Dashboard.trendingData d') "metadata") k
        = own (own (Dashboard.trendingData d) "metadata") k) ∧
   Dashboard.mounted d' = true ∧
   Dashboard.wsConnected d' = Dashboard.wsConnected d ∧
   Dashboard.connectionStatus d' = Dashboard.connectionStatus d).
Proof.
  intros Hmounted Htype Hprev. unfold Dashboard.on_message.
  rewrite Hmounted, Htype. cbn [negb strict_eq_str]. rewrite String.eqb_refl.
  cbn [andb]. split; [by intros ->|]. intros ->.
  unfold Dashboard.tracks, Dashboard.setTrendingData.
  cbn [Dashboard.trendingData Dashboard.mounted Dashboard.wsConnected
       Dashboard.connectionStatus own].
  split.
  { unfold get_opt, get. cbn [own].
    rewrite lookup_set_prop_ne by done. by rewrite lookup_set_prop_eq. }
  rewrite lookup_set_prop_eq. cbn [own].
  split; [by rewrite lookup_set_prop_eq|].
  split; [rewrite lookup_set_prop_ne by done; by rewrite lookup_set_prop_eq|].
  split.
  { intros k Htracks Hmeta. rewrite !lookup_set_prop_ne by done.
    destruct Hprev as [->|[props ->]]; reflexivity. }
  split; [|done].
  intros k Hsource Hstamp Hlist Htext. rewrite !lookup_set_prop_ne by done.
  destruct Hprev as [Hnull|[props Hobj]].
  - rewrite Hnull. reflexivity.
  - rewrite Hobj in *. unfold get_opt, get. cbn [own] in *.
    destruct (lookup_prop "metadata" props) as [| | | | |items|fields] eqn:Hm;
      try reflexivity.
    + by destruct (Htext s).
    + by destruct (Hlist items).
Qed.

Lemma unmounted_ignores d :
  Dashboard.mounted d = false →
  (∀ msg, Dashboard.on_message msg d = d) ∧
  (∀ connected, Dashboard.on_status connected d = d).
Proof.
  intros Hd. unfold Dashboard.on_message, Dashboard.on_status. by rewrite Hd.
Qed.

Lemma callbacks_spare_unmounted j i d page :
  page !! i = Some d → Dashboard.mounted d = false →
  (∀ connected, notified (Dashboard.callbacks j) connected page !! i = Some d) ∧
  (∀ msg, alter (Dashboard.on_message msg) j page !! i = Some d).
Proof.
  intros Hd Hun. destruct (unmounted_ignores d Hun) as [Hmsg Hstatus].
  split.
  - intros connected. unfold notified. cbn [Dashboard.callbacks onConnectionChange].
    destruct (decide (i = j)) as [<-|Hne].
    + by rewrite list_lookup_alter_eq, Hd; cbn; rewrite Hstatus.
    + by rewrite list_lookup_alter_ne.
  - intros msg. destruct (decide (i = j)) as [<-|Hne].
    + by rewrite list_lookup_alter_eq, Hd; cbn; rewrite Hmsg.
    + by rewrite list_lookup_alter_ne.
Qed.

Lemma step_spares_unmounted ev w w' i d :
  step E ev w = Some w' →
  match ev with
  | CallConnect cbs => ∃ j, cbs = Dashboard.callbacks j
  | AppDoes f => ∀ page, page !! i = Some d → f page !! i = Some d
  | _ => True
  end →
  Forall (λ s, ∃ j, handlers s = Dashboard.callbacks j) (sockets w) →
  Forall (λ t, ∃ j, closure t = Dashboard.callbacks j) (timers w) →
  app w !! i = Some d → Dashboard.mounted d = false →
  Forall (λ s, ∃ j, handlers s = Dashboard.callbacks j) (sockets w') ∧
  Forall (λ t, ∃ j, closure t = Dashboard.callbacks j) (timers w') ∧
  app w' !! i = Some d.
Proof.
  intros Hstep Hev Hsockets Htimers Hd Hun.
  assert (Halter : ∀ (f : Socket (list Dashboard.State) → _) k,
            (∀ x, handlers (f x) = handlers x) →
            Forall (λ s, ∃ j, handlers s = Dashboard.callbacks j)
                   (alter f k (sockets w))).
  { intros f k Hf. apply Forall_alter; [done|]. intros x _ [j Hj]. exists j.
    by rewrite Hf. }
  assert (Hconnect : ∀ cbs w0,
            (∃ j, cbs = Dashboard.callbacks j) →
            Forall (λ s, ∃ j, handlers s = Dashboard.callbacks j) (sockets w0) →
            Forall (λ s, ∃ j, handlers s = Dashboard.callbacks j)
                   (sockets (snd (connectWebSocket E cbs w0)))).
  { intros cbs w0 Hcbs Hall. rewrite connectWebSocket_eq.
    destruct (ws_is_open w0); [done|]. destruct (WebSocket_throws E); [done|].
    simpl. apply Forall_app. split; [done|]. by apply Forall_singleton. }
  apply step_spec in Hstep.
  destruct ev as [k|k parsed|k|k|k|cbs| |f].
  - destruct Hstep as (sk & Hk & _ & ->). simpl.
    split; [by apply Halter|]. split; [done|].
    destruct (proj1 (Forall_lookup _ _) Hsockets k sk Hk) as [j ->].
    by apply callbacks_spare_unmounted.
  - destruct Hstep as (sk & Hk & _ & ->). rewrite ws_onmessage_eq.
    destruct (proj1 (Forall_lookup _ _) Hsockets k sk Hk) as [j ->].
    destruct parsed as [msg|e]; simpl; [|done].
    destruct (get msg "type"); simpl; [|done].
    split; [done|]. split; [done|]. by apply callbacks_spare_unmounted.
  - by subst w'.
  - destruct Hstep as (sk & Hk & _ & ->). simpl.
    destruct (proj1 (Forall_lookup _ _) Hsockets k sk Hk) as [j Hj].
    split; [by apply Halter|]. split.
    + case_bool_decide; [|done]. apply Forall_app. split; [done|].
      apply Forall_singleton. by exists j.
    + rewrite Hj. by apply callbacks_spare_unmounted.
  - destruct Hstep as (t & Ht & ->).
    match goal with |- context [connectWebSocket E ?c ?w0] =>
      destruct (connectWebSocket_frame E c w0) as (_ & -> & -> & _);
      pose proof (Hconnect c w0) as Hnew
    end.
    simpl in *. split; [|split; [by apply Forall_delete | done]].
    apply Hnew; [|done]. exact (proj1 (Forall_lookup _ _) Htimers k t Ht).
  - subst w'. destruct (connectWebSocket_frame E cbs w) as (_ & -> & -> & _).
    split; [by apply Hconnect | done].
  - subst w'. unfold disconnectWebSocket. destruct (ws (this w)) as [id|]; simpl; [|done].
    split; [|done]. apply Halter. intros x. unfold close. by destruct (readyState x).
  - subst w'. simpl. split; [done|]. split; [done|]. by apply Hev.
Qed.

(** X26.  A Dashboard that has been unmounted is out of reach of the
    feed.  Let every socket and every pending reconnect carry the
    callbacks of some Dashboard, and let the events be those of the
    browser, calls of [connectWebSocket] by Dashboards, calls of
    [disconnectWebSocket], and actions of the application that leave the
    [i]-th Dashboard alone.  Then, however the run goes and whichever
    sockets made with its callbacks are still open, the state of the
    unmounted [i]-th Dashboard never changes. *)
Theorem unmounted_dashboard_is_frozen evs w w' i d :
  run E evs w = Some w' →
  Forall (λ ev, match ev with
                | CallConnect cbs => ∃ j, cbs = Dashboard.callbacks j
                | AppDoes f => ∀ page, page !! i = Some d → f page !! i = Some d
                | _ => True
                end) evs →
  Forall (λ s, ∃ j, handlers s = Dashboard.callbacks j) (sockets w) →
  Forall (λ t, ∃ j, closure t = Dashboard.callbacks j) (timers w) →
  app w !! i = Some d → Dashboard.mounted d = false →
  app w' !! i = Some d.
Proof.
  intros Hrun Hevs Hsockets Htimers Hd Hun. revert w Hrun Hsockets Htimers Hd.
  induction Hevs as [|ev evs Hev Hevs IH]; intros w Hrun Hsockets Htimers Hd.
  - by injection Hrun as <-.
  - simpl in Hrun. destruct (step E ev w) as [w1|] eqn:Hstep; [|done]. simpl in Hrun.
    destruct (step_spares_unmounted ev w w1 i d Hstep Hev Hsockets Htimers Hd Hun)
      as (Hsockets1 & Htimers1 & Hd1).
    by apply (IH w1).
Qed.

End DashboardFeed.

(** A message whose [data] is a number, on a new Dashboard: the number
    becomes the track list. *)
Lemma live_update_keeps_the_rest_witness :
  Dashboard.tracks
    (Dashboard.on_message (VObj [("type", VStr "trending_update"); ("data", VInt 5)])
       (Dashboard.initial "2024-01-01T00:00:00.000Z")) = VInt 5.
Proof.
  destruct (live_update_keeps_the_rest
              (VObj [("type", VStr "trending_update"); ("data", VInt 5)])
              (Dashboard.initial "2024-01-01T00:00:00.000Z")
              eq_refl eq_refl (or_introl eq_refl)) as [_ Hstored].
  destruct (Hstored eq_refl) as [Htracks _]. exact Htracks.
Defined.

(** An unmounted Dashboard whose socket is still open: a live update and
    then the close of the socket leave it as it was. *)
Lemma unmounted_dashboard_is_frozen_witness :
  let d := Dashboard.unmount (Dashboard.initial "2024-01-01T00:00:00.000Z") in
  let w := mkWorld (mkService (Some 0%nat) true 0 ∅)
             [mkSocket OPEN (Dashboard.callbacks 0)] [] [d] 0 0 [] in
  ∃ w', run live_env [SocketMessage 0 (Return two_tracks_update); SocketCloses 0] w
          = Some w' ∧
        app w' !! 0%nat = Some d.
Proof.
  intros d w. eexists. split; [reflexivity|].
  apply (unmounted_dashboard_is_frozen live_env
           [SocketMessage 0 (Return two_tracks_update); SocketCloses 0] w _ 0 d).
  - reflexivity.
  - repeat constructor.
  - constructor; [by exists 0%nat | constructor].
  - constructor.
  - reflexivity.
  - reflexivity.
Defined.

(** Analytics whose [content_distribution] is empty are kept, and the
    page goes on showing its loading panel. *)
Lemma empty_distribution_is_kept :
  let a := VObj [("content_distribution", VObj [])] in
  (λ w : World DashboardLoad.Cells,
     (DashboardLoad.analytics (app w), DashboardLoad.hasValidAnalytics (app w)))
    (snd (DashboardLoad.loadDashboardData live_env true
            (Return (VObj [("healthy", VBool true)]))
            (Return (VObj [("tracks", VArr [VObj []])])) (Return a)
            (fresh_world DashboardLoad.initial)))
  = (a, false).
Proof. vm_compute. reflexivity. Qed.

Lemma generated_tracks_are_well_formed_witness :
  ∃ tracks metadata w',
    DashboardLoad.generateFallbackTrendingData live_env (fresh_world DashboardLoad.initial)
      = (Return (VObj [("success", VBool true); ("tracks", VArr tracks);
                       ("metadata", metadata)]), w') ∧
    length tracks = 21%nat.
Proof.
  destruct (generated_tracks_are_well_formed live_env (fresh_world DashboardLoad.initial))
    as (tracks & metadata & w' & Hrun & Hlen & _).
  - intros n. split; [discriminate | reflexivity].
  - exists tracks, metadata, w'. split; [exact Hrun | exact Hlen].
Defined.


(** *** What the grid and the player print *)

Section DisplayProperties.
Import Display.

(** Linear arithmetic on rationals, once the divisions by constants and
    the integer constants are written as fractions. *)
Local Ltac qarith :=
  unfold Qdiv in *; cbn [Qinv Qnum Qden] in *;
  change (inject_Z 0) with 0%Q in *;
  repeat match goal with
         | |- context [inject_Z (Zpos ?p)] =>
             change (inject_Z (Zpos p)) with (Zpos p # 1)%Q
         | H : context [inject_Z (Zpos ?p)] |- _ =>
             change (inject_Z (Zpos p)) with (Zpos p # 1)%Q in H
         end;
  lra.

Lemma append_assoc (a b c : string) : (a +:+ b) +:+ c = a +:+ (b +:+ c).
Proof.
  induction a as [|x a IH]; [reflexivity|].
  change (String x ((a +:+ b) +:+ c) = String x (a +:+ (b +:+ c))). by rewrite IH.
Qed.

Lemma Qfloor_ge x k : (inject_Z k <= x)%Q → k ≤ Qfloor x.
Proof.
  intros Hk. pose proof (Qlt_floor x) as Hup.
  pose proof (Qle_lt_trans _ _ _ Hk Hup) as Hlt. rewrite <- Zlt_Qlt in Hlt. lia.
Qed.

Lemma Qfloor_lt x k : (x < inject_Z k)%Q → Qfloor x < k.
Proof.
  intros Hk. pose proof (Qfloor_le x) as Hlow.
  pose proof (Qle_lt_trans _ _ _ Hlow Hk) as Hlt. by rewrite <- Zlt_Qlt in Hlt.
Qed.

Lemma Qfloor_unique x n :
  (inject_Z n <= x)%Q → (x < inject_Z (n + 1))%Q → Qfloor x = n.
Proof.
  intros Hlow Hup. apply Qfloor_ge in Hlow. apply Qfloor_lt in Hup. lia.
Qed.

Lemma two_digits s :
  0 ≤ s < 60 →
  padStart 2 "0" (pretty s) = (if s <? 10 then "0" else "") +:+ pretty s.
Proof.
  intros Hs. assert (∃ n, s = Z.of_nat n ∧ (n < 60)%nat) as (n & -> & Hn).
  { exists (Z.to_nat s). lia. }
  clear Hs. do 60 (destruct n as [|n]; [vm_compute; reflexivity|]). lia.
Qed.

Lemma Qeq_bool_positive x : (0 < x)%Q → Qeq_bool x 0 = false.
Proof.
  intros Hx. destruct (Qeq_bool x 0) eqn:Hzero; [|done].
  apply Qeq_bool_eq in Hzero. lra.
Qed.

Lemma trunc_positive x : (0 <= x)%Q → trunc x = Qfloor x.
Proof. intros Hx. unfold trunc. by rewrite (proj2 (Qle_bool_iff 0 x) Hx). Qed.

(** X27.  [formatDuration] of a positive number of milliseconds prints
    the whole seconds of the duration as minutes, a colon and the seconds
    left over, which are under 60 and take two digits.  For 0 it prints
    the placeholder ['3:00']. *)
Theorem formatDuration_splits_the_seconds ms :
  ((ms == 0)%Q → formatDuration ms = "3:00") ∧
  ((0 < ms)%Q →
   ∃ m s, 0 ≤ m ∧ 0 ≤ s < 60 ∧ 60 * m + s = Qfloor (ms / 1000) ∧
          formatDuration ms
            = pretty m +:+ ":" +:+ (if s <? 10 then "0" else "") +:+ pretty s).
Proof.
  unfold formatDuration. split.
  { intros Hzero. by rewrite (proj2 (Qeq_bool_iff ms 0) Hzero). }
  intros Hpos. rewrite Qeq_bool_positive by done.
  unfold js_rem. rewrite trunc_positive by qarith.
  set (m := Qfloor (ms / 60000)). set (T := Qfloor (ms / 1000)).
  pose proof (Qfloor_le (ms / 60000)) as Hm1. pose proof (Qlt_floor (ms / 60000)) as Hm2.
  pose proof (Qfloor_le (ms / 1000)) as HT1. pose proof (Qlt_floor (ms / 1000)) as HT2.
  fold m in Hm1, Hm2. fold T in HT1, HT2.
  rewrite inject_Z_plus in Hm2, HT2.
  assert (Hm : 0 ≤ m) by (apply Qfloor_ge; qarith).
  assert (Hlow : 60 * m ≤ T).
  { apply Qfloor_ge. rewrite inject_Z_mult. qarith. }
  assert (Hup : T < 60 * m + 60).
  { rewrite Zlt_Qlt, inject_Z_plus, inject_Z_mult. qarith. }
  assert (Hseconds : Qfloor ((ms - 60000 * inject_Z m) / 1000) = T - 60 * m).
  { apply Qfloor_unique.
    - unfold Z.sub. rewrite inject_Z_plus, inject_Z_opp, inject_Z_mult.
      qarith.
    - unfold Z.sub. rewrite !inject_Z_plus, inject_Z_opp, inject_Z_mult.
      qarith. }
  rewrite Hseconds. exists m, (T - 60 * m).
  split; [done|]. split; [lia|]. split; [lia|].
  rewrite two_digits by lia. reflexivity.
Qed.

(** X28.  [formatTime] of a positive number of seconds prints its whole
    seconds as minutes, a colon and the seconds left over, which are under
    60 and take two digits.  For 0 it prints ['0:00']. *)
Theorem formatTime_splits_the_seconds t :
  ((t == 0)%Q → formatTime t = "0:00") ∧
  ((0 < t)%Q →
   ∃ m s, 0 ≤ m ∧ 0 ≤ s < 60 ∧ 60 * m + s = Qfloor t ∧
          formatTime t
            = pretty m +:+ ":" +:+ (if s <? 10 then "0" else "") +:+ pretty s).
Proof.
  unfold formatTime. split.
  { intros Hzero. by rewrite (proj2 (Qeq_bool_iff t 0) Hzero). }
  intros Hpos. rewrite Qeq_bool_positive by done.
  unfold js_rem. rewrite trunc_positive by qarith.
  set (m := Qfloor (t / 60)). set (T := Qfloor t).
  pose proof (Qfloor_le (t / 60)) as Hm1. pose proof (Qlt_floor (t / 60)) as Hm2.
  pose proof (Qfloor_le t) as HT1. pose proof (Qlt_floor t) as HT2.
  fold m in Hm1, Hm2. fold T in HT1, HT2.
  rewrite inject_Z_plus in Hm2, HT2.
  assert (Hm : 0 ≤ m) by (apply Qfloor_ge; qarith).
  assert (Hlow : 60 * m ≤ T).
  { apply Qfloor_ge. rewrite inject_Z_mult. qarith. }
  assert (Hup : T < 60 * m + 60).
  { rewrite Zlt_Qlt, inject_Z_plus, inject_Z_mult. qarith. }
  assert (Hseconds : Qfloor (t - 60 * inject_Z m) = T - 60 * m).
  { apply Qfloor_unique.
    - unfold Z.sub. rewrite inject_Z_plus, inject_Z_opp, inject_Z_mult. qarith.
    - unfold Z.sub. rewrite !inject_Z_plus, inject_Z_opp, inject_Z_mult. qarith. }
  rewrite Hseconds. exists m, (T - 60 * m).
  split; [done|]. split; [lia|]. split; [lia|].
  rewrite two_digits by lia. reflexivity.
Qed.

(** X30.  [toggleLike] flips the track it is given and no other: the
    track is liked afterwards exactly when it was not before, every other
    track stays as it was, toggling twice restores the set, and toggles of
    two tracks can be made in either order. *)
Theorem toggleLike_flips_one_track trackId likes :
  (trackId ∈ toggleLike trackId likes ↔ trackId ∉ likes) ∧
  (∀ other, other ≠ trackId → (other ∈ toggleLike trackId likes ↔ other ∈ likes)) ∧
  toggleLike trackId (toggleLike trackId likes) = likes ∧
  (∀ other, toggleLike trackId (toggleLike other likes)
            = toggleLike other (toggleLike trackId likes)).
Proof.
  assert (Hin : ∀ x id (s : gset string),
            x ∈ toggleLike id s ↔ (x = id ∧ id ∉ s) ∨ (x ≠ id ∧ x ∈ s)).
  { intros x id s. unfold toggleLike. case_decide.
    - rewrite elem_of_difference, elem_of_singleton. intuition congruence.
    - rewrite elem_of_union, elem_of_singleton.
      destruct (decide (x = id)); intuition congruence. }
  split; [|split; [|split]].
  - rewrite Hin. intuition congruence.
  - intros other Hne. rewrite Hin. intuition congruence.
  - apply set_eq. intros x. rewrite !Hin.
    destruct (decide (x = trackId)) as [->|Hne];
      destruct (decide (trackId ∈ likes)); intuition congruence.
  - intros other. apply set_eq. intros x. rewrite !Hin.
    destruct (decide (trackId = other)) as [->|?]; [reflexivity|].
    destruct (decide (x = trackId)); destruct (decide (x = other)); try congruence;
      destruct (decide (other ∈ likes)); destruct (decide (trackId ∈ likes));
      intuition congruence.
Qed.

End DisplayProperties.
